(** * Agri-drone analytics: field grid, spray-path planner and alert engine

    A shallow embedding of the JavaScript utilities of the dashboard
    ([fieldGrid.js], [gpsSimulator.js], [infectedZones.js],
    [pathPlanner.js], [decisionRules.js], [alertRuleEngine.js],
    [economicConfig.js], [economicCalculator.js]) and of the effect of the
    alerts panel that runs the rule engine, together with the properties
    stated about them.

    Conventions of the embedding.
    - A JavaScript number is a [JS.number]: an exact rational, [NaN],
      [Infinity] or [-Infinity].  Arithmetic on the finite part is exact:
      the rounding of binary64 and the sign of zero are not represented.
      The code rounds every sum, product and quotient, so its result can
      differ from the exact one in the last digits, and [toFixed] can
      print the other decimal of a quotient that is next to a tie.  The
      properties are stated so that this makes no difference: they relate
      a result to the operations that give it, or give signs, comparisons
      and bounds with a margin, or a digit that [toFixed] settles away
      from a tie.
    - A JavaScript string is a [string] of bytes (UTF-8); case mapping is
      the ASCII one.
    - An object whose property names matter is a [gmap string _]; reading
      a property that is not there gives [undefined], here [None].
    - Objects handed in by the collaborators (sensor snapshot, economic
      impact, fusion results) are records whose fields are optional.
    - The clock ([Date.now()], [new Date().toISOString()]) is an argument.
    - [Math.sin], [Math.cos], [Math.sqrt], [Math.atan2] and [Math.PI] are
      parameters of the planner.
    - A loop or a recursion that need not end takes fuel: a result is
      [None] or [Unfinished] when the fuel runs out, and a throw is a
      result of its own. *)

From Stdlib Require Import Ascii String QArith Qabs Qround ZArith.
From Stdlib Require Import Permutation Sorted Lia Lqa.
From stdpp Require Import gmap strings list.

Open Scope string_scope.

(* ===================================================================== *)
(** * Part I: the program *)
(* ===================================================================== *)

(** ** JavaScript numbers and strings *)

Module JS.

Inductive number : Type :=
| Fin (q : Q)
| NaN
| PInf
| NInf.

Definition ofZ (z : Z) : number := Fin (inject_Z z).
Definition ofNat (n : nat) : number := ofZ (Z.of_nat n).

Definition neg (x : number) : number :=
  match x with
  | Fin q => Fin (- q)
  | NaN => NaN
  | PInf => NInf
  | NInf => PInf
  end.

Definition add (x y : number) : number :=
  match x, y with
  | NaN, _ | _, NaN => NaN
  | Fin a, Fin b => Fin (a + b)
  | PInf, NInf | NInf, PInf => NaN
  | PInf, _ | _, PInf => PInf
  | NInf, _ | _, NInf => NInf
  end.

Definition sub (x y : number) : number := add x (neg y).

(** An infinity times a finite factor keeps or flips its sign, and is
    [NaN] when the factor is zero. *)
Definition scaleInf (inf : number) (a : Q) : number :=
  match (a ?= 0)%Q with
  | Eq => NaN
  | Gt => inf
  | Lt => neg inf
  end.

Definition mul (x y : number) : number :=
  match x, y with
  | NaN, _ | _, NaN => NaN
  | Fin a, Fin b => Fin (a * b)
  | Fin a, inf | inf, Fin a => scaleInf inf a
  | PInf, PInf | NInf, NInf => PInf
  | PInf, NInf | NInf, PInf => NInf
  end.

Definition div (x y : number) : number :=
  match x, y with
  | NaN, _ | _, NaN => NaN
  | Fin a, Fin b =>
      if Qeq_bool b 0
      then match (a ?= 0)%Q with Eq => NaN | Gt => PInf | Lt => NInf end
      else Fin (a / b)
  | Fin _, _ => Fin 0
  | inf, Fin b => match (b ?= 0)%Q with Lt => neg inf | _ => inf end
  | _, _ => NaN
  end.

(** Relational operators: every comparison with [NaN] is false. *)
Definition lt (x y : number) : bool :=
  match x, y with
  | NaN, _ | _, NaN => false
  | Fin a, Fin b => match (a ?= b)%Q with Lt => true | _ => false end
  | NInf, NInf | PInf, _ | _, NInf => false
  | _, _ => true
  end.

Definition gt (x y : number) : bool := lt y x.

Definition le (x y : number) : bool :=
  match x, y with
  | NaN, _ | _, NaN => false
  | _, _ => negb (lt y x)
  end.

Definition ge (x y : number) : bool := le y x.

(** [ToBoolean] of a number: [0] and [NaN] are falsy. *)
Definition truthy (x : number) : bool :=
  match x with
  | Fin q => negb (Qeq_bool q 0)
  | NaN => false
  | _ => true
  end.

(** [v || d] where [v] is a property that holds a number or is absent. *)
Definition orDefault (v : option number) (d : number) : number :=
  match v with
  | Some x => if truthy x then x else d
  | None => d
  end.

(** [ToBoolean] of a string and [s || d]: the empty string is falsy. *)
Definition truthyStr (s : string) : bool :=
  match s with
  | EmptyString => false
  | _ => true
  end.

Definition orDefaultStr (v : option string) (d : string) : string :=
  match v with
  | Some s => if truthyStr s then s else d
  | None => d
  end.

Definition Math_ceil (x : number) : number :=
  match x with
  | Fin q => ofZ (Qceiling q)
  | _ => x
  end.

(** [Math.max(...xs)]: [-Infinity] on no argument, [NaN] as soon as one
    argument is [NaN]. *)
Definition max2 (x y : number) : number :=
  match x, y with
  | NaN, _ | _, NaN => NaN
  | _, _ => if lt x y then y else x
  end.

Definition Math_max (xs : list number) : number := fold_left max2 xs NInf.

(** The decimal numeral of an integer, as a template literal prints it.
    [digitsOf] writes the digits from the last to the first in front of
    [acc]; the binary length of the number is fuel enough. *)
Definition digitChar (d : Z) : ascii := ascii_of_nat (48 + Z.to_nat d).

Fixpoint digitsOf (fuel : nat) (n : Z) (acc : string) : string :=
  match fuel with
  | O => acc
  | S fuel' =>
      let acc' := String (digitChar (n mod 10)) acc in
      if (n / 10 =? 0)%Z then acc' else digitsOf fuel' (n / 10) acc'
  end.

Definition numeral (n : Z) : string :=
  digitsOf (S (Z.to_nat (Z.log2 n))) n "".

Definition dec (z : Z) : string :=
  if (z <? 0)%Z then "-" ++ numeral (- z) else numeral z.

Fixpoint zeros (n : nat) : string :=
  match n with
  | O => ""
  | S n' => String "0"%char (zeros n')
  end.

Definition padStart (d : nat) (s : string) : string :=
  zeros (d - String.length s) ++ s.

(** [x.toFixed(d)]: the decimal numeral of the integer [n] that makes
    [n / 10^d] nearest to [|x|], the larger [n] on a tie, with the sign of
    [x] in front.  [fixedBody d n] writes [n] with [d] decimals.
    (Magnitudes from [10^21] on, which JavaScript prints in exponent form,
    are outside what the dashboard computes.) *)
Definition fixedBody (d : nat) (n : Z) : string :=
  dec (n / 10 ^ Z.of_nat d)
  ++ (if Nat.eqb d 0 then "" else "." ++ padStart d (dec (n mod 10 ^ Z.of_nat d))).

Definition toFixed (d : nat) (x : number) : string :=
  match x with
  | NaN => "NaN"
  | PInf => "Infinity"
  | NInf => "-Infinity"
  | Fin q =>
      (if lt x (Fin 0) then "-" else "")
        ++ fixedBody d (Qfloor (Qabs q * inject_Z (10 ^ Z.of_nat d) + (1 # 2)))
  end.

Definition isDigit (c : ascii) : bool :=
  let n := nat_of_ascii c in (48 <=? n)%nat && (n <=? 57)%nat.

Definition isSpace (c : ascii) : bool :=
  let n := nat_of_ascii c in
  (n =? 32)%nat || ((9 <=? n)%nat && (n <=? 13)%nat).

Fixpoint trimStart (s : string) : string :=
  match s with
  | String c r => if isSpace c then trimStart r else s
  | EmptyString => s
  end.

(** The longest prefix of digits, and what follows it. *)
Fixpoint takeDigits (s : string) : string * string :=
  match s with
  | String c r =>
      if isDigit c
      then let '(ds, rest) := takeDigits r in (String c ds, rest)
      else ("", s)
  | EmptyString => ("", "")
  end.

(** The value of a string of digits, read from the left. *)
Definition digitOf (c : ascii) : Z := Z.of_nat (nat_of_ascii c) - 48.

Fixpoint digitsAcc (ds : string) (acc : Z) : Z :=
  match ds with
  | String c r => digitsAcc r (10 * acc + digitOf c)
  | EmptyString => acc
  end.

Definition digitsValue (ds : string) : Z := digitsAcc ds 0.

(** [parseFloat(s)]: leading blanks, a sign, then [Infinity] or the
    longest numeral [digits[.digits]]; [NaN] when there is none.  (An
    exponent part is not read: [toFixed] writes none.) *)
Definition splitSign (s : string) : bool * string :=
  match s with
  | String "-"%char r => (true, r)
  | String "+"%char r => (false, r)
  | _ => (false, s)
  end.

Definition fractionDigits (afterInteger : string) : string :=
  match afterInteger with
  | String "."%char r => fst (takeDigits r)
  | _ => ""
  end.

Definition parseFloat (s : string) : number :=
  let '(minus, s1) := splitSign (trimStart s) in
  if Strings.String.prefix "Infinity" s1
  then (if minus then NInf else PInf)
  else
    let '(ip, r1) := takeDigits s1 in
    let fp := fractionDigits r1 in
    match ip, fp with
    | EmptyString, EmptyString => NaN
    | _, _ =>
        let n := digitsValue (ip ++ fp) in
        let q := Qred (Qmake n (Z.to_pos (10 ^ Z.of_nat (String.length fp)))) in
        Fin (if minus then Qred (- q) else q)
    end.

(** The number that [parseFloat(x.toFixed(d))] is: [x] rounded to [d]
    decimals, ties away from zero. *)
Definition roundedTo (d : nat) (q : Q) : Q :=
  let r := Qred (Qmake (Qfloor (Qabs q * inject_Z (10 ^ Z.of_nat d) + (1 # 2)))
                       (Z.to_pos (10 ^ Z.of_nat d))) in
  if lt (Fin q) (Fin 0) then Qred (- r) else r.

(** Strings of digits, and strings that do not go on with a digit. *)
Fixpoint allDigits (s : string) : Prop :=
  match s with
  | String c r => isDigit c = true /\ allDigits r
  | EmptyString => True
  end.

Definition endsDigits (rest : string) : Prop :=
  match rest with
  | String c _ => isDigit c = false
  | EmptyString => True
  end.

(** [s.toLowerCase()] on ASCII letters and [hay.includes(needle)]. *)
Definition lowerAscii (c : ascii) : ascii :=
  let n := nat_of_ascii c in
  if (65 <=? n)%nat && (n <=? 90)%nat then ascii_of_nat (n + 32) else c.

Fixpoint toLowerCase (s : string) : string :=
  match s with
  | String c r => String (lowerAscii c) (toLowerCase r)
  | EmptyString => EmptyString
  end.

Fixpoint includes (needle hay : string) : bool :=
  if Strings.String.prefix needle hay then true
  else match hay with
       | String _ r => includes needle r
       | EmptyString => false
       end.

(** [String(x)], as a template literal prints a number.  A whole number
    prints its digits.  For the other finite numbers the digits are the
    shortest that read back as the same double, which exact rationals do
    not determine: they are the parameter [fraction].  (Magnitudes from
    [10^21] on print in exponent form and are outside what is computed.) *)
Definition toString (fraction : Q -> string) (x : number) : string :=
  match x with
  | NaN => "NaN"
  | PInf => "Infinity"
  | NInf => "-Infinity"
  | Fin q =>
      if Qeq_bool q (inject_Z (Qfloor q)) then dec (Qfloor q) else fraction q
  end.

(** [x === y] on numbers: [NaN] is equal to nothing, itself included. *)
Definition strictEq (x y : number) : bool :=
  match x, y with
  | Fin a, Fin b => Qeq_bool a b
  | PInf, PInf | NInf, NInf => true
  | _, _ => false
  end.

End JS.
Import JS.

(** ** Code that may throw

    Running such code gives a value, or throws (a property of [undefined]
    or of [null] is read), or, where the depth of a recursion is bounded
    by fuel, gives no answer. *)
Inductive outcome (A : Type) : Type :=
| Returned (a : A)
| Thrown
| Unfinished.
Arguments Returned {A} a.
Arguments Thrown {A}.
Arguments Unfinished {A}.

#[global] Instance outcome_ret : MRet outcome := fun A a => Returned a.
#[global] Instance outcome_bind : MBind outcome :=
  fun A B f o =>
    match o with
    | Returned a => f a
    | Thrown => Thrown
    | Unfinished => Unfinished
    end.

(** ** gpsSimulator.js: the field and its centre *)

Record LatLng : Type := mkLatLng { lat : number; lng : number }.

Module GpsSimulator.

(** [FIELD_CONFIG.center]: 28.6139 N, 77.2090 E. *)
Definition FIELD_CONFIG_center : LatLng :=
  {| lat := Fin (286139 # 10000); lng := Fin (772090 # 10000) |}.

Definition getFieldCenter : LatLng := FIELD_CONFIG_center.

(** [FIELD_CONFIG.bounds] *)
Definition FIELD_CONFIG_latDelta : number := Fin (2 # 1000).
Definition FIELD_CONFIG_lngDelta : number := Fin (2 # 1000).

(** [generateFieldGPS()]; [random1] and [random2] are the readings of the
    two calls of [Math.random()], in their order. *)
Definition generateFieldGPS (random1 random2 : number) : LatLng :=
  let latOffset := mul (sub random1 (Fin (1 # 2))) FIELD_CONFIG_latDelta in
  let lngOffset := mul (sub random2 (Fin (1 # 2))) FIELD_CONFIG_lngDelta in
  {| lat := parseFloat (toFixed 6 (add (lat FIELD_CONFIG_center) latOffset));
     lng := parseFloat (toFixed 6 (add (lng FIELD_CONFIG_center) lngOffset)) |}.

(** [generateGridGPS(rows, cols)]: the point that the loop body pushes
    for [row] and [col], and the points of all rows, row by row. *)
Definition gridPoint (rows cols row col : nat) : LatLng :=
  let latOffset :=
    mul (sub (div (ofNat row) (sub (ofNat rows) (ofZ 1))) (Fin (1 # 2)))
        FIELD_CONFIG_latDelta in
  let lngOffset :=
    mul (sub (div (ofNat col) (sub (ofNat cols) (ofZ 1))) (Fin (1 # 2)))
        FIELD_CONFIG_lngDelta in
  {| lat := parseFloat (toFixed 6 (add (lat FIELD_CONFIG_center) latOffset));
     lng := parseFloat (toFixed 6 (add (lng FIELD_CONFIG_center) lngOffset)) |}.

Definition generateGridGPS (rows cols : nat) : list LatLng :=
  flat_map (fun row => map (gridPoint rows cols row) (seq 0 cols)) (seq 0 rows).

(** [getFieldBounds()]: [[south, west], [north, east]]. *)
Definition getFieldBounds : (number * number) * (number * number) :=
  ((sub (lat FIELD_CONFIG_center) (div FIELD_CONFIG_latDelta (ofZ 2)),
    sub (lng FIELD_CONFIG_center) (div FIELD_CONFIG_lngDelta (ofZ 2))),
   (add (lat FIELD_CONFIG_center) (div FIELD_CONFIG_latDelta (ofZ 2)),
    add (lng FIELD_CONFIG_center) (div FIELD_CONFIG_lngDelta (ofZ 2)))).

End GpsSimulator.

(** ** fieldGrid.js: the cell matrix and its statistics *)

Module FieldGrid.

(** [GRID_CONFIG] *)
Definition GRID_rows : nat := 10.
Definition GRID_cols : nat := 10.
Definition GRID_latDelta : number := Fin (2 # 1000).
Definition GRID_lngDelta : number := Fin (2 # 1000).

(** [bounds] is [[south, west], [north, east]]; [detections] holds the
    ids of the detections that fell into the cell. *)
Record GridCell : Type := mkGridCell {
  row : nat;
  col : nat;
  id : string;
  center : LatLng;
  bounds : (number * number) * (number * number);
  detections : list string;
  infected : bool
}.

Abbreviation Grid := (list (list GridCell)).

Definition createCell (fieldNorth fieldWest cellLatSize cellLngSize : number)
    (row col : nat) : GridCell :=
  let north := sub fieldNorth (mul (ofNat row) cellLatSize) in
  let south := sub north cellLatSize in
  let west := add fieldWest (mul (ofNat col) cellLngSize) in
  let east := add west cellLngSize in
  let centerLat := div (add north south) (ofZ 2) in
  let centerLng := div (add west east) (ofZ 2) in
  {| row := row;
     col := col;
     id := dec (Z.of_nat row) ++ "_" ++ dec (Z.of_nat col);
     center := {| lat := parseFloat (toFixed 6 centerLat);
                  lng := parseFloat (toFixed 6 centerLng) |};
     bounds := ((south, west), (north, east));
     detections := [];
     infected := false |}.

Definition createFieldGrid : Grid :=
  let fieldCenter := GpsSimulator.getFieldCenter in
  let cellLatSize := div GRID_latDelta (ofNat GRID_rows) in
  let cellLngSize := div GRID_lngDelta (ofNat GRID_cols) in
  let fieldNorth := add (lat fieldCenter) (div GRID_latDelta (ofZ 2)) in
  let fieldWest := sub (lng fieldCenter) (div GRID_lngDelta (ofZ 2)) in
  map (fun row =>
         map (createCell fieldNorth fieldWest cellLatSize cellLngSize row)
             (seq 0 GRID_cols))
      (seq 0 GRID_rows).

Definition isPointInCell (point : LatLng) (cell : GridCell) : bool :=
  let '((south, west), (north, east)) := bounds cell in
  ge (lat point) south && le (lat point) north
  && ge (lng point) west && le (lng point) east.

Fixpoint findInRow (point : LatLng) (cells : list GridCell) : option GridCell :=
  match cells with
  | [] => None
  | cell :: rest =>
      if isPointInCell point cell then Some cell else findInRow point rest
  end.

Fixpoint findCellForPoint (point : LatLng) (grid : Grid) : option GridCell :=
  match grid with
  | [] => None
  | r :: rest =>
      match findInRow point r with
      | Some cell => Some cell
      | None => findCellForPoint point rest
      end
  end.

Definition flattenGrid (grid : Grid) : list GridCell := concat grid.

Definition getInfectedCells (grid : Grid) : list GridCell :=
  List.filter infected (flattenGrid grid).

(** The object that [calculateGridStats] returns, property by property. *)
Definition calculateGridStats (grid : Grid) : gmap string number :=
  let allCells := flattenGrid grid in
  let infectedCells := List.filter infected allCells in
  let totalCells := ofNat (length allCells) in
  let infectedCount := ofNat (length infectedCells) in
  let healthyCount := sub totalCells infectedCount in
  let infectedPercentage := mul (div infectedCount totalCells) (ofZ 100) in
  let healthyPercentage := mul (div healthyCount totalCells) (ofZ 100) in
  <["totalCells" := totalCells]> (
  <["infectedCount" := infectedCount]> (
  <["healthyCount" := healthyCount]> (
  <["infectedPercentage" := parseFloat (toFixed 1 infectedPercentage)]> (
  <["healthyPercentage" := parseFloat (toFixed 1 healthyPercentage)]> (
  <["chemicalSavings" := parseFloat (toFixed 1 healthyPercentage)]> ∅))))).

End FieldGrid.

(** ** infectedZones.js: detections on the grid, zone statistics *)

Module InfectedZones.
Import FieldGrid.

(** What the mapper reads of a detection record. *)
Record Detection : Type := mkDetection {
  det_id : string;
  gps : option LatLng
}.

(** The cell that [findCellForPoint] returns is an object of the grid: the
    two assignments that follow act on the grid in place, on the first
    cell that contains the point. *)
Definition pushDetection (detId : string) (cell : GridCell) : GridCell :=
  {| row := row cell; col := col cell; id := id cell; center := center cell;
     bounds := bounds cell;
     detections := detections cell ++ [detId];
     infected := true |}.

Fixpoint markInRow (point : LatLng) (detId : string) (cells : list GridCell)
    : option (list GridCell) :=
  match cells with
  | [] => None
  | cell :: rest =>
      if isPointInCell point cell
      then Some (pushDetection detId cell :: rest)
      else option_map (cons cell) (markInRow point detId rest)
  end.

Fixpoint markCellForPoint (point : LatLng) (detId : string) (grid : Grid) : Grid :=
  match grid with
  | [] => []
  | r :: rest =>
      match markInRow point detId r with
      | Some r' => r' :: rest
      | None => r :: markCellForPoint point detId rest
      end
  end.

Definition mapDetection (grid : Grid) (detection : Detection) : Grid :=
  match gps detection with
  | None => grid
  | Some point => markCellForPoint point (det_id detection) grid
  end.

Definition mapDetectionsToGrid (detections : list Detection) : Grid :=
  fold_left mapDetection detections createFieldGrid.

(** Whether a detection falls into the cell of id [cellId]: it has a
    position, and the first cell of the grid of [createFieldGrid] that
    contains the position has that id. *)
Definition landsIn (cellId : string) (detection : Detection) : bool :=
  match gps detection with
  | Some point =>
      match findCellForPoint point createFieldGrid with
      | Some cell => String.eqb (id cell) cellId
      | None => false
      end
  | None => false
  end.

(** The cell [cell] holding the ids of the detections of [dets] that
    fall into it, in the order of [dets], and infected when there is one. *)
Definition withDetections (dets : list Detection) (cell : GridCell) : GridCell :=
  {| row := row cell; col := col cell; id := id cell; center := center cell;
     bounds := bounds cell;
     detections := map det_id (List.filter (landsIn (id cell)) dets);
     infected := existsb (landsIn (id cell)) dets |}.

(** Whether a detection falls into some cell of the grid. *)
Definition inField (detection : Detection) : bool :=
  match gps detection with
  | Some point =>
      match findCellForPoint point createFieldGrid with
      | Some _ => true
      | None => false
      end
  | None => false
  end.

(** The cell of id [cellId] takes the detection, every other cell stays. *)
Definition pushInto (cellId detId : string) (cell : GridCell) : GridCell :=
  if String.eqb cellId (id cell) then pushDetection detId cell else cell.

(** [identifyInfectedZones]: the recursion and the two loops, with the
    outcomes of code that may throw. *)
(** [`${row}_${col}`], the key of the [Set] [visited]. *)
Definition cellKey (row col : Z) : string := dec row ++ "_" ++ dec col.

(** [grid[row][col]] for indices that are not negative; [None] is
    [undefined]. *)
Definition cellAt (grid : Grid) (row col : Z) : option GridCell :=
  grid !! Z.to_nat row ≫= fun gridRow => gridRow !! Z.to_nat col.

(** [dfs(row, col, currentZone)]: [visited] and [currentZone] are
    objects that the calls share, here the state that is passed on. *)
Fixpoint dfs (fuel : nat) (grid : Grid) (rows cols : Z) (row col : Z)
    (visited : gset string) (currentZone : list GridCell)
    : outcome (gset string * list GridCell) :=
  match fuel with
  | O => Unfinished
  | S fuel' =>
      let cellId := cellKey row col in
      if (row <? 0)%Z || (rows <=? row)%Z || (col <? 0)%Z || (cols <=? col)%Z
      then Returned (visited, currentZone)
      else if bool_decide (cellId ∈ visited)
      then Returned (visited, currentZone)
      else
        match cellAt grid row col with
        | None => Thrown
        | Some cell =>
            if negb (infected cell) then Returned (visited, currentZone)
            else
              '(visited, currentZone) ←
                dfs fuel' grid rows cols (row - 1) col
                    ({[cellId]} ∪ visited) (currentZone ++ [cell])%list;
              '(visited, currentZone) ←
                dfs fuel' grid rows cols (row + 1) col visited currentZone;
              '(visited, currentZone) ←
                dfs fuel' grid rows cols row (col - 1) visited currentZone;
              dfs fuel' grid rows cols row (col + 1) visited currentZone
        end
  end.

(** The body of the two loops for one cell: a zone is started at an
    infected cell that is not recorded, and pushed when it is not empty. *)
Definition startZone (fuel : nat) (grid : Grid) (rows cols : Z)
    (state : outcome (gset string * list (list GridCell))) (row col : Z)
    : outcome (gset string * list (list GridCell)) :=
  '(visited, zones) ← state;
  match cellAt grid row col with
  | None => Thrown
  | Some cell =>
      if infected cell && negb (bool_decide (cellKey row col ∈ visited))
      then
        '(visited, zone) ← dfs fuel grid rows cols row col visited [];
        mret (visited,
              if (0 <? length zone)%nat then (zones ++ [zone])%list else zones)
      else mret (visited, zones)
  end.

(** [grid[0].length] throws for a grid without rows. *)
Definition identifyInfectedZones (fuel : nat) (grid : Grid)
    : outcome (list (list GridCell)) :=
  match grid with
  | [] => Thrown
  | first :: _ =>
      let rows := Z.of_nat (length grid) in
      let cols := Z.of_nat (length first) in
      '(_, zones) ←
        fold_left
          (fun state row =>
             fold_left (fun state col =>
                          startZone fuel grid rows cols state
                                    (Z.of_nat row) (Z.of_nat col))
                       (seq 0 (length first)) state)
          (seq 0 (length grid))
          (Returned (∅, []));
      mret zones
  end.


(** The places of a grid of [rows] x [cols] cells, row by row, and the
    key under which the search records a place. *)
Definition places (rows cols : nat) : list (nat * nat) :=
  flat_map (fun row => map (pair row) (seq 0 cols)) (seq 0 rows).

Definition placeKey (p : nat * nat) : string :=
  cellKey (Z.of_nat (fst p)) (Z.of_nat (snd p)).

Definition placeCell (grid : Grid) (p : nat * nat) : option GridCell :=
  cellAt grid (Z.of_nat (fst p)) (Z.of_nat (snd p)).

Definition infectedAt (grid : Grid) (p : nat * nat) : bool :=
  match placeCell grid p with
  | Some cell => infected cell
  | None => false
  end.

(** Neighbours in a row or in a column. *)
Definition adjacent (p q : nat * nat) : Prop :=
  (fst p = fst q /\ (snd p = S (snd q) \/ snd q = S (snd p)))
  \/ (snd p = snd q /\ (fst p = S (fst q) \/ fst q = S (fst p))).

(** Every place of [rest] has a neighbour among the places before it. *)
Fixpoint chainedFrom (earlier rest : list (nat * nat)) : Prop :=
  match rest with
  | [] => True
  | p :: rest' =>
      (exists q, In q earlier /\ adjacent q p)
      /\ chainedFrom (earlier ++ [p]) rest'
  end.

Definition chained (zone : list (nat * nat)) : Prop :=
  match zone with
  | [] => True
  | root :: rest => chainedFrom [root] rest
  end.

(** A grid all of whose rows have the length of the first one. *)
Definition rectangular (grid : Grid) : bool :=
  match grid with
  | [] => true
  | first :: _ => forallb (fun gridRow => (length gridRow =? length first)%nat) grid
  end.

(** The number of places that the search has not recorded. *)
Definition unseen (rows cols : nat) (visited : gset string) : nat :=
  length (List.filter (fun p => negb (bool_decide (placeKey p ∈ visited)))
                      (places rows cols)).

(** What a search that starts at [row], [col] with the record [visited]
    leaves behind: the record [visited'] and the places [added], each with
    its cell.  The places added are new, infected and pairwise different;
    the start is recorded if it is an infected place; every infected
    neighbour of an added place is recorded; and the places added begin
    with the start and are chained. *)
Definition searchAdds (grid : Grid) (rows cols : nat) (row col : Z)
    (visited visited' : gset string)
    (added : list ((nat * nat) * GridCell)) : Prop :=
  (forall k, k ∈ visited'
             <-> k ∈ visited \/ In k (map (fun a => placeKey (fst a)) added))
  /\ List.NoDup (map fst added)
  /\ (forall a, In a added ->
        In (fst a) (places rows cols)
        /\ placeCell grid (fst a) = Some (snd a)
        /\ infected (snd a) = true
        /\ placeKey (fst a) ∉ visited)
  /\ (forall p, In p (places rows cols) ->
        Z.of_nat (fst p) = row -> Z.of_nat (snd p) = col ->
        infectedAt grid p = true -> placeKey p ∈ visited')
  /\ (forall a q, In a added -> adjacent (fst a) q -> In q (places rows cols) ->
        infectedAt grid q = true -> placeKey q ∈ visited')
  /\ (added = []
      \/ exists a rest,
           added = a :: rest
           /\ Z.of_nat (fst (fst a)) = row /\ Z.of_nat (snd (fst a)) = col
           /\ forall e, chainedFrom (e ++ [fst a]) (map fst rest)).

(** What the two loops have found after the places [done]: the record
    holds the places of the zones, which are infected places of the grid,
    no place twice; every infected place of [done] is recorded; and every
    zone is not empty, is chained, and holds every infected neighbour of
    its places. *)
Definition zonesFound (grid : Grid) (rows cols : nat) (done : list (nat * nat))
    (visited : gset string) (placed : list (list ((nat * nat) * GridCell)))
    : Prop :=
  (forall k, k ∈ visited
             <-> In k (map (fun a => placeKey (fst a)) (concat placed)))
  /\ List.NoDup (map fst (concat placed))
  /\ (forall a, In a (concat placed) ->
        In (fst a) (places rows cols)
        /\ placeCell grid (fst a) = Some (snd a)
        /\ infected (snd a) = true)
  /\ (forall p, In p done -> infectedAt grid p = true -> placeKey p ∈ visited)
  /\ List.Forall
       (fun zone =>
          zone <> []
          /\ chained (map fst zone)
          /\ forall a q, In a zone -> adjacent (fst a) q ->
                         In q (places rows cols) -> infectedAt grid q = true ->
                         In q (map fst zone))
       placed.

(** [averageZoneSize] is the string that [toFixed] returns, or the number
    [0] when there is no zone. *)
Inductive StrOrNum : Type :=
| Str (s : string)
| Num (n : number).

Record ZoneStatistics : Type := mkZoneStatistics {
  zoneCount : number;
  totalInfectedCells : number;
  averageZoneSize : StrOrNum;
  largestZone : number
}.

Definition sumZoneLengths (zones : list (list GridCell)) : number :=
  fold_left (fun sum zone => add sum (ofNat (length zone))) zones (ofZ 0).

Definition getZoneStatistics (zones : list (list GridCell)) : ZoneStatistics :=
  {| zoneCount := ofNat (length zones);
     totalInfectedCells := sumZoneLengths zones;
     averageZoneSize :=
       if (0 <? length zones)%nat
       then Str (toFixed 1 (div (sumZoneLengths zones) (ofNat (length zones))))
       else Num (ofZ 0);
     largestZone :=
       if (0 <? length zones)%nat
       then Math_max (map (fun zone => ofNat (length zone)) zones)
       else ofZ 0 |}.

End InfectedZones.

(** ** pathPlanner.js: the nearest-neighbour spray path *)

Module PathPlanner.
Import FieldGrid.

Record Waypoint : Type := mkWaypoint {
  cellId : string;
  position : LatLng;
  detectionCount : nat
}.

(** The result object; [startPoint] and [endPoint] are not set on the
    result for a grid without infection. *)
Record SprayPath : Type := mkSprayPath {
  waypoints : list Waypoint;
  totalDistance : number;
  estimatedTime : number;
  pathExists : bool;
  startPoint : option LatLng;
  endPoint : option LatLng
}.

Definition noPath : SprayPath :=
  {| waypoints := []; totalDistance := ofZ 0; estimatedTime := ofZ 0;
     pathExists := false; startPoint := None; endPoint := None |}.

Definition toWaypoint (cell : GridCell) : Waypoint :=
  {| cellId := id cell;
     position := center cell;
     detectionCount := length (detections cell) |}.

Section Planner.

Variables Math_sin Math_cos Math_sqrt : number -> number.
Variable Math_atan2 : number -> number -> number.
Variable Math_PI : number.

(** Haversine distance in metres. *)
Definition calculateDistance (p1 p2 : LatLng) : number :=
  let R := ofZ 6371000 in
  let lat1 := div (mul (lat p1) Math_PI) (ofZ 180) in
  let lat2 := div (mul (lat p2) Math_PI) (ofZ 180) in
  let deltaLat := div (mul (sub (lat p2) (lat p1)) Math_PI) (ofZ 180) in
  let deltaLng := div (mul (sub (lng p2) (lng p1)) Math_PI) (ofZ 180) in
  let a :=
    add (mul (Math_sin (div deltaLat (ofZ 2))) (Math_sin (div deltaLat (ofZ 2))))
        (mul (mul (mul (Math_cos lat1) (Math_cos lat2))
                  (Math_sin (div deltaLng (ofZ 2))))
             (Math_sin (div deltaLng (ofZ 2)))) in
  let c := mul (ofZ 2) (Math_atan2 (Math_sqrt a) (Math_sqrt (sub (ofZ 1) a))) in
  mul R c.

(** The [for (let cell of unvisited)] scan.  [unvisited] is the [Set] in
    insertion order.  The cells of a grid are distinct objects, so the
    [Set] made of the infected cells has one member for each of them; a
    member is known by its place [i] in the order, and [delete] removes
    that member and no other.  The state of the scan is [nearestCell]
    (with its place) and [shortestDistance]. *)
Fixpoint scanNearest (currentPosition : LatLng) (cells : list GridCell) (i : nat)
    (nearestCell : option (nat * GridCell)) (shortestDistance : number)
    : option (nat * GridCell) * number :=
  match cells with
  | [] => (nearestCell, shortestDistance)
  | cell :: rest =>
      let distance := calculateDistance currentPosition (center cell) in
      if lt distance shortestDistance
      then scanNearest currentPosition rest (S i) (Some (i, cell)) distance
      else scanNearest currentPosition rest (S i) nearestCell shortestDistance
  end.

(** The [while (unvisited.size > 0)] loop, one unfolding per iteration.
    An iteration that finds no cell leaves the state as it was; [fuel]
    bounds the number of iterations and [None] means it ran out. *)
Fixpoint visitAll (fuel : nat) (unvisited : list GridCell)
    (currentPosition : LatLng) (totalDistance : number) (path : list Waypoint)
    : option (list Waypoint * number * LatLng) :=
  match unvisited with
  | [] => Some (path, totalDistance, currentPosition)
  | _ :: _ =>
      match fuel with
      | O => None
      | S fuel' =>
          match scanNearest currentPosition unvisited 0 None PInf with
          | (Some (i, nearestCell), shortestDistance) =>
              visitAll fuel' (delete i unvisited) (center nearestCell)
                       (add totalDistance shortestDistance)
                       (path ++ [toWaypoint nearestCell])
          | (None, _) =>
              visitAll fuel' unvisited currentPosition totalDistance path
          end
      end
  end.

Definition generateSprayPath (fuel : nat) (grid : Grid) : option SprayPath :=
  let infectedCells := getInfectedCells grid in
  if (length infectedCells =? 0)%nat then Some noPath
  else
    let start := GpsSimulator.getFieldCenter in
    match visitAll fuel infectedCells start (ofZ 0) [] with
    | None => None
    | Some (path, total, currentPosition) =>
        let returnDistance := calculateDistance currentPosition start in
        let total' := add total returnDistance in
        let travelTime := div total' (ofZ 5) in
        let sprayTime := ofNat (length path * 3) in
        let estimated := add travelTime sprayTime in
        Some {| waypoints := path;
                totalDistance := parseFloat (toFixed 1 total');
                estimatedTime := Math_ceil estimated;
                pathExists := true;
                startPoint := Some start;
                endPoint := Some start |}
    end.

(** The planner compares every distance with [Infinity] first.  This
    test says that, from the launch point and from every cell of the
    list, the distance to every cell of the list is a number below
    [Infinity] (neither [NaN] nor [Infinity]). *)
Definition distancesFinite (cells : list GridCell) : bool :=
  forallb (fun p =>
             forallb (fun cell => lt (calculateDistance p (center cell)) PInf)
                     cells)
          (GpsSimulator.getFieldCenter :: map center cells).

(** The length of a route, the legs added one after the other: from
    [from] to the first stop, then from stop to stop. *)
Fixpoint routeDistance (from : LatLng) (stops : list LatLng) (acc : number)
    : number :=
  match stops with
  | [] => acc
  | p :: rest => routeDistance p rest (add acc (calculateDistance from p))
  end.

(** The round trip of a list of waypoints: launch point, the waypoints
    in order, launch point. *)
Definition roundTripDistance (path : list Waypoint) : number :=
  routeDistance GpsSimulator.getFieldCenter
                (map position path ++ [GpsSimulator.getFieldCenter])
                (ofZ 0).

(** A route takes the nearest stop first when each stop lies at a
    distance below [Infinity] from the stop before it, and no stop that
    comes later is nearer to that stop. *)
Fixpoint nearestFirst (from : LatLng) (stops : list LatLng) : bool :=
  match stops with
  | [] => true
  | p :: rest =>
      lt (calculateDistance from p) PInf
      && forallb (fun q => negb (lt (calculateDistance from q)
                                    (calculateDistance from p))) rest
      && nearestFirst p rest
  end.

(** [generateSweepPath]: the two nested loops push a waypoint for every
    infected cell, row after row and cell after cell. *)
Fixpoint sweepRow (cells : list GridCell) (infectedCells : list Waypoint)
    : list Waypoint :=
  match cells with
  | [] => infectedCells
  | cell :: rest =>
      sweepRow rest (if infected cell
                     then infectedCells ++ [toWaypoint cell]
                     else infectedCells)
  end.

Fixpoint sweepGrid (grid : Grid) (infectedCells : list Waypoint) : list Waypoint :=
  match grid with
  | [] => infectedCells
  | r :: rest => sweepGrid rest (sweepRow r infectedCells)
  end.

(** [for (let i = 0; i < infectedCells.length - 1; i++)]: the leg from
    each waypoint to the next one. *)
Fixpoint sweepLegs (infectedCells : list Waypoint) (totalDistance : number)
    : number :=
  match infectedCells with
  | [] => totalDistance
  | a :: rest =>
      match rest with
      | [] => totalDistance
      | b :: _ =>
          sweepLegs rest
            (add totalDistance (calculateDistance (position a) (position b)))
      end
  end.

Definition generateSweepPath (grid : Grid) : SprayPath :=
  let infectedCells := sweepGrid grid [] in
  match infectedCells with
  | [] => noPath
  | first :: _ =>
      let start := GpsSimulator.getFieldCenter in
      let toFirst := add (ofZ 0) (calculateDistance start (position first)) in
      let between := sweepLegs infectedCells toFirst in
      let total :=
        add between
            (calculateDistance (position (List.last infectedCells first)) start) in
      let travelTime := div total (ofZ 5) in
      let sprayTime := ofNat (length infectedCells * 3) in
      {| waypoints := infectedCells;
         totalDistance := parseFloat (toFixed 1 total);
         estimatedTime := Math_ceil (add travelTime sprayTime);
         pathExists := true;
         startPoint := Some start;
         endPoint := Some start |}
  end.

End Planner.

(** [getPathCoordinates]: the [[lat, lng]] pairs of the polyline.  Reading
    [lat] of a start or end point that is not set throws; [None] stands
    for that. *)
Definition getPathCoordinates (pathData : SprayPath)
    : option (list (number * number)) :=
  if negb (pathExists pathData) then Some []
  else
    match startPoint pathData, endPoint pathData with
    | Some s, Some e =>
        Some ([(lat s, lng s)]
              ++ map (fun waypoint => (lat (position waypoint),
                                       lng (position waypoint)))
                     (waypoints pathData)
              ++ [(lat e, lng e)])%list
    | _, _ => None
    end.

End PathPlanner.

(** ** What the signal extractor is handed *)

(** Sensor snapshot: the three readings that are consulted. *)
Module Sensor.
Record t : Type := mk {
  soil_moisture : option number;
  soil_temperature : option number;
  air_humidity : option number
}.
End Sensor.

(** Economic impact: [{ roi: { perApplication: { roiRatio } }, potentialLoss }]. *)
Module Economic.
Record PerApplication : Type := mkPerApplication { roiRatio : option number }.
Record Roi : Type := mkRoi { perApplication : option PerApplication }.
Record t : Type := mk { roi : option Roi; potentialLoss : option number }.
End Economic.

(** Fusion result: [{ diagnosis: { severity, refined_diagnosis, confidence } }]. *)
Module Fusion.
Record Diagnosis : Type := mkDiagnosis {
  severity : option string;
  refined_diagnosis : option string;
  confidence : option number
}.
Record t : Type := mk { diagnosis : option Diagnosis }.
End Fusion.

(** The signal snapshot.  [infectedCount] and [totalCells] exist only when
    grid statistics were given. *)
Module Signals.
Record t : Type := mk {
  infectionPercentage : number;
  roiRatio : number;
  potentialLoss : number;
  soilMoisture : number;
  soilTemperature : number;
  airHumidity : number;
  fusionSeverity : string;
  fusionDiagnosis : string;
  fusionConfidence : number;
  infectionGrowthRate : number;
  timestamp : string;
  infectedCount : option number;
  totalCells : option number
}.
End Signals.

(** ** decisionRules.js: the rule table *)

Inductive MessageSpec : Type :=
| Literal (s : string)
| Computed (f : Signals.t -> string).

Module Template.
Record t : Type := mk {
  type : string;
  title : string;
  message : MessageSpec;
  action : string;
  timeline : string;
  icon : string;
  estimatedLoss : option (Signals.t -> number);
  preventMistake : option string;
  savingsPotential : option string;
  benefit : option string
}.
End Template.

Module Rule.
Record t : Type := mk {
  id : string;
  name : string;
  priority : Z;
  condition : Signals.t -> bool;
  alert : Template.t
}.
End Rule.

Module DecisionRules.
Import Signals.

(** [signals.fusionDiagnosis && signals.fusionDiagnosis.toLowerCase().includes(word)] *)
Definition diagnosisMentions (word : string) (signals : Signals.t) : bool :=
  truthyStr (fusionDiagnosis signals)
  && includes word (toLowerCase (fusionDiagnosis signals)).

Definition RULE_001 : Rule.t :=
  {| Rule.id := "RULE_001";
     Rule.name := "Critical Infection Outbreak";
     Rule.priority := 1;
     Rule.condition := fun signals =>
       gt (infectionPercentage signals) (ofZ 25)
       && (String.eqb (fusionSeverity signals) "high"
           || String.eqb (fusionSeverity signals) "medium");
     Rule.alert :=
       {| Template.type := "CRITICAL";
          Template.title := "🚨 Disease Outbreak Detected";
          Template.message := Computed (fun signals =>
            toFixed 1 (infectionPercentage signals)
              ++ "% of field infected. Disease spreading rapidly.");
          Template.action := "Apply appropriate fungicide/pesticide within 24 hours. Target infected zones first.";
          Template.timeline := "0-24 hours";
          Template.icon := "🚨";
          Template.estimatedLoss := Some (fun signals => potentialLoss signals);
          Template.preventMistake := None;
          Template.savingsPotential := None;
          Template.benefit := None |} |}.

Definition RULE_003 : Rule.t :=
  {| Rule.id := "RULE_003";
     Rule.name := "Critical Drought Stress";
     Rule.priority := 1;
     Rule.condition := fun signals =>
       lt (soilMoisture signals) (ofZ 20) || diagnosisMentions "drought" signals;
     Rule.alert :=
       {| Template.type := "CRITICAL";
          Template.title := "💧 Severe Drought Detected";
          Template.message := Computed (fun signals =>
            "Soil moisture critically low (" ++ toFixed 1 (soilMoisture signals)
              ++ "%). Plants under severe stress.");
          Template.action := "Irrigate immediately. Do NOT apply chemicals until soil moisture restored to 40%+.";
          Template.timeline := "0-12 hours";
          Template.icon := "💧";
          Template.estimatedLoss := None;
          Template.preventMistake :=
            Some "Prevents misdiagnosis as disease - saves unnecessary chemical costs";
          Template.savingsPotential := None;
          Template.benefit := None |} |}.

Definition RULE_007 : Rule.t :=
  {| Rule.id := "RULE_007";
     Rule.name := "High Economic Risk";
     Rule.priority := 1;
     Rule.condition := fun signals =>
       gt (potentialLoss signals) (ofZ 100000)
       && gt (infectionPercentage signals) (ofZ 15);
     Rule.alert :=
       {| Template.type := "CRITICAL";
          Template.title := "💸 High Economic Risk";
          Template.message := Computed (fun signals =>
            "Potential loss: ₹" ++ toFixed 0 (div (potentialLoss signals) (ofZ 1000))
              ++ "k if untreated.");
          Template.action := "Immediate intervention economically justified. Apply treatment within 24 hours.";
          Template.timeline := "0-24 hours";
          Template.icon := "💸";
          Template.estimatedLoss := None;
          Template.preventMistake := None;
          Template.savingsPotential := None;
          Template.benefit := None |} |}.

Definition RULE_008 : Rule.t :=
  {| Rule.id := "RULE_008";
     Rule.name := "Rapid Infection Growth";
     Rule.priority := 1;
     Rule.condition := fun signals =>
       gt (infectionGrowthRate signals) (ofZ 2);
     Rule.alert :=
       {| Template.type := "CRITICAL";
          Template.title := "📈 Rapid Disease Spread";
          Template.message := Computed (fun signals =>
            "Infection spreading at " ++ toFixed 1 (infectionGrowthRate signals)
              ++ "% per hour.");
          Template.action := "Immediate containment required. Apply treatment to infected zones. Consider quarantine.";
          Template.timeline := "0-12 hours";
          Template.icon := "📈";
          Template.estimatedLoss := None;
          Template.preventMistake := None;
          Template.savingsPotential := None;
          Template.benefit := None |} |}.

Definition RULE_002 : Rule.t :=
  {| Rule.id := "RULE_002";
     Rule.name := "Moderate Infection Warning";
     Rule.priority := 2;
     Rule.condition := fun signals =>
       ge (infectionPercentage signals) (ofZ 10)
       && le (infectionPercentage signals) (ofZ 25)
       && negb (String.eqb (fusionSeverity signals) "none");
     Rule.alert :=
       {| Template.type := "WARNING";
          Template.title := "⚠️ Infection Spreading";
          Template.message := Computed (fun signals =>
            toFixed 1 (infectionPercentage signals)
              ++ "% of field affected. Monitor closely.");
          Template.action := "Prepare treatment equipment. Verify diagnosis. Schedule spray within 48 hours.";
          Template.timeline := "24-48 hours";
          Template.icon := "⚠️";
          Template.estimatedLoss := None;
          Template.preventMistake := None;
          Template.savingsPotential := None;
          Template.benefit := None |} |}.

Definition RULE_004 : Rule.t :=
  {| Rule.id := "RULE_004";
     Rule.name := "Heat Stress Alert";
     Rule.priority := 2;
     Rule.condition := fun signals =>
       gt (soilTemperature signals) (ofZ 35) || diagnosisMentions "heat" signals;
     Rule.alert :=
       {| Template.type := "WARNING";
          Template.title := "🌡️ Heat Stress Risk";
          Template.message := Computed (fun signals =>
            "Soil temperature " ++ toFixed 1 (soilTemperature signals)
              ++ "°C exceeds safe threshold (35°C).");
          Template.action := "Increase irrigation frequency. Monitor for wilting. Avoid spraying in peak heat.";
          Template.timeline := "12-24 hours";
          Template.icon := "🌡️";
          Template.estimatedLoss := None;
          Template.preventMistake := None;
          Template.savingsPotential := None;
          Template.benefit := None |} |}.

Definition RULE_005 : Rule.t :=
  {| Rule.id := "RULE_005";
     Rule.name := "Fungal Outbreak Risk";
     Rule.priority := 2;
     Rule.condition := fun signals =>
       (gt (airHumidity signals) (ofZ 85) && gt (soilMoisture signals) (ofZ 70))
       || diagnosisMentions "fungal" signals;
     Rule.alert :=
       {| Template.type := "WARNING";
          Template.title := "💨 High Fungal Risk";
          Template.message := Computed (fun signals =>
            "Humidity " ++ toFixed 0 (airHumidity signals)
              ++ "% + soil moisture " ++ toFixed 0 (soilMoisture signals)
              ++ "% creates ideal fungal conditions.");
          Template.action := "Apply preventive fungicide. Reduce irrigation frequency. Improve field drainage.";
          Template.timeline := "24-48 hours";
          Template.icon := "💨";
          Template.estimatedLoss := None;
          Template.preventMistake := None;
          Template.savingsPotential := None;
          Template.benefit := None |} |}.

Definition RULE_006 : Rule.t :=
  {| Rule.id := "RULE_006";
     Rule.name := "Low ROI Warning";
     Rule.priority := 2;
     Rule.condition := fun signals =>
       gt (roiRatio signals) (ofZ 0)
       && lt (roiRatio signals) (ofZ 2)
       && lt (infectionPercentage signals) (ofZ 15);
     Rule.alert :=
       {| Template.type := "WARNING";
          Template.title := "💰 Low ROI - Verify Before Action";
          Template.message := Computed (fun signals =>
            "ROI only " ++ toFixed 1 (roiRatio signals)
              ++ "×. Treatment cost may exceed benefit.");
          Template.action := "DO NOT spray yet. Monitor for 24 hours. Consider spot treatment in worst zones only.";
          Template.timeline := "Monitor 24-48h";
          Template.icon := "💰";
          Template.estimatedLoss := None;
          Template.preventMistake := None;
          Template.savingsPotential :=
            Some "Prevents unnecessary spending on marginal cases";
          Template.benefit := None |} |}.

Definition RULE_010 : Rule.t :=
  {| Rule.id := "RULE_010";
     Rule.name := "Early Detection - Preventive Action";
     Rule.priority := 4;
     Rule.condition := fun signals =>
       ge (infectionPercentage signals) (ofZ 3)
       && lt (infectionPercentage signals) (ofZ 10)
       && gt (fusionConfidence signals) (Fin (7 # 10));
     Rule.alert :=
       {| Template.type := "INFO";
          Template.title := "🛡️ Early Detection - Preventive Opportunity";
          Template.message := Computed (fun signals =>
            toFixed 1 (infectionPercentage signals)
              ++ "% infection detected early. Ideal time for low-cost prevention.");
          Template.action := "Consider spot treatment in affected zones only. Continue monitoring unaffected areas.";
          Template.timeline := "48-72 hours";
          Template.icon := "🛡️";
          Template.estimatedLoss := None;
          Template.preventMistake := None;
          Template.savingsPotential := None;
          Template.benefit :=
            Some "Early intervention prevents escalation and reduces treatment costs by 60%" |} |}.

Definition RULE_009 : Rule.t :=
  {| Rule.id := "RULE_009";
     Rule.name := "System Healthy";
     Rule.priority := 5;
     Rule.condition := fun signals =>
       lt (infectionPercentage signals) (ofZ 5)
       && ge (soilMoisture signals) (ofZ 40) && le (soilMoisture signals) (ofZ 70)
       && ge (soilTemperature signals) (ofZ 20) && le (soilTemperature signals) (ofZ 32)
       && diagnosisMentions "healthy" signals;
     Rule.alert :=
       {| Template.type := "INFO";
          Template.title := "✅ Field Health Excellent";
          Template.message :=
            Literal "All environmental and disease metrics within optimal range.";
          Template.action := "Continue current care regimen. Routine monitoring sufficient.";
          Template.timeline := "N/A";
          Template.icon := "✅";
          Template.estimatedLoss := None;
          Template.preventMistake := None;
          Template.savingsPotential := None;
          Template.benefit := None |} |}.

Definition DECISION_RULES : list Rule.t :=
  [ RULE_001; RULE_003; RULE_007; RULE_008;
    RULE_002; RULE_004; RULE_005; RULE_006;
    RULE_010; RULE_009 ].

End DecisionRules.

(** ** alertRuleEngine.js: signals, alerts, conflicts, debouncing *)

Module Alert.
Record Metadata : Type := mkMetadata {
  estimatedLoss : option number;
  preventMistake : option string;
  savingsPotential : option string;
  benefit : option string
}.
Record t : Type := mk {
  id : string;
  ruleId : string;
  ruleName : string;
  priority : Z;
  type : string;
  title : string;
  message : string;
  action : string;
  timeline : string;
  icon : string;
  timestamp : string;
  signals : Signals.t;
  metadata : Metadata
}.
End Alert.

Module AlertRuleEngine.

(** [extractSignals].  [detections] is accepted and not consulted;
    [isoNow] is the reading of [new Date().toISOString()].  Every property
    of the snapshot is written at most once after its default, so the
    snapshot is given property by property. *)
Definition extractSignals
    (detections : list InfectedZones.Detection)
    (gridStats : option (gmap string number))
    (economicImpact : option Economic.t)
    (fusionResults : option (list Fusion.t))
    (sensorData : option Sensor.t)
    (isoNow : string) : Signals.t :=
  let infectionPercentage :=
    match gridStats with
    | Some stats => orDefault (stats !! "infectionPercentage") (ofZ 0)
    | None => ofZ 0
    end in
  let economicRoi := economicImpact ≫= fun e => Economic.roi e ≫= fun r => Some (e, r) in
  let latestDiagnosis :=
    fusionResults ≫= fun results =>
      if (0 <? length results)%nat
      then last results ≫= Fusion.diagnosis
      else None in
  {| Signals.infectionPercentage := infectionPercentage;
     Signals.roiRatio :=
       match economicRoi with
       | Some (_, r) =>
           orDefault (Economic.perApplication r ≫= Economic.roiRatio) (ofZ 0)
       | None => ofZ 0
       end;
     Signals.potentialLoss :=
       match economicRoi with
       | Some (e, _) => orDefault (Economic.potentialLoss e) (ofZ 0)
       | None => ofZ 0
       end;
     Signals.soilMoisture :=
       match sensorData with
       | Some s => orDefault (Sensor.soil_moisture s) (ofZ 50)
       | None => ofZ 50
       end;
     Signals.soilTemperature :=
       match sensorData with
       | Some s => orDefault (Sensor.soil_temperature s) (ofZ 25)
       | None => ofZ 25
       end;
     Signals.airHumidity :=
       match sensorData with
       | Some s => orDefault (Sensor.air_humidity s) (ofZ 60)
       | None => ofZ 60
       end;
     Signals.fusionSeverity :=
       match latestDiagnosis with
       | Some d => orDefaultStr (Fusion.severity d) "none"
       | None => "none"
       end;
     Signals.fusionDiagnosis :=
       match latestDiagnosis with
       | Some d => orDefaultStr (Fusion.refined_diagnosis d) "Unknown"
       | None => "Unknown"
       end;
     Signals.fusionConfidence :=
       match latestDiagnosis with
       | Some d => orDefault (Fusion.confidence d) (ofZ 0)
       | None => ofZ 0
       end;
     Signals.infectionGrowthRate :=
       if gt infectionPercentage (ofZ 15)
       then mul infectionPercentage (Fin (15 # 100))
       else if gt infectionPercentage (ofZ 5)
            then mul infectionPercentage (Fin (1 # 10))
            else ofZ 0;
     Signals.timestamp := isoNow;
     Signals.infectedCount :=
       match gridStats with
       | Some stats => Some (orDefault (stats !! "infectedCount") (ofZ 0))
       | None => None
       end;
     Signals.totalCells :=
       match gridStats with
       | Some stats => Some (orDefault (stats !! "totalCells") (ofZ 100))
       | None => None
       end |}.

(** [text || null] for an optional text of a rule. *)
Definition orNull (text : option string) : option string :=
  match text with
  | Some s => if truthyStr s then Some s else None
  | None => None
  end.

(** The alert that a triggered rule creates.  [now] is the reading of
    [Date.now()] and [isoNow] that of [new Date().toISOString()]. *)
Definition createAlert (rule : Rule.t) (signals : Signals.t)
    (now : Z) (isoNow : string) : Alert.t :=
  let template := Rule.alert rule in
  {| Alert.id := Rule.id rule ++ "_" ++ dec now;
     Alert.ruleId := Rule.id rule;
     Alert.ruleName := Rule.name rule;
     Alert.priority := Rule.priority rule;
     Alert.type := Template.type template;
     Alert.title := Template.title template;
     Alert.message :=
       match Template.message template with
       | Computed f => f signals
       | Literal s => s
       end;
     Alert.action := Template.action template;
     Alert.timeline := Template.timeline template;
     Alert.icon := Template.icon template;
     Alert.timestamp := isoNow;
     Alert.signals := signals;
     Alert.metadata :=
       {| Alert.estimatedLoss :=
            option_map (fun f => f signals) (Template.estimatedLoss template);
          Alert.preventMistake := orNull (Template.preventMistake template);
          Alert.savingsPotential := orNull (Template.savingsPotential template);
          Alert.benefit := orNull (Template.benefit template) |} |}.

(** [triggeredAlerts.sort((a, b) => a.priority - b.priority)]: the sort
    is stable, so the result is the one of any stable sort by priority. *)
Fixpoint insertByPriority (a : Alert.t) (sorted : list Alert.t) : list Alert.t :=
  match sorted with
  | [] => [a]
  | b :: rest =>
      if (Alert.priority a <=? Alert.priority b)%Z
      then a :: sorted
      else b :: insertByPriority a rest
  end.

Definition sortByPriority (alerts : list Alert.t) : list Alert.t :=
  foldr insertByPriority [] alerts.

(** [evaluateAlerts] over a rule table.  On a snapshot of the record type
    above no condition and no message throws, so the [catch] branch of the
    loop body is never entered.  One clock reading serves the whole pass. *)
Definition evaluateRules (rules : list Rule.t) (signals : Signals.t)
    (now : Z) (isoNow : string) : list Alert.t :=
  let triggeredAlerts :=
    flat_map (fun rule =>
                if Rule.condition rule signals
                then [createAlert rule signals now isoNow]
                else [])
             rules in
  sortByPriority triggeredAlerts.

Definition evaluateAlerts (signals : Signals.t) (now : Z) (isoNow : string)
    : list Alert.t :=
  evaluateRules DecisionRules.DECISION_RULES signals now isoNow.

(** [resolveConflicts]: the four buckets, in the order of their keys. *)
Record Categories : Type := mkCategories {
  disease : list Alert.t;
  environmental : list Alert.t;
  economic : list Alert.t;
  system : list Alert.t
}.

Definition noCategories : Categories :=
  {| disease := []; environmental := []; economic := []; system := [] |}.

Definition isDisease (alert : Alert.t) : bool :=
  includes "Disease" (Alert.title alert) || includes "Infection" (Alert.title alert).

Definition isEnvironmental (alert : Alert.t) : bool :=
  includes "Drought" (Alert.title alert) || includes "Heat" (Alert.title alert)
  || includes "Humidity" (Alert.title alert).

Definition isEconomic (alert : Alert.t) : bool :=
  includes "ROI" (Alert.title alert) || includes "Economic" (Alert.title alert).

Definition pushCategory (categories : Categories) (alert : Alert.t) : Categories :=
  if isDisease alert then
    {| disease := disease categories ++ [alert];
       environmental := environmental categories;
       economic := economic categories;
       system := system categories |}
  else if isEnvironmental alert then
    {| disease := disease categories;
       environmental := environmental categories ++ [alert];
       economic := economic categories;
       system := system categories |}
  else if isEconomic alert then
    {| disease := disease categories;
       environmental := environmental categories;
       economic := economic categories ++ [alert];
       system := system categories |}
  else
    {| disease := disease categories;
       environmental := environmental categories;
       economic := economic categories;
       system := system categories ++ [alert] |}.

(** The bucket that [pushCategory] chooses for an alert. *)
Inductive Category : Type := Disease | Environmental | Economical | System.

Definition categoryOf (alert : Alert.t) : Category :=
  if isDisease alert then Disease
  else if isEnvironmental alert then Environmental
  else if isEconomic alert then Economical
  else System.

Definition Category_eqb (c1 c2 : Category) : bool :=
  match c1, c2 with
  | Disease, Disease | Environmental, Environmental
  | Economical, Economical | System, System => true
  | _, _ => false
  end.

Definition inCategory (c : Category) (alert : Alert.t) : bool :=
  Category_eqb (categoryOf alert) c.

(** The alerts of a list that [pushCategory] puts into bucket [c]. *)
Definition bucket (c : Category) (alerts : list Alert.t) : list Alert.t :=
  List.filter (inCategory c) alerts.

(** Ascending priority numbers, the order in which [evaluateAlerts]
    returns its alerts. *)
Definition byPriority (a b : Alert.t) : Prop :=
  (Alert.priority a <= Alert.priority b)%Z.

Definition firstOf (categoryAlerts : list Alert.t) : list Alert.t :=
  match categoryAlerts with
  | [] => []
  | first :: _ => [first]
  end.

Definition resolveConflicts (alerts : list Alert.t) : list Alert.t :=
  if (length alerts <=? 1)%nat then alerts
  else
    let categories := fold_left pushCategory alerts noCategories in
    flat_map firstOf
      [ disease categories; environmental categories;
        economic categories; system categories ].

(** [AlertDebouncer]: the map of last emissions and the window. *)
Module AlertDebouncer.

Record t : Type := mk {
  recentAlerts : gmap string Z;
  windowMs : Z
}.

Definition create (windowMs : Z) : t :=
  {| recentAlerts := ∅; windowMs := windowMs |}.

(** [new AlertDebouncer()]: the window defaults to 30 seconds. *)
Definition default : t := create 30000.

Definition key (alert : Alert.t) : string :=
  Alert.ruleId alert ++ "_" ++ Alert.type alert.

(** [now] is the reading of [Date.now()].  [!lastShown] holds when the key
    has no entry and also when the entry is [0]. *)
Definition shouldShowAlert (d : t) (now : Z) (alert : Alert.t) : bool * t :=
  let lastShown := recentAlerts d !! key alert in
  let expired :=
    match lastShown with
    | None => true
    | Some shown => (shown =? 0)%Z || (windowMs d <? now - shown)%Z
    end in
  if expired
  then (true, {| recentAlerts := <[key alert := now]> (recentAlerts d);
                 windowMs := windowMs d |})
  else (false, d).

Definition clear (d : t) : t :=
  {| recentAlerts := ∅; windowMs := windowMs d |}.

End AlertDebouncer.

(** [alertDebouncer], the instance that the module exports. *)
Definition alertDebouncer : AlertDebouncer.t := AlertDebouncer.default.

End AlertRuleEngine.

(** ** economicConfig.js and economicCalculator.js *)

Module EconomicConfig.

(** The entries of [ECONOMIC_CONFIG] that the calculator reads. *)
Definition totalAreaHectares : number := Fin 2.
Definition cellAreaHectares : number := Fin (2 # 100).
Definition yieldPerHectare : number := ofZ 50000.
Definition pricePerKg : number := ofZ 25.
Definition lossPercentageUntreated : number := ofZ 40.
Definition lossPercentageTreated : number := ofZ 8.
Definition costPerHectare : number := ofZ 3000.
Definition fixedCostPerMission : number := ofZ 500.
Definition applicationsPerSeason : number := ofZ 3.
Definition chemicalPerHectare : number := ofZ 15.

End EconomicConfig.

Module EconomicCalculator.
Import EconomicConfig.

(** A property that is read for arithmetic: [undefined] becomes [NaN]. *)
Definition operand (v : option number) : number :=
  match v with
  | Some n => n
  | None => NaN
  end.

Module Areas.
Record t : Type := mk {
  totalArea : number;
  infectedArea : number;
  healthyArea : number;
  infectionPercentage : number;
  infectedCells : option number;
  totalCells : option number
}.
End Areas.

Definition calculateAreas (gridStats : gmap string number) : Areas.t :=
  let totalCells := gridStats !! "totalCells" in
  let infectedCount := gridStats !! "infectedCount" in
  let totalArea := totalAreaHectares in
  let infectedArea := mul (operand infectedCount) cellAreaHectares in
  let healthyArea := sub totalArea infectedArea in
  let infectionPercentage :=
    mul (div (operand infectedCount) (operand totalCells)) (ofZ 100) in
  {| Areas.totalArea := totalArea;
     Areas.infectedArea := infectedArea;
     Areas.healthyArea := healthyArea;
     Areas.infectionPercentage := infectionPercentage;
     Areas.infectedCells := infectedCount;
     Areas.totalCells := totalCells |}.

Module YieldData.
Record t : Type := mk {
  perfectYield : number;
  yieldLossUntreated : number;
  totalYieldUntreated : number;
  yieldLossTreated : number;
  totalYieldTreated : number;
  yieldSavedByTreatment : number;
  healthyYield : number;
  potentialInfectedYield : number
}.
End YieldData.

Definition calculateYieldLoss (areas : Areas.t) : YieldData.t :=
  let healthyYield := mul (Areas.healthyArea areas) yieldPerHectare in
  let potentialInfectedYield := mul (Areas.infectedArea areas) yieldPerHectare in
  let yieldLossUntreated :=
    mul potentialInfectedYield (div lossPercentageUntreated (ofZ 100)) in
  let actualYieldUntreated := sub potentialInfectedYield yieldLossUntreated in
  let totalYieldUntreated := add healthyYield actualYieldUntreated in
  let yieldLossTreated :=
    mul potentialInfectedYield (div lossPercentageTreated (ofZ 100)) in
  let actualYieldTreated := sub potentialInfectedYield yieldLossTreated in
  let totalYieldTreated := add healthyYield actualYieldTreated in
  let perfectYield := mul (Areas.totalArea areas) yieldPerHectare in
  let yieldSavedByTreatment := sub totalYieldTreated totalYieldUntreated in
  {| YieldData.perfectYield := perfectYield;
     YieldData.yieldLossUntreated := yieldLossUntreated;
     YieldData.totalYieldUntreated := totalYieldUntreated;
     YieldData.yieldLossTreated := yieldLossTreated;
     YieldData.totalYieldTreated := totalYieldTreated;
     YieldData.yieldSavedByTreatment := yieldSavedByTreatment;
     YieldData.healthyYield := healthyYield;
     YieldData.potentialInfectedYield := potentialInfectedYield |}.

Module FinancialData.
Record t : Type := mk {
  perfectRevenue : number;
  revenueUntreated : number;
  revenueTreated : number;
  financialLossUntreated : number;
  financialLossTreated : number;
  moneySavedByTreatment : number
}.
End FinancialData.

Definition calculateFinancialLoss (yieldData : YieldData.t) : FinancialData.t :=
  let perfectRevenue := mul (YieldData.perfectYield yieldData) pricePerKg in
  let revenueUntreated := mul (YieldData.totalYieldUntreated yieldData) pricePerKg in
  let revenueTreated := mul (YieldData.totalYieldTreated yieldData) pricePerKg in
  let financialLossUntreated := sub perfectRevenue revenueUntreated in
  let financialLossTreated := sub perfectRevenue revenueTreated in
  let moneySavedByTreatment := sub revenueUntreated revenueTreated in
  {| FinancialData.perfectRevenue := perfectRevenue;
     FinancialData.revenueUntreated := revenueUntreated;
     FinancialData.revenueTreated := revenueTreated;
     FinancialData.financialLossUntreated := financialLossUntreated;
     FinancialData.financialLossTreated := financialLossTreated;
     FinancialData.moneySavedByTreatment := moneySavedByTreatment |}.

Module Spraying.
Record t : Type := mk {
  fixedCost : number;
  variableCost : number;
  totalCost : number;
  chemicalUsage : number
}.
End Spraying.

Module Savings.
Record t : Type := mk {
  costSavings : number;
  savingsPercentage : number;
  chemicalSaved : number;
  chemicalSavingsPercentage : number
}.
End Savings.

Module InterventionCosts.
Record t : Type := mk {
  precision : Spraying.t;
  blanket : Spraying.t;
  savings : Savings.t
}.
End InterventionCosts.

Definition calculateInterventionCosts (areas : Areas.t) : InterventionCosts.t :=
  let precisionVariableCost := mul (Areas.infectedArea areas) costPerHectare in
  let precisionTotalCost := add fixedCostPerMission precisionVariableCost in
  let blanketVariableCost := mul (Areas.totalArea areas) costPerHectare in
  let blanketTotalCost := add fixedCostPerMission blanketVariableCost in
  let costSavings := sub blanketTotalCost precisionTotalCost in
  let savingsPercentage := mul (div costSavings blanketTotalCost) (ofZ 100) in
  let precisionChemicalUsage := mul (Areas.infectedArea areas) chemicalPerHectare in
  let blanketChemicalUsage := mul (Areas.totalArea areas) chemicalPerHectare in
  let chemicalSaved := sub blanketChemicalUsage precisionChemicalUsage in
  let chemicalSavingsPercentage :=
    mul (div chemicalSaved blanketChemicalUsage) (ofZ 100) in
  {| InterventionCosts.precision :=
       {| Spraying.fixedCost := fixedCostPerMission;
          Spraying.variableCost := precisionVariableCost;
          Spraying.totalCost := precisionTotalCost;
          Spraying.chemicalUsage := precisionChemicalUsage |};
     InterventionCosts.blanket :=
       {| Spraying.fixedCost := fixedCostPerMission;
          Spraying.variableCost := blanketVariableCost;
          Spraying.totalCost := blanketTotalCost;
          Spraying.chemicalUsage := blanketChemicalUsage |};
     InterventionCosts.savings :=
       {| Savings.costSavings := costSavings;
          Savings.savingsPercentage := savingsPercentage;
          Savings.chemicalSaved := chemicalSaved;
          Savings.chemicalSavingsPercentage := chemicalSavingsPercentage |} |}.

Module PerApplication.
Record t : Type := mk {
  systemCost : number;
  yieldProtectionValue : number;
  chemicalCostSavings : number;
  totalBenefit : number;
  netProfit : number;
  roiMultiplier : number;
  roiPercentage : number
}.
End PerApplication.

Module Seasonal.
Record t : Type := mk {
  applications : number;
  totalCost : number;
  totalBenefit : number;
  netProfit : number;
  roiMultiplier : number;
  roiPercentage : number
}.
End Seasonal.

Module BreakEven.
Record t : Type := mk {
  applications : number;
  message : string
}.
End BreakEven.

Module Roi.
Record t : Type := mk {
  perApplication : PerApplication.t;
  seasonal : Seasonal.t;
  breakEven : BreakEven.t
}.
End Roi.

Module Impact.
(** The result of [calculateEconomicImpact]: the parts are [null] and
    there is no [timestamp] when nothing is infected. *)
Record t : Type := mk {
  hasInfection : bool;
  message : string;
  areas : option Areas.t;
  yieldData : option YieldData.t;
  financialData : option FinancialData.t;
  interventionCosts : option InterventionCosts.t;
  roi : option Roi.t;
  timestamp : option string
}.
End Impact.

Section Calculator.

(** The digits of a number that is not whole, see [JS.toString]. *)
Variable fraction : Q -> string.

Definition calculateROI (financialData : FinancialData.t)
    (interventionCosts : InterventionCosts.t) (yieldData : YieldData.t) : Roi.t :=
  let precision := InterventionCosts.precision interventionCosts in
  let savings := InterventionCosts.savings interventionCosts in
  let systemCost := Spraying.totalCost precision in
  let yieldProtectionValue :=
    mul (YieldData.yieldSavedByTreatment yieldData) pricePerKg in
  let chemicalCostSavings := Savings.costSavings savings in
  let totalBenefit := add yieldProtectionValue chemicalCostSavings in
  let netProfit := sub totalBenefit systemCost in
  let roiMultiplier := div totalBenefit systemCost in
  let roiPercentage := mul (div (sub totalBenefit systemCost) systemCost) (ofZ 100) in
  let seasonalSystemCost := mul systemCost applicationsPerSeason in
  let seasonalBenefit := mul totalBenefit applicationsPerSeason in
  let seasonalNetProfit := sub seasonalBenefit seasonalSystemCost in
  let breakEvenApplications := div systemCost totalBenefit in
  {| Roi.perApplication :=
       {| PerApplication.systemCost := systemCost;
          PerApplication.yieldProtectionValue := yieldProtectionValue;
          PerApplication.chemicalCostSavings := chemicalCostSavings;
          PerApplication.totalBenefit := totalBenefit;
          PerApplication.netProfit := netProfit;
          PerApplication.roiMultiplier := roiMultiplier;
          PerApplication.roiPercentage := roiPercentage |};
     Roi.seasonal :=
       {| Seasonal.applications := applicationsPerSeason;
          Seasonal.totalCost := seasonalSystemCost;
          Seasonal.totalBenefit := seasonalBenefit;
          Seasonal.netProfit := seasonalNetProfit;
          Seasonal.roiMultiplier := div seasonalBenefit seasonalSystemCost;
          Seasonal.roiPercentage :=
            mul (div (sub seasonalBenefit seasonalSystemCost) seasonalSystemCost)
                (ofZ 100) |};
     Roi.breakEven :=
       {| BreakEven.applications := Math_ceil breakEvenApplications;
          BreakEven.message :=
            if lt breakEvenApplications (ofZ 1)
            then "Profitable from first application"
            else "Break-even after "
                   ++ toString fraction (Math_ceil breakEvenApplications)
                   ++ " applications" |} |}.

(** [`${areas.infectedCells}`] prints [undefined] for a count that the
    statistics do not have. *)
Definition countText (count : option number) : string :=
  match count with
  | Some n => toString fraction n
  | None => "undefined"
  end.

(** The result for a field without infection. *)
Definition noInfection : Impact.t :=
  {| Impact.hasInfection := false;
     Impact.message := "No disease detected - field is healthy! 🎉";
     Impact.areas := None;
     Impact.yieldData := None;
     Impact.financialData := None;
     Impact.interventionCosts := None;
     Impact.roi := None;
     Impact.timestamp := None |}.

(** [calculateEconomicImpact]; [isoNow] is the reading of
    [new Date().toISOString()].  The warning that is logged for a field
    infected everywhere changes nothing of the result. *)
Definition calculateEconomicImpact (gridStats : option (gmap string number))
    (isoNow : string) : Impact.t :=
  match gridStats with
  | None => noInfection
  | Some stats =>
      if match stats !! "infectedCount" with
         | Some infectedCount => strictEq infectedCount (ofZ 0)
         | None => false
         end
      then noInfection
      else
        let areas := calculateAreas stats in
        let yieldData := calculateYieldLoss areas in
        let financialData := calculateFinancialLoss yieldData in
        let interventionCosts := calculateInterventionCosts areas in
        let roi := calculateROI financialData interventionCosts yieldData in
        {| Impact.hasInfection := true;
           Impact.message :=
             countText (Areas.infectedCells areas) ++ " zones infected ("
               ++ toFixed 1 (Areas.infectionPercentage areas) ++ "% of field)";
           Impact.areas := Some areas;
           Impact.yieldData := Some yieldData;
           Impact.financialData := Some financialData;
           Impact.interventionCosts := Some interventionCosts;
           Impact.roi := Some roi;
           Impact.timestamp := Some isoNow |}
  end.

End Calculator.

(** The objects that the calculator returns, as their readers see them:
    every object literal with the property names it is written with. *)
#[warnings="-register-all"] Inductive value : Type :=
| Undefined
| Null
| Bool (b : bool)
| Num (n : number)
| Str (s : string)
| Obj (props : gmap string value).

Definition optional (v : option number) : value :=
  match v with
  | Some n => Num n
  | None => Undefined
  end.

Definition nullable {A : Type} (object : A -> value) (v : option A) : value :=
  match v with
  | Some a => object a
  | None => Null
  end.

Definition areasObject (a : Areas.t) : value :=
  Obj (<["totalArea" := Num (Areas.totalArea a)]> (
       <["infectedArea" := Num (Areas.infectedArea a)]> (
       <["healthyArea" := Num (Areas.healthyArea a)]> (
       <["infectionPercentage" := Num (Areas.infectionPercentage a)]> (
       <["infectedCells" := optional (Areas.infectedCells a)]> (
       <["totalCells" := optional (Areas.totalCells a)]> ∅)))))).

Definition yieldObject (y : YieldData.t) : value :=
  Obj (<["perfectYield" := Num (YieldData.perfectYield y)]> (
       <["yieldLossUntreated" := Num (YieldData.yieldLossUntreated y)]> (
       <["totalYieldUntreated" := Num (YieldData.totalYieldUntreated y)]> (
       <["yieldLossTreated" := Num (YieldData.yieldLossTreated y)]> (
       <["totalYieldTreated" := Num (YieldData.totalYieldTreated y)]> (
       <["yieldSavedByTreatment" := Num (YieldData.yieldSavedByTreatment y)]> (
       <["healthyYield" := Num (YieldData.healthyYield y)]> (
       <["potentialInfectedYield" := Num (YieldData.potentialInfectedYield y)]>
       ∅)))))))).

Definition financialObject (f : FinancialData.t) : value :=
  Obj (<["perfectRevenue" := Num (FinancialData.perfectRevenue f)]> (
       <["revenueUntreated" := Num (FinancialData.revenueUntreated f)]> (
       <["revenueTreated" := Num (FinancialData.revenueTreated f)]> (
       <["financialLossUntreated" := Num (FinancialData.financialLossUntreated f)]> (
       <["financialLossTreated" := Num (FinancialData.financialLossTreated f)]> (
       <["moneySavedByTreatment" := Num (FinancialData.moneySavedByTreatment f)]>
       ∅)))))).

Definition sprayingObject (c : Spraying.t) : value :=
  Obj (<["fixedCost" := Num (Spraying.fixedCost c)]> (
       <["variableCost" := Num (Spraying.variableCost c)]> (
       <["totalCost" := Num (Spraying.totalCost c)]> (
       <["chemicalUsage" := Num (Spraying.chemicalUsage c)]> ∅)))).

Definition savingsObject (v : Savings.t) : value :=
  Obj (<["costSavings" := Num (Savings.costSavings v)]> (
       <["savingsPercentage" := Num (Savings.savingsPercentage v)]> (
       <["chemicalSaved" := Num (Savings.chemicalSaved v)]> (
       <["chemicalSavingsPercentage" := Num (Savings.chemicalSavingsPercentage v)]>
       ∅)))).

Definition costsObject (c : InterventionCosts.t) : value :=
  Obj (<["precision" := sprayingObject (InterventionCosts.precision c)]> (
       <["blanket" := sprayingObject (InterventionCosts.blanket c)]> (
       <["savings" := savingsObject (InterventionCosts.savings c)]> ∅))).

Definition perApplicationObject (p : PerApplication.t) : value :=
  Obj (<["systemCost" := Num (PerApplication.systemCost p)]> (
       <["yieldProtectionValue" := Num (PerApplication.yieldProtectionValue p)]> (
       <["chemicalCostSavings" := Num (PerApplication.chemicalCostSavings p)]> (
       <["totalBenefit" := Num (PerApplication.totalBenefit p)]> (
       <["netProfit" := Num (PerApplication.netProfit p)]> (
       <["roiMultiplier" := Num (PerApplication.roiMultiplier p)]> (
       <["roiPercentage" := Num (PerApplication.roiPercentage p)]> ∅))))))).

Definition seasonalObject (p : Seasonal.t) : value :=
  Obj (<["applications" := Num (Seasonal.applications p)]> (
       <["totalCost" := Num (Seasonal.totalCost p)]> (
       <["totalBenefit" := Num (Seasonal.totalBenefit p)]> (
       <["netProfit" := Num (Seasonal.netProfit p)]> (
       <["roiMultiplier" := Num (Seasonal.roiMultiplier p)]> (
       <["roiPercentage" := Num (Seasonal.roiPercentage p)]> ∅)))))).

Definition breakEvenObject (b : BreakEven.t) : value :=
  Obj (<["applications" := Num (BreakEven.applications b)]> (
       <["message" := Str (BreakEven.message b)]> ∅)).

Definition roiObject (r : Roi.t) : value :=
  Obj (<["perApplication" := perApplicationObject (Roi.perApplication r)]> (
       <["seasonal" := seasonalObject (Roi.seasonal r)]> (
       <["breakEven" := breakEvenObject (Roi.breakEven r)]> ∅))).

Definition impactObject (i : Impact.t) : value :=
  let props : gmap string value :=
    <["hasInfection" := Bool (Impact.hasInfection i)]> (
    <["message" := Str (Impact.message i)]> (
    <["areas" := nullable areasObject (Impact.areas i)]> (
    <["yieldData" := nullable yieldObject (Impact.yieldData i)]> (
    <["financialData" := nullable financialObject (Impact.financialData i)]> (
    <["interventionCosts" := nullable costsObject (Impact.interventionCosts i)]> (
    <["roi" := nullable roiObject (Impact.roi i)]> ∅)))))) in
  Obj match Impact.timestamp i with
      | Some t => <["timestamp" := Str t]> props
      | None => props
      end.

(** What [extractSignals] reads of the object that it is handed as
    [economicImpact]: [null] is no object; a property is read by its name
    and is [undefined] when the object does not have it.  (On the objects
    above a property holds an object, a number, a string, a boolean or
    [null]; only objects and numbers are read further.) *)
Definition numberAt (name : string) (props : gmap string value) : option number :=
  match props !! name with
  | Some (Num n) => Some n
  | _ => None
  end.

Definition objectAt (name : string) (props : gmap string value)
    : option (gmap string value) :=
  match props !! name with
  | Some (Obj o) => Some o
  | _ => None
  end.

Definition asEconomicImpact (v : value) : option Economic.t :=
  match v with
  | Obj props =>
      Some {| Economic.roi :=
                option_map
                  (fun roi =>
                     {| Economic.perApplication :=
                          option_map
                            (fun perApplication =>
                               {| Economic.roiRatio :=
                                    numberAt "roiRatio" perApplication |})
                            (objectAt "perApplication" roi) |})
                  (objectAt "roi" props);
              Economic.potentialLoss := numberAt "potentialLoss" props |}
  | _ => None
  end.

(** [calculateFusionEnhancedROI].  The diagnoses are counted by the
    words of their lower-case text; a result without diagnosis counts as
    the empty text. *)
Module DiagnosisCounts.
Record t : Type := mk {
  disease : nat;
  environmental : nat;
  preventive : nat;
  healthy : nat
}.
End DiagnosisCounts.

Definition noCounts : DiagnosisCounts.t :=
  {| DiagnosisCounts.disease := 0; DiagnosisCounts.environmental := 0;
     DiagnosisCounts.preventive := 0; DiagnosisCounts.healthy := 0 |}.

Definition countDiagnosis (counts : DiagnosisCounts.t) (result : Fusion.t)
    : DiagnosisCounts.t :=
  let diagnosis :=
    match Fusion.diagnosis result ≫= Fusion.refined_diagnosis with
    | Some text => toLowerCase text
    | None => ""
    end in
  if includes "fungal" diagnosis || includes "infection" diagnosis then
    {| DiagnosisCounts.disease := S (DiagnosisCounts.disease counts);
       DiagnosisCounts.environmental := DiagnosisCounts.environmental counts;
       DiagnosisCounts.preventive := DiagnosisCounts.preventive counts;
       DiagnosisCounts.healthy := DiagnosisCounts.healthy counts |}
  else if includes "drought" diagnosis || includes "heat" diagnosis
          || includes "cold" diagnosis then
    {| DiagnosisCounts.disease := DiagnosisCounts.disease counts;
       DiagnosisCounts.environmental := S (DiagnosisCounts.environmental counts);
       DiagnosisCounts.preventive := DiagnosisCounts.preventive counts;
       DiagnosisCounts.healthy := DiagnosisCounts.healthy counts |}
  else if includes "risk" diagnosis then
    {| DiagnosisCounts.disease := DiagnosisCounts.disease counts;
       DiagnosisCounts.environmental := DiagnosisCounts.environmental counts;
       DiagnosisCounts.preventive := S (DiagnosisCounts.preventive counts);
       DiagnosisCounts.healthy := DiagnosisCounts.healthy counts |}
  else if includes "healthy" diagnosis then
    {| DiagnosisCounts.disease := DiagnosisCounts.disease counts;
       DiagnosisCounts.environmental := DiagnosisCounts.environmental counts;
       DiagnosisCounts.preventive := DiagnosisCounts.preventive counts;
       DiagnosisCounts.healthy := S (DiagnosisCounts.healthy counts) |}
  else counts.

Definition countsObject (c : DiagnosisCounts.t) : value :=
  Obj (<["disease" := Num (ofNat (DiagnosisCounts.disease c))]> (
       <["environmental" := Num (ofNat (DiagnosisCounts.environmental c))]> (
       <["preventive" := Num (ofNat (DiagnosisCounts.preventive c))]> (
       <["healthy" := Num (ofNat (DiagnosisCounts.healthy c))]> ∅)))).

(** Reading the property [name] of a value.  It throws for [undefined]
    and [null]; an object gives the property, [undefined] when it does
    not have it; a number, a string and a boolean have none of the
    properties that are read here. *)
Definition member (name : string) (v : value) : outcome value :=
  match v with
  | Undefined | Null => Thrown
  | Obj props => Returned (default Undefined (props !! name))
  | Bool _ | Num _ | Str _ => Returned Undefined
  end.

(** The properties that [{...v}] copies from an object. *)
Definition spread (v : value) : gmap string value :=
  match v with
  | Obj props => props
  | _ => ∅
  end.

Section FusionEnhanced.

Variable fraction : Q -> string.

(** The number that a string stands for in arithmetic. *)
Variable stringToNumber : string -> number.

(** [ToNumber]; an object of the calculator has no [valueOf] of its own
    and gives [NaN]. *)
Definition toNumber (v : value) : number :=
  match v with
  | Undefined => NaN
  | Null => ofZ 0
  | Bool b => if b then ofZ 1 else ofZ 0
  | Num n => n
  | Str s => stringToNumber s
  | Obj _ => NaN
  end.

(** The base impact is typed as the calculator builds it; the cost of the
    precision spray is read by the name that the source uses,
    [interventionCosts.precisionSpray.totalCost], on the object that
    [calculateInterventionCosts] returns. *)
Definition calculateFusionEnhancedROI (gridStats : option (gmap string number))
    (sensorData : option Sensor.t) (fusionResults : option (list Fusion.t))
    (isoNow : string) : outcome value :=
  let baseImpact := calculateEconomicImpact fraction gridStats isoNow in
  match fusionResults with
  | None | Some [] => Returned (impactObject baseImpact)
  | Some results =>
      let diagnosisCounts := fold_left countDiagnosis results noCounts in
      let diseaseZones := ofNat (DiagnosisCounts.disease diagnosisCounts) in
      let environmentalZones :=
        ofNat (DiagnosisCounts.environmental diagnosisCounts) in
      let chemicalCost := mul (mul diseaseZones cellAreaHectares) costPerHectare in
      let irrigationCost :=
        mul (mul environmentalZones cellAreaHectares)
            (mul costPerHectare (Fin (3 # 10))) in
      let totalFusionCost :=
        add (add chemicalCost irrigationCost) fixedCostPerMission in
      stats ← match gridStats with
              | Some stats => Returned stats
              | None => Thrown
              end;
      let visionOnlyWouldSpray := operand (stats !! "infectedCount") in
      let fusionActuallyNeeds := diseaseZones in
      let falsePositivesAvoided := sub visionOnlyWouldSpray fusionActuallyNeeds in
      let falsePositiveSavings :=
        mul (mul falsePositivesAvoided cellAreaHectares) costPerHectare in
      precisionSpray ←
        member "precisionSpray"
               (nullable costsObject (Impact.interventionCosts baseImpact));
      visionOnly ← member "totalCost" precisionSpray;
      let fusionSavings := sub (toNumber visionOnly) totalFusionCost in
      roi ← match Impact.roi baseImpact with
            | Some roi => Returned roi
            | None => Thrown
            end;
      let enhancedROI :=
        div (add (PerApplication.netProfit (Roi.perApplication roi))
                 falsePositiveSavings)
            totalFusionCost in
      Returned (Obj (
        <["roi" := Obj (<["enhancedROI" := Num enhancedROI]> (
                        <["fusionBonus" := Num falsePositiveSavings]> (
                        spread (roiObject roi))))]> (
        <["falsePositives" :=
            Obj (<["percentage" :=
                    Str (toFixed 1 (mul (div falsePositivesAvoided
                                             visionOnlyWouldSpray)
                                        (ofZ 100)))]> (
                 <["savings" := Num falsePositiveSavings]> (
                 <["avoided" := Num falsePositivesAvoided]> ∅)))]> (
        <["costs" :=
            Obj (<["fusionSavings" := Num fusionSavings]> (
                 <["visionOnly" := visionOnly]> (
                 <["total" := Num totalFusionCost]> (
                 <["irrigation" := Num irrigationCost]> (
                 <["chemicalSpray" := Num chemicalCost]> ∅)))))]> (
        <["diagnosisCounts" := countsObject diagnosisCounts]> (
        <["fusionEnhanced" := Bool true]> (
        spread (impactObject baseImpact))))))))
  end.

End FusionEnhanced.

End EconomicCalculator.

(** ** The dashboard's use of the engine, and data for examples *)

Module Dashboard.
Import FieldGrid InfectedZones AlertRuleEngine.

(** The alerts panel is handed the statistics of the grid as [gridStats]
    and runs the extractor and the rule engine on them. *)
Definition gridAlerts (grid : Grid)
    (detections : list Detection)
    (economicImpact : option Economic.t)
    (fusionResults : option (list Fusion.t))
    (sensorData : option Sensor.t)
    (now : Z) (isoNow : string) : list Alert.t :=
  let gridStats := calculateGridStats grid in
  let signals :=
    extractSignals detections (Some gridStats) economicImpact fusionResults
                   sensorData isoNow in
  evaluateAlerts signals now isoNow.

End Dashboard.

(** ** AlertsDecisionPanel: the alerts that reach the panel *)

Module AlertsDecisionPanel.
Import AlertRuleEngine AlertRuleEngine.AlertDebouncer.

(** [newAlerts.filter(alert => alertDebouncer.shouldShowAlert(alert))]:
    the debouncer is one object, so each call sees the entries that the
    calls before it wrote.  [clock k] is the reading of [Date.now()] in
    the call for the alert at place [k]. *)
Fixpoint filterShown (d : AlertDebouncer.t) (clock : nat -> Z)
    (alerts : list Alert.t) : list Alert.t * AlertDebouncer.t :=
  match alerts with
  | [] => ([], d)
  | alert :: rest =>
      let '(show, d1) := shouldShowAlert d (clock 0%nat) alert in
      let '(shown, d2) := filterShown d1 (fun k => clock (S k)) rest in
      (if show then alert :: shown else shown, d2)
  end.

(** The body of the effect that evaluates the alerts: nothing is set
    when there are no grid statistics ([None]); otherwise the alerts that
    are set, and the debouncer after the pass. *)
Definition evaluatePanel (d : AlertDebouncer.t)
    (detections : list InfectedZones.Detection)
    (gridStats : option (gmap string number))
    (economicImpact : option Economic.t)
    (fusionResults : option (list Fusion.t))
    (sensorData : option Sensor.t)
    (now : Z) (isoNow : string) (clock : nat -> Z)
    : option (list Alert.t * AlertDebouncer.t) :=
  match gridStats with
  | None => None
  | Some _ =>
      let signals :=
        extractSignals detections gridStats economicImpact fusionResults
                       sensorData isoNow in
      let newAlerts := evaluateAlerts signals now isoNow in
      let newAlerts := resolveConflicts newAlerts in
      Some (filterShown d clock newAlerts)
  end.

End AlertsDecisionPanel.

Module Fixtures.
Import FieldGrid InfectedZones PathPlanner.

(** One detection at the centre of each cell of the 5 x 5 north-west
    corner of the field. *)
Definition cornerDetections : list Detection :=
  flat_map (fun r =>
    map (fun c =>
           {| det_id := "det_" ++ dec (Z.of_nat r) ++ "_" ++ dec (Z.of_nat c);
              gps := option_map center (createFieldGrid !! r ≫= (.!! c)) |})
        (seq 0 5))
    (seq 0 5).

Definition cornerGrid : Grid := mapDetectionsToGrid cornerDetections.

Definition fungalHigh : Fusion.t :=
  {| Fusion.diagnosis :=
       Some {| Fusion.severity := Some "high";
               Fusion.refined_diagnosis := Some "Fungal Infection (High Humidity)";
               Fusion.confidence := Some (Fin (9 # 10)) |} |}.

Definition drySensor : Sensor.t :=
  {| Sensor.soil_moisture := Some (ofZ 0);
     Sensor.soil_temperature := Some (ofZ 0);
     Sensor.air_humidity := Some (ofZ 0) |}.

(** Rational approximations of the [Math] functions, carried to 30
    decimals: Taylor polynomials for the sine, the cosine and the arc
    tangent of a quotient with positive divisor, and the integer square
    root of the scaled argument.  On the angles of the field they agree
    with the functions they stand for far below a nanometre of distance. *)
Definition scale : Z := 10 ^ 30.

Definition keep (q : Q) : Q :=
  Qmake (Qfloor (q * inject_Z scale)) (Z.to_pos scale).

Definition mulK (a b : Q) : Q := keep (a * b).

Definition onFinite (f : Q -> Q) (x : number) : number :=
  match x with
  | Fin q => Fin (f (keep q))
  | _ => NaN
  end.

Definition sinQ : number -> number :=
  onFinite (fun x =>
    let s := mulK x x in
    mulK x (1 - mulK (s / 6) (1 - mulK (s / 20) (1 - mulK (s / 42)
           (1 - s / 72)))))%Q.

Definition cosQ : number -> number :=
  onFinite (fun x =>
    let s := mulK x x in
    1 - mulK (s / 2) (1 - mulK (s / 12) (1 - mulK (s / 30) (1 - mulK (s / 56)
        (1 - mulK (s / 90) (1 - s / 132))))))%Q.

Definition sqrtQ (x : number) : number :=
  match x with
  | Fin a =>
      match (a ?= 0)%Q with
      | Lt => NaN
      | _ => Fin (Qmake (Z.sqrt (Qfloor (a * inject_Z (scale * scale))))
                        (Z.to_pos scale))
      end
  | PInf => PInf
  | _ => NaN
  end.

Definition atan2Q (y x : number) : number :=
  match y, x with
  | Fin b, Fin a =>
      match (a ?= 0)%Q with
      | Gt =>
          let t := keep (b / a) in
          let s := mulK t t in
          Fin (mulK t (1 - mulK (s / 3) (1 - mulK (s * (3 # 5))
                      (1 - s * (5 # 7)))))
      | _ => NaN
      end
  | _, _ => NaN
  end.

Definition piQ : number :=
  Fin (314159265358979323846264338328 # 100000000000000000000000000000).

Definition distanceQ : LatLng -> LatLng -> number :=
  calculateDistance sinQ cosQ sqrtQ atan2Q piQ.

Definition sprayPathQ : nat -> Grid -> option SprayPath :=
  generateSprayPath sinQ cosQ sqrtQ atan2Q piQ.

Definition roundTripQ : list Waypoint -> number :=
  roundTripDistance sinQ cosQ sqrtQ atan2Q piQ.

(** Four detections in three cells: one in cell 2_7, two in cell 6_6 and
    one in cell 7_1, each at the centre of its cell. *)
Definition detectionAt (name : string) (r c : nat) : Detection :=
  {| det_id := name;
     gps := option_map center (createFieldGrid !! r ≫= (.!! c)) |}.

Definition sprayDetections : list Detection :=
  [ detectionAt "det_a" 2 7; detectionAt "det_b" 6 6;
    detectionAt "det_c" 6 6; detectionAt "det_d" 7 1 ].

Definition sprayGrid : Grid := mapDetectionsToGrid sprayDetections.

Definition alertWith (ruleId title : string) (priority : Z) : Alert.t :=
  {| Alert.id := ruleId ++ "_0";
     Alert.ruleId := ruleId;
     Alert.ruleName := ruleId;
     Alert.priority := priority;
     Alert.type := "WARNING";
     Alert.title := title;
     Alert.message := "";
     Alert.action := "";
     Alert.timeline := "";
     Alert.icon := "";
     Alert.timestamp := "";
     Alert.signals :=
       AlertRuleEngine.extractSignals [] None None None None "";
     Alert.metadata :=
       {| Alert.estimatedLoss := None; Alert.preventMistake := None;
          Alert.savingsPotential := None; Alert.benefit := None |} |}.

(** Two alerts of the disease category, the less urgent one first, and
    three alerts in the order of their priorities. *)
Definition unsortedAlerts : list Alert.t :=
  [ alertWith "RULE_002" "⚠️ Infection Spreading" 2;
    alertWith "RULE_001" "🚨 Disease Outbreak Detected" 1 ].

Definition sortedAlerts : list Alert.t :=
  [ alertWith "RULE_001" "🚨 Disease Outbreak Detected" 1;
    alertWith "RULE_002" "⚠️ Infection Spreading" 2;
    alertWith "RULE_004" "🌡️ Heat Stress Risk" 2 ].

(** A soil moisture reading of 15 %, the other readings missing. *)
Definition drySoilSensor : Sensor.t :=
  {| Sensor.soil_moisture := Some (Fin 15);
     Sensor.soil_temperature := None;
     Sensor.air_humidity := None |}.

(** The reading of the next snapshot: 12 %. *)
Definition drierSoilSensor : Sensor.t :=
  {| Sensor.soil_moisture := Some (Fin 12);
     Sensor.soil_temperature := None;
     Sensor.air_humidity := None |}.

(** A grid of one infected cell whose centre has no latitude. *)
Definition strayCell : GridCell :=
  {| row := 0; col := 0; id := "0_0";
     center := {| lat := NaN; lng := lng GpsSimulator.getFieldCenter |};
     bounds := ((NaN, NaN), (NaN, NaN));
     detections := ["det_x"];
     infected := true |}.

Definition strayGrid : Grid := [[strayCell]].

(** Grid statistics that count three infected cells. *)
Definition threeInfected : gmap string number :=
  <["infectedCount" := ofNat 3]> ∅.

(** [toString] of a number with a fraction, for examples: the digits are
    of no account there. *)
Definition noDigits : Q -> string := fun _ => "".

End Fixtures.

(* ===================================================================== *)
(** * Part II: properties *)
(* ===================================================================== *)

(** ** Numbers *)

Arguments JS.lt : simpl never.
Arguments JS.gt : simpl never.
Arguments JS.le : simpl never.
Arguments JS.ge : simpl never.
Arguments JS.add : simpl never.
Arguments JS.sub : simpl never.
Arguments JS.mul : simpl never.
Arguments JS.div : simpl never.
Arguments JS.ofZ : simpl never.
Arguments JS.ofNat : simpl never.
Arguments JS.toFixed : simpl never.
Arguments JS.parseFloat : simpl never.
Arguments JS.Math_ceil : simpl never.
Arguments JS.includes : simpl never.
Arguments JS.toLowerCase : simpl never.

Section NumberFacts.

Lemma lt_NaN_l (y : number) : lt NaN y = false.
Proof. reflexivity. Qed.

Lemma lt_NaN_r (x : number) : lt x NaN = false.
Proof. destruct x; reflexivity. Qed.

Lemma lt_irrefl (x : number) : lt x x = false.
Proof.
  destruct x as [q| | |]; try reflexivity.
  unfold lt. now rewrite (proj1 (Qeq_alt q q) (Qeq_refl q)).
Qed.

(** A number that compares above something is not [NaN], so it is at
    most [y] exactly when it is not above [y]. *)
Lemma le_of_not_gt (x y z : number) :
  gt x z = true -> y <> NaN -> gt x y = false -> le x y = true.
Proof.
  unfold gt, le. intros Hz Hy Hxy.
  destruct x; [ | now rewrite lt_NaN_r in Hz | | ];
    destruct y; try congruence; now rewrite Hxy.
Qed.

Lemma le_true_not_gt (x y : number) : le x y = true -> gt x y = false.
Proof.
  unfold gt, le. destruct x, y; try discriminate; intros H;
    now apply negb_true_iff in H.
Qed.

(** [v || d] is never falsy when [d] is truthy. *)
Lemma orDefault_truthy (v : option number) (d : number) :
  truthy d = true -> truthy (orDefault v d) = true.
Proof.
  intros Hd. destruct v as [x|]; simpl; [ | exact Hd ].
  destruct (truthy x) eqn:Hx; [ exact Hx | exact Hd ].
Qed.

(** Zero is falsy however it is written, and a falsy reading gives way
    to the default. *)
Lemma truthy_zero (q : Q) : (q == 0)%Q -> truthy (Fin q) = false.
Proof.
  intros H. unfold truthy. now rewrite (proj2 (Qeq_bool_iff q 0) H).
Qed.

Lemma orDefault_falsy (x d : number) :
  truthy x = false -> orDefault (Some x) d = d.
Proof. intros H. unfold orDefault. now rewrite H. Qed.

Lemma orDefault_None (d : number) : orDefault None d = d.
Proof. reflexivity. Qed.

End NumberFacts.

Arguments JS.isDigit : simpl never.
Arguments JS.isSpace : simpl never.
Arguments JS.digitOf : simpl never.
Arguments JS.digitChar : simpl never.
Arguments JS.numeral : simpl never.

(** ** Decimal numerals: what [toFixed] writes, [parseFloat] reads *)

Section DecimalFacts.

Lemma digitChar_isDigit (d : Z) : (0 <= d < 10)%Z -> isDigit (digitChar d) = true.
Proof.
  intros H. assert (Hd : In d [0; 1; 2; 3; 4; 5; 6; 7; 8; 9]%Z) by (simpl; lia).
  simpl in Hd. repeat (destruct Hd as [<- | Hd]; [ reflexivity | ]). destruct Hd.
Qed.

Lemma digitOf_digitChar (d : Z) : (0 <= d < 10)%Z -> digitOf (digitChar d) = d.
Proof.
  intros H. assert (Hd : In d [0; 1; 2; 3; 4; 5; 6; 7; 8; 9]%Z) by (simpl; lia).
  simpl in Hd. repeat (destruct Hd as [<- | Hd]; [ reflexivity | ]). destruct Hd.
Qed.

Lemma digitsAcc_shift (s : string) :
  forall acc, digitsAcc s acc
              = (acc * 10 ^ Z.of_nat (String.length s) + digitsAcc s 0)%Z.
Proof.
  induction s as [|c s IH]; intros acc; simpl String.length; simpl digitsAcc.
  - change (10 ^ Z.of_nat 0)%Z with 1%Z. lia.
  - rewrite (IH (10 * acc + digitOf c)%Z), (IH (10 * 0 + digitOf c)%Z).
    rewrite Nat2Z.inj_succ, Z.pow_succ_r by lia. lia.
Qed.

Lemma digitsValue_app (s1 s2 : string) :
  digitsValue (s1 ++ s2)
  = (digitsValue s1 * 10 ^ Z.of_nat (String.length s2) + digitsValue s2)%Z.
Proof.
  unfold digitsValue.
  assert (H : forall acc,
             digitsAcc (s1 ++ s2) acc
             = (digitsAcc s1 acc * 10 ^ Z.of_nat (String.length s2)
                + digitsAcc s2 0)%Z).
  { induction s1 as [|c s1 IH]; intros acc; simpl.
    - apply digitsAcc_shift.
    - apply IH. }
  apply H.
Qed.

Lemma digitsValue_cons (c : ascii) (s : string) :
  digitsValue (String c s)
  = (digitOf c * 10 ^ Z.of_nat (String.length s) + digitsValue s)%Z.
Proof.
  unfold digitsValue. simpl. rewrite digitsAcc_shift. lia.
Qed.

Lemma digitsOf_value (fuel : nat) :
  forall (n : Z) (acc : string),
    (0 <= n < 2 ^ Z.of_nat fuel)%Z ->
    digitsValue (digitsOf fuel n acc)
    = (n * 10 ^ Z.of_nat (String.length acc) + digitsValue acc)%Z.
Proof.
  induction fuel as [|fuel IH]; intros n acc Hn.
  - change (2 ^ Z.of_nat 0)%Z with 1%Z in Hn. assert (n = 0)%Z as -> by lia.
    simpl. lia.
  - simpl digitsOf.
    assert (Hmod : (0 <= n mod 10 < 10)%Z) by (apply Z.mod_pos_bound; lia).
    pose proof (Z.div_mod n 10 ltac:(lia)) as Hdm.
    destruct (n / 10 =? 0)%Z eqn:Hq.
    + apply Z.eqb_eq in Hq. rewrite digitsValue_cons, digitOf_digitChar by exact Hmod.
      lia.
    + rewrite IH.
      * rewrite digitsValue_cons, digitOf_digitChar by exact Hmod.
        simpl String.length. rewrite Nat2Z.inj_succ, Z.pow_succ_r by lia. lia.
      * rewrite Nat2Z.inj_succ, Z.pow_succ_r in Hn by lia.
        split; [ apply Z.div_pos; lia | ].
        apply Z.div_lt_upper_bound; lia.
Qed.

Lemma digitsOf_allDigits (fuel : nat) :
  forall (n : Z) (acc : string),
    (0 <= n)%Z -> allDigits acc -> allDigits (digitsOf fuel n acc).
Proof.
  induction fuel as [|fuel IH]; intros n acc Hn Hacc; simpl; [ exact Hacc | ].
  assert (Hmod : (0 <= n mod 10 < 10)%Z) by (apply Z.mod_pos_bound; lia).
  destruct (n / 10 =? 0)%Z.
  - split; [ now apply digitChar_isDigit | exact Hacc ].
  - apply IH; [ apply Z.div_pos; lia | ].
    split; [ now apply digitChar_isDigit | exact Hacc ].
Qed.

Lemma digitsOf_length (fuel : nat) :
  forall (n : Z) (d : nat) (acc : string),
    (0 <= n < 10 ^ Z.of_nat d)%Z -> (1 <= d)%nat ->
    (String.length (digitsOf fuel n acc) <= d + String.length acc)%nat.
Proof.
  induction fuel as [|fuel IH]; intros n d acc Hn Hd; simpl; [ lia | ].
  destruct (n / 10 =? 0)%Z eqn:Hq; simpl; [ lia | ].
  apply Z.eqb_neq in Hq.
  destruct d as [|[|d]]; [ lia | | ].
  - change (10 ^ Z.of_nat 1)%Z with 10%Z in Hn.
    rewrite Z.div_small in Hq by lia. congruence.
  - etransitivity; [ apply (IH (n / 10)%Z (S d)) | simpl; lia ]; [ | lia ].
    rewrite (Nat2Z.inj_succ (S d)), Z.pow_succ_r in Hn by lia.
    split; [ apply Z.div_pos; lia | ].
    apply Z.div_lt_upper_bound; lia.
Qed.

Lemma digitsOf_nonempty (fuel : nat) (n : Z) (acc : string) :
  exists c r, digitsOf (S fuel) n acc = String c r.
Proof.
  revert n acc. induction fuel as [|fuel IH]; intros n acc.
  - simpl. destruct (n / 10 =? 0)%Z; eauto.
  - change (digitsOf (S (S fuel)) n acc)
      with (if (n / 10 =? 0)%Z then String (digitChar (n mod 10)) acc
            else digitsOf (S fuel) (n / 10) (String (digitChar (n mod 10)) acc)).
    destruct (n / 10 =? 0)%Z; eauto.
Qed.

Lemma log2_fuel (n : Z) : (0 <= n)%Z -> (0 <= n < 2 ^ Z.of_nat (S (Z.to_nat (Z.log2 n))))%Z.
Proof.
  intros Hn. split; [ exact Hn | ].
  rewrite Nat2Z.inj_succ, Z2Nat.id by apply Z.log2_nonneg.
  destruct (Z.eq_dec n 0%Z) as [-> | Hne]; [ reflexivity | ].
  apply Z.log2_spec. lia.
Qed.

Lemma numeral_value (n : Z) : (0 <= n)%Z -> digitsValue (numeral n) = n.
Proof.
  intros Hn. unfold numeral. rewrite digitsOf_value by now apply log2_fuel.
  simpl. unfold digitsValue. simpl. lia.
Qed.

Lemma numeral_allDigits (n : Z) : (0 <= n)%Z -> allDigits (numeral n).
Proof. intros Hn. apply digitsOf_allDigits; [ exact Hn | exact I ]. Qed.

Lemma numeral_length (n : Z) (d : nat) :
  (0 <= n < 10 ^ Z.of_nat d)%Z -> (1 <= d)%nat -> (String.length (numeral n) <= d)%nat.
Proof.
  intros Hn Hd. unfold numeral.
  etransitivity; [ now apply (digitsOf_length _ n d "") | simpl; lia ].
Qed.


Lemma append_cons (c : ascii) (s t : string) : String c s ++ t = String c (s ++ t).
Proof. reflexivity. Qed.

Lemma append_nil_l (t : string) : "" ++ t = t.
Proof. reflexivity. Qed.

Lemma takeDigits_app (s rest : string) :
  allDigits s -> endsDigits rest -> takeDigits (s ++ rest) = (s, rest).
Proof.
  intros Hs Hrest. induction s as [|c s IH].
  - rewrite append_nil_l. destruct rest as [|c r]; [ reflexivity | ].
    simpl in *. now rewrite Hrest.
  - destruct Hs as [Hc Hs]. rewrite append_cons. simpl.
    rewrite Hc, (IH Hs). reflexivity.
Qed.

Lemma append_nil_r (s : string) : s ++ "" = s.
Proof.
  induction s as [|c s IH]; [ reflexivity | now rewrite append_cons, IH ].
Qed.

Lemma length_append (s1 s2 : string) :
  String.length (s1 ++ s2) = (String.length s1 + String.length s2)%nat.
Proof.
  induction s1 as [|c s1 IH]; [ reflexivity | ].
  rewrite append_cons. simpl. now rewrite IH.
Qed.

Lemma allDigits_app (s1 s2 : string) :
  allDigits s1 -> allDigits s2 -> allDigits (s1 ++ s2).
Proof.
  intros H1 H2. induction s1 as [|c s1 IH]; [ exact H2 | ].
  destruct H1 as [Hc H1]. rewrite append_cons.
  split; [ exact Hc | now apply IH ].
Qed.

Lemma zeros_allDigits (k : nat) : allDigits (zeros k).
Proof. induction k as [|k IH]; simpl; [ exact I | split; [ reflexivity | exact IH ] ]. Qed.

Lemma zeros_length (k : nat) : String.length (zeros k) = k.
Proof. induction k as [|k IH]; simpl; [ reflexivity | now rewrite IH ]. Qed.

Lemma zeros_value (k : nat) : digitsValue (zeros k) = 0%Z.
Proof.
  induction k as [|k IH]; [ reflexivity | ].
  simpl zeros. rewrite digitsValue_cons, IH. reflexivity.
Qed.

Lemma padStart_numeral (d : nat) (m : Z) :
  (0 <= m < 10 ^ Z.of_nat d)%Z -> (1 <= d)%nat ->
  allDigits (padStart d (numeral m))
  /\ String.length (padStart d (numeral m)) = d
  /\ digitsValue (padStart d (numeral m)) = m.
Proof.
  intros Hm Hd. unfold padStart.
  pose proof (numeral_length m d Hm Hd) as Hlen.
  split; [ | split ].
  - apply allDigits_app; [ apply zeros_allDigits | apply numeral_allDigits; lia ].
  - rewrite length_append, zeros_length. lia.
  - rewrite digitsValue_app, zeros_value, numeral_value by lia. lia.
Qed.

Lemma digit_not_space (c : ascii) : isDigit c = true -> isSpace c = false.
Proof.
  unfold isDigit, isSpace. intros H. apply andb_true_iff in H as [H1 H2].
  apply Nat.leb_le in H1, H2.
  apply orb_false_iff. split.
  - apply Nat.eqb_neq. lia.
  - apply andb_false_iff. right. apply Nat.leb_gt. lia.
Qed.

Lemma splitSign_digit (c : ascii) (r : string) :
  isDigit c = true -> splitSign (String c r) = (false, String c r).
Proof.
  destruct c as [[] [] [] [] [] [] [] []]; try discriminate; reflexivity.
Qed.

Lemma prefix_Infinity_digit (c : ascii) (r : string) :
  isDigit c = true -> Strings.String.prefix "Infinity" (String c r) = false.
Proof.
  destruct c as [[] [] [] [] [] [] [] []]; try discriminate; reflexivity.
Qed.

Lemma dec_nonneg (z : Z) : (0 <= z)%Z -> dec z = numeral z.
Proof. intros H. unfold dec. now rewrite (proj2 (Z.ltb_ge z 0) H). Qed.

Lemma numeral_cons (n : Z) : exists c r, numeral n = String c r.
Proof. apply digitsOf_nonempty. Qed.

Lemma parse_fixedBody (d : nat) (n : Z) (minus : bool) :
  (0 <= n)%Z ->
  exists c r,
    fixedBody d n = String c r
    /\ isDigit c = true
    /\ takeDigits (fixedBody d n)
       = (numeral (n / 10 ^ Z.of_nat d),
          if Nat.eqb d 0 then ""
          else "." ++ padStart d (numeral (n mod 10 ^ Z.of_nat d)))
    /\ digitsValue
         (numeral (n / 10 ^ Z.of_nat d)
          ++ fractionDigits
               (if Nat.eqb d 0 then ""
                else "." ++ padStart d (numeral (n mod 10 ^ Z.of_nat d)))) = n
    /\ String.length
         (fractionDigits
            (if Nat.eqb d 0 then ""
             else "." ++ padStart d (numeral (n mod 10 ^ Z.of_nat d)))) = d.
Proof.
  intros Hn. set (p := (10 ^ Z.of_nat d)%Z).
  assert (Hp : (0 < p)%Z) by (apply Z.pow_pos_nonneg; lia).
  assert (Hip : (0 <= n / p)%Z) by (apply Z.div_pos; lia).
  assert (Hfp : (0 <= n mod p < p)%Z) by (apply Z.mod_pos_bound; lia).
  pose proof (Z.div_mod n p ltac:(lia)) as Hdm.
  unfold fixedBody. fold p. rewrite !dec_nonneg by lia.
  destruct (numeral_cons (n / p)) as (c & r & Hnum).
  pose proof (numeral_allDigits (n / p) Hip) as Hall.
  exists c. eexists. split; [ rewrite Hnum; reflexivity | ].
  split; [ rewrite Hnum in Hall; exact (proj1 Hall) | ].
  destruct d as [|d].
  - simpl Nat.eqb. cbv iota. split; [ | split ].
    + apply takeDigits_app; [ exact Hall | exact I ].
    + simpl fractionDigits. rewrite append_nil_r, numeral_value by lia.
      subst p. change (10 ^ Z.of_nat 0)%Z with 1%Z in *. lia.
    + reflexivity.
  - simpl Nat.eqb. cbv iota.
    destruct (padStart_numeral (S d) (n mod p) Hfp ltac:(lia)) as (Hpa & Hpl & Hpv).
    assert (Hfrac : fractionDigits ("." ++ padStart (S d) (numeral (n mod p)))
                    = padStart (S d) (numeral (n mod p))).
    { change (fractionDigits ("." ++ padStart (S d) (numeral (n mod p))))
        with (fst (takeDigits (padStart (S d) (numeral (n mod p))))).
      rewrite <- (append_nil_r (padStart (S d) (numeral (n mod p)))) at 1.
      rewrite takeDigits_app; [ reflexivity | exact Hpa | exact I ]. }
    split; [ | split ].
    + apply takeDigits_app; [ exact Hall | reflexivity ].
    + rewrite Hfrac, digitsValue_app, Hpl, Hpv, numeral_value by lia. fold p. lia.
    + now rewrite Hfrac.
Qed.


Lemma toFixed_Fin (d : nat) (q : Q) :
  toFixed d (Fin q)
  = (if lt (Fin q) (Fin 0) then "-" else "")
    ++ fixedBody d (Qfloor (Qabs q * inject_Z (10 ^ Z.of_nat d) + (1 # 2))).
Proof. reflexivity. Qed.

Lemma scaled_floor_nonneg (d : nat) (q : Q) :
  (0 <= Qfloor (Qabs q * inject_Z (10 ^ Z.of_nat d) + (1 # 2)))%Z.
Proof.
  change 0%Z with (Qfloor 0). apply Qfloor_resp_le.
  assert (H1 : (0 <= Qabs q)%Q) by apply Qabs_nonneg.
  assert (H2 : (0 <= inject_Z (10 ^ Z.of_nat d))%Q).
  { change 0%Q with (inject_Z 0). rewrite <- Zle_Qle. apply Z.pow_nonneg. lia. }
  pose proof (Qmult_le_0_compat _ _ H1 H2). lra.
Qed.

(** Reading back what [toFixed] wrote gives the rounded number. *)
Lemma parseFloat_toFixed (d : nat) (q : Q) :
  parseFloat (toFixed d (Fin q)) = Fin (roundedTo d q).
Proof.
  rewrite toFixed_Fin. unfold roundedTo.
  set (n := Qfloor (Qabs q * inject_Z (10 ^ Z.of_nat d) + (1 # 2))).
  destruct (parse_fixedBody d n false (scaled_floor_nonneg d q))
    as (c & r & Hbody & Hc & Htake & Hval & Hlen).
  assert (Hpre : Strings.String.prefix "Infinity" (fixedBody d n) = false).
  { rewrite Hbody. now apply prefix_Infinity_digit. }
  destruct (numeral_cons (n / 10 ^ Z.of_nat d)) as (c' & r' & Hnum).
  assert (Hparse : forall minus : bool,
             (let '(ip, r1) := takeDigits (fixedBody d n) in
              let fp := fractionDigits r1 in
              match ip, fp with
              | EmptyString, EmptyString => NaN
              | _, _ =>
                  let m := digitsValue (ip ++ fp) in
                  let v := Qred (Qmake m (Z.to_pos (10 ^ Z.of_nat (String.length fp)))) in
                  Fin (if minus then Qred (- v) else v)
              end)
             = Fin (if minus
                    then Qred (- Qred (Qmake n (Z.to_pos (10 ^ Z.of_nat d))))
                    else Qred (Qmake n (Z.to_pos (10 ^ Z.of_nat d))))).
  { intros minus. rewrite Htake. cbv zeta.
    rewrite Hnum at 1. rewrite Hval, Hlen. reflexivity. }
  unfold parseFloat.
  destruct (lt (Fin q) (Fin 0)).
  - change ("-" ++ fixedBody d n) with (String "-"%char (fixedBody d n)).
    change (trimStart (String "-"%char (fixedBody d n)))
      with (String "-"%char (fixedBody d n)).
    change (splitSign (String "-"%char (fixedBody d n))) with (true, fixedBody d n).
    cbv iota. rewrite Hpre. apply (Hparse true).
  - change ("" ++ fixedBody d n) with (fixedBody d n).
    assert (Htrim : trimStart (fixedBody d n) = fixedBody d n).
    { rewrite Hbody. simpl. now rewrite (digit_not_space c Hc). }
    rewrite Htrim.
    assert (Hsign : splitSign (fixedBody d n) = (false, fixedBody d n)).
    { rewrite Hbody. now apply splitSign_digit. }
    rewrite Hsign. cbv iota. rewrite Hpre. apply (Hparse false).
Qed.

(** The rounded number is within half a unit of the last decimal. *)
Lemma roundedTo_close (d : nat) (q : Q) :
  (Qabs (roundedTo d q - q) * inject_Z (10 ^ Z.of_nat d) <= 1 # 2)%Q.
Proof.
  unfold roundedTo.
  set (p := (10 ^ Z.of_nat d)%Z).
  assert (Hp : (0 < p)%Z) by (apply Z.pow_pos_nonneg; lia).
  set (x := (Qabs q * inject_Z p + (1 # 2))%Q).
  pose proof (Qfloor_le x) as Hlo. pose proof (Qlt_floor x) as Hhi.
  set (n := Qfloor x) in *.
  assert (HP : (0 < inject_Z p)%Q).
  { change 0%Q with (inject_Z 0). now rewrite <- Zlt_Qlt. }
  assert (Hr : (Qmake n (Z.to_pos p) * inject_Z p == inject_Z n)%Q).
  { unfold Qeq, Qmult, inject_Z. cbn [Qnum Qden].
    rewrite Pos.mul_1_r, Z2Pos.id by exact Hp. lia. }
  rewrite inject_Z_plus in Hhi. change (inject_Z 1) with 1%Q in Hhi.
  assert (Hcase : forall e : Q,
             (e * inject_Z p == inject_Z n - Qabs q * inject_Z p
              \/ e * inject_Z p == - (inject_Z n - Qabs q * inject_Z p))%Q ->
             (Qabs e * inject_Z p <= 1 # 2)%Q).
  { intros e He.
    rewrite <- (Qabs_pos (inject_Z p)) at 1 by lra.
    rewrite <- Qabs_Qmult. apply Qabs_Qle_condition.
    unfold x in Hlo, Hhi. destruct He as [He | He]; rewrite He; split; lra. }
  unfold lt.
  destruct (q ?= 0)%Q eqn:Hcmp.
  - apply Qeq_alt in Hcmp. rewrite Qred_correct.
    assert (Habs : (Qabs q == q)%Q) by (apply Qabs_pos; lra).
    apply Hcase. left. rewrite Habs, <- Hr. ring.
  - apply Qlt_alt in Hcmp. rewrite !Qred_correct.
    assert (Habs : (Qabs q == - q)%Q) by (apply Qabs_neg; lra).
    apply Hcase. right. rewrite Habs, <- Hr. ring.
  - apply Qgt_alt in Hcmp. rewrite Qred_correct.
    assert (Habs : (Qabs q == q)%Q) by (apply Qabs_pos; lra).
    apply Hcase. left. rewrite Habs, <- Hr. ring.
Qed.

End DecimalFacts.

(** ** Grid statistics *)

Section GridStatsFacts.
Import FieldGrid.

(** The object built by [calculateGridStats] has exactly the six
    properties of the source; these two lookups are the ones used below. *)
Lemma calculateGridStats_infectionPercentage (grid : Grid) :
  calculateGridStats grid !! "infectionPercentage" = None.
Proof.
  unfold calculateGridStats; cbv zeta.
  repeat (rewrite lookup_insert_ne; [ | discriminate ]).
  apply lookup_empty.
Qed.

Lemma calculateGridStats_infectedPercentage (grid : Grid) :
  calculateGridStats grid !! "infectedPercentage"
  = Some (parseFloat (toFixed 1
            (mul (div (ofNat (length (getInfectedCells grid)))
                      (ofNat (length (flattenGrid grid))))
                 (ofZ 100)))).
Proof.
  unfold calculateGridStats, getInfectedCells; cbv zeta.
  repeat (rewrite lookup_insert_ne; [ | discriminate ]).
  now rewrite lookup_insert_eq.
Qed.

Lemma calculateGridStats_healthyPercentage (grid : Grid) :
  calculateGridStats grid !! "healthyPercentage"
  = Some (parseFloat (toFixed 1
            (mul (div (sub (ofNat (length (flattenGrid grid)))
                           (ofNat (length (getInfectedCells grid))))
                      (ofNat (length (flattenGrid grid))))
                 (ofZ 100)))).
Proof.
  unfold calculateGridStats, getInfectedCells; cbv zeta.
  repeat (rewrite lookup_insert_ne; [ | discriminate ]).
  now rewrite lookup_insert_eq.
Qed.

End GridStatsFacts.

(** ** The signal extractor *)

Section ExtractSignalsFacts.
Import FieldGrid InfectedZones AlertRuleEngine.

Variable detections : list Detection.
Variable economicImpact : option Economic.t.
Variable fusionResults : option (list Fusion.t).
Variable sensorData : option Sensor.t.
Variable isoNow : string.

Lemma extractSignals_gridStats (grid : Grid) :
  Signals.infectionPercentage
    (extractSignals detections (Some (calculateGridStats grid)) economicImpact
                    fusionResults sensorData isoNow)
  = ofZ 0.
Proof.
  unfold extractSignals; simpl.
  now rewrite calculateGridStats_infectionPercentage.
Qed.

(** C2. Whatever the grid, the snapshot built from [calculateGridStats]
    has [infectionPercentage] equal to [0]: the statistics carry the
    property [infectedPercentage] and none called [infectionPercentage],
    which is the one that [extractSignals] reads. *)
Theorem gridStats_percentage_is_lost (grid : Grid) :
  is_Some (calculateGridStats grid !! "infectedPercentage")
  /\ calculateGridStats grid !! "infectionPercentage" = None
  /\ Signals.infectionPercentage
       (extractSignals detections (Some (calculateGridStats grid)) economicImpact
                       fusionResults sensorData isoNow)
     = ofZ 0.
Proof.
  split; [ | split ].
  - rewrite calculateGridStats_infectedPercentage. eexists; reflexivity.
  - apply calculateGridStats_infectionPercentage.
  - apply extractSignals_gridStats.
Qed.

(** C8. On every snapshot that [extractSignals] returns, the growth rate
    is [infectionPercentage * 0.15] above 15, [infectionPercentage * 0.10]
    above 5 and up to 15, and [0] otherwise. *)
Theorem growth_rate_heuristic (gridStats : option (gmap string number)) :
  let signals :=
    extractSignals detections gridStats economicImpact fusionResults
                   sensorData isoNow in
  let p := Signals.infectionPercentage signals in
  Signals.infectionGrowthRate signals
  = if gt p (ofZ 15) then mul p (Fin (15 # 100))
    else if gt p (ofZ 5) && le p (ofZ 15) then mul p (Fin (1 # 10))
    else ofZ 0.
Proof.
  cbv zeta. unfold extractSignals; simpl.
  set (p := match gridStats with Some _ => _ | None => _ end).
  destruct (gt p (ofZ 15)) eqn:H15; [ reflexivity | ].
  destruct (gt p (ofZ 5)) eqn:H5; [ | reflexivity ].
  rewrite (le_of_not_gt p (ofZ 15) (ofZ 5) H5); [ reflexivity | discriminate | exact H15 ].
Qed.

(** C10. A reading of [0] in a sensor snapshot is replaced by the default:
    moisture becomes 50, temperature 25, humidity 60; the moisture of the
    snapshot is then not below the drought threshold of 20, and the
    drought rule can only fire through the diagnosis text. *)
Theorem zero_reading_takes_default (gridStats : option (gmap string number))
    (sensors : Sensor.t) (zero : Q) :
  (zero == 0)%Q ->
  let signals :=
    extractSignals detections gridStats economicImpact fusionResults
                   (Some sensors) isoNow in
  (Sensor.soil_moisture sensors = Some (Fin zero) ->
     Signals.soilMoisture signals = ofZ 50
     /\ lt (Signals.soilMoisture signals) (ofZ 20) = false
     /\ Rule.condition DecisionRules.RULE_003 signals
        = DecisionRules.diagnosisMentions "drought" signals)
  /\ (Sensor.soil_temperature sensors = Some (Fin zero) ->
        Signals.soilTemperature signals = ofZ 25)
  /\ (Sensor.air_humidity sensors = Some (Fin zero) ->
        Signals.airHumidity signals = ofZ 60).
Proof.
  intros Hzero. cbv zeta.
  pose proof (truthy_zero zero Hzero) as Hfalsy.
  split; [ | split ]; intros H.
  - assert (Hm : Signals.soilMoisture
                   (extractSignals detections gridStats economicImpact
                                   fusionResults (Some sensors) isoNow)
                 = ofZ 50).
    { unfold extractSignals. cbn [Signals.soilMoisture].
      rewrite H. now apply orDefault_falsy. }
    split; [ exact Hm | ]. split; [ now rewrite Hm | ].
    cbn [Rule.condition DecisionRules.RULE_003]. now rewrite Hm.
  - unfold extractSignals. cbn [Signals.soilTemperature].
    rewrite H. now apply orDefault_falsy.
  - unfold extractSignals. cbn [Signals.airHumidity].
    rewrite H. now apply orDefault_falsy.
Qed.

End ExtractSignalsFacts.

(** ** Division by zero in the statistics *)

Section DivisionFacts.
Import FieldGrid InfectedZones.

Lemma div_zero_zero : div (ofNat 0) (ofNat 0) = NaN.
Proof. reflexivity. Qed.

(** C9. On a grid without cells the two percentages of
    [calculateGridStats] are [NaN]: the quotient [0 / 0] is formed without
    a test of the divisor.  [getZoneStatistics] tests the number of zones
    and gives [0] for the average of no zone. *)
Theorem percentages_of_empty_grid :
  calculateGridStats [] !! "infectedPercentage" = Some NaN
  /\ calculateGridStats [] !! "healthyPercentage" = Some NaN
  /\ calculateGridStats [[]] !! "infectedPercentage" = Some NaN
  /\ averageZoneSize (getZoneStatistics []) = Num (ofZ 0)
  /\ largestZone (getZoneStatistics []) = ofZ 0.
Proof.
  rewrite !calculateGridStats_infectedPercentage,
          calculateGridStats_healthyPercentage.
  repeat split; reflexivity.
Qed.

End DivisionFacts.

(** ** The rule engine *)

Section RuleEngineFacts.
Import AlertRuleEngine DecisionRules.

Lemma insertByPriority_In (x a : Alert.t) (l : list Alert.t) :
  In x (insertByPriority a l) <-> x = a \/ In x l.
Proof.
  induction l as [|b l IH]; simpl.
  - intuition congruence.
  - destruct (Alert.priority a <=? Alert.priority b)%Z; simpl.
    + intuition congruence.
    + rewrite IH. intuition congruence.
Qed.

Lemma insertByPriority_perm (a : Alert.t) (l : list Alert.t) :
  Permutation (insertByPriority a l) (a :: l).
Proof.
  induction l as [|b l IH]; simpl; [ reflexivity | ].
  destruct (Alert.priority a <=? Alert.priority b)%Z; [ reflexivity | ].
  rewrite IH. apply perm_swap.
Qed.

Lemma sortByPriority_perm (l : list Alert.t) :
  Permutation (sortByPriority l) l.
Proof.
  induction l as [|a l IH]; simpl; [ reflexivity | ].
  rewrite insertByPriority_perm. now apply perm_skip.
Qed.

Lemma sortByPriority_In (x : Alert.t) (l : list Alert.t) :
  In x (sortByPriority l) <-> In x l.
Proof.
  split; apply Permutation_in; [ | symmetry ]; apply sortByPriority_perm.
Qed.

(** An alert is in the result exactly when it is the alert of a rule of
    the table whose condition holds on the snapshot. *)
Lemma evaluateRules_In (rules : list Rule.t) (signals : Signals.t)
    (now : Z) (isoNow : string) (a : Alert.t) :
  In a (evaluateRules rules signals now isoNow)
  <-> exists rule, In rule rules
                   /\ Rule.condition rule signals = true
                   /\ a = createAlert rule signals now isoNow.
Proof.
  unfold evaluateRules. rewrite sortByPriority_In, in_flat_map.
  split.
  - intros (rule & Hin & Ha).
    destruct (Rule.condition rule signals) eqn:Hc; simpl in Ha; [ | tauto ].
    destruct Ha as [<- | []]. eauto.
  - intros (rule & Hin & Hc & ->). exists rule. rewrite Hc. simpl. auto.
Qed.

(** The rules of the table have pairwise different names, so an alert is
    recognised by the name of its rule. *)
Lemma named_alert_triggered (name : string) (signals : Signals.t)
    (now : Z) (isoNow : string) :
  In name (map Alert.ruleName (evaluateAlerts signals now isoNow))
  <-> exists rule, In rule DECISION_RULES
                   /\ Rule.name rule = name
                   /\ Rule.condition rule signals = true.
Proof.
  unfold evaluateAlerts. rewrite in_map_iff. split.
  - intros (a & Hname & Ha). apply evaluateRules_In in Ha as (rule & Hin & Hc & ->).
    exists rule. auto.
  - intros (rule & Hin & Hname & Hc).
    exists (createAlert rule signals now isoNow). split; [ exact Hname | ].
    apply evaluateRules_In. eauto.
Qed.

Lemma outbreak_alert_iff (signals : Signals.t) (now : Z) (isoNow : string) :
  In "Critical Infection Outbreak"
     (map Alert.ruleName (evaluateAlerts signals now isoNow))
  <-> Rule.condition RULE_001 signals = true.
Proof.
  rewrite named_alert_triggered. split.
  - intros (rule & Hin & Hname & Hc).
    unfold DECISION_RULES in Hin. simpl in Hin.
    repeat (destruct Hin as [<- | Hin]; [ try discriminate Hname; exact Hc | ]).
    destruct Hin.
  - intros Hc. exists RULE_001. split; [ | split; [ reflexivity | exact Hc ] ].
    unfold DECISION_RULES. left. reflexivity.
Qed.

Lemma healthy_alert_iff (signals : Signals.t) (now : Z) (isoNow : string) :
  In "System Healthy"
     (map Alert.ruleName (evaluateAlerts signals now isoNow))
  <-> Rule.condition RULE_009 signals = true.
Proof.
  rewrite named_alert_triggered. split.
  - intros (rule & Hin & Hname & Hc).
    unfold DECISION_RULES in Hin. simpl in Hin.
    repeat (destruct Hin as [<- | Hin]; [ try discriminate Hname; exact Hc | ]).
    destruct Hin.
  - intros Hc. exists RULE_009. split; [ | split; [ reflexivity | exact Hc ] ].
    unfold DECISION_RULES. do 9 right. left. reflexivity.
Qed.

(** The outbreak rule asks for strictly more than 25 percent. *)
Lemma outbreak_needs_more_than_quarter (signals : Signals.t) :
  le (Signals.infectionPercentage signals) (ofZ 25) = true ->
  Rule.condition RULE_001 signals = false.
Proof.
  intros H. simpl. now rewrite (le_true_not_gt _ _ H).
Qed.

Lemma outbreak_above_quarter (signals : Signals.t) :
  gt (Signals.infectionPercentage signals) (ofZ 25) = true ->
  Signals.fusionSeverity signals = "high" ->
  Rule.condition RULE_001 signals = true.
Proof.
  intros H Hs. simpl. now rewrite H, Hs.
Qed.

End RuleEngineFacts.

(** ** Grid statistics through the extractor and the rule engine *)

Section DashboardFacts.
Import FieldGrid InfectedZones AlertRuleEngine DecisionRules Dashboard Fixtures.

Lemma last_nonempty {A : Type} (l : list A) (x : A) :
  last l = Some x -> (0 <? length l)%nat = true.
Proof. destruct l; [ discriminate | reflexivity ]. Qed.

(** The diagnosis that the snapshot reports is the one of the last fusion
    result. *)
Lemma extractSignals_fusionDiagnosis
    (detections : list Detection) (gridStats : option (gmap string number))
    (economicImpact : option Economic.t) (fusionResults : list Fusion.t)
    (sensorData : option Sensor.t) (isoNow : string)
    (latest : Fusion.t) (d : Fusion.Diagnosis) :
  last fusionResults = Some latest ->
  Fusion.diagnosis latest = Some d ->
  Signals.fusionDiagnosis
    (extractSignals detections gridStats economicImpact (Some fusionResults)
                    sensorData isoNow)
  = orDefaultStr (Fusion.refined_diagnosis d) "Unknown".
Proof.
  intros Hlast Hd. unfold extractSignals.
  cbn [Signals.fusionDiagnosis mbind option_bind].
  rewrite (last_nonempty _ _ Hlast), Hlast.
  cbn [mbind option_bind]. now rewrite Hd.
Qed.

Lemma quarter_percentage (grid : Grid) :
  length (flattenGrid grid) = 100%nat ->
  length (getInfectedCells grid) = 25%nat ->
  calculateGridStats grid !! "infectedPercentage" = Some (ofZ 25).
Proof.
  intros Hall Hinf.
  rewrite calculateGridStats_infectedPercentage, Hall, Hinf. reflexivity.
Qed.

(** C1, as the code has it.  For a grid of 100 cells of which 25 are
    infected and a latest fusion result of severity high, the statistics
    report 25 percent; the outbreak rule asks for strictly more than 25
    percent, so its condition fails on every snapshot at 25 percent, and
    the alert list of the grid does not include Critical Infection
    Outbreak.  The list does not include System Healthy either when the
    latest diagnosis does not mention healthy. *)
Theorem quarter_infection_alerts
    (grid : Grid) (detections : list Detection)
    (economicImpact : option Economic.t) (fusionResults : list Fusion.t)
    (sensorData : option Sensor.t) (now : Z) (isoNow : string)
    (latest : Fusion.t) (d : Fusion.Diagnosis) :
  length (flattenGrid grid) = 100%nat ->
  length (getInfectedCells grid) = 25%nat ->
  last fusionResults = Some latest ->
  Fusion.diagnosis latest = Some d ->
  Fusion.severity d = Some "high" ->
  let names :=
    map Alert.ruleName
        (gridAlerts grid detections economicImpact (Some fusionResults)
                    sensorData now isoNow) in
  calculateGridStats grid !! "infectedPercentage" = Some (ofZ 25)
  /\ (forall signals,
        Signals.infectionPercentage signals = ofZ 25 ->
        Rule.condition RULE_001 signals = false)
  /\ ~ In "Critical Infection Outbreak" names
  /\ (includes "healthy"
        (toLowerCase (orDefaultStr (Fusion.refined_diagnosis d) "Unknown")) = false ->
      ~ In "System Healthy" names).
Proof.
  intros Hall Hinf Hlast Hd Hsev names.
  split; [ now apply quarter_percentage | ].
  split.
  { intros signals H25. apply outbreak_needs_more_than_quarter.
    now rewrite H25. }
  subst names. unfold gridAlerts. split.
  - rewrite outbreak_alert_iff. intros Hc.
    rewrite outbreak_needs_more_than_quarter in Hc; [ discriminate | ].
    now rewrite extractSignals_gridStats.
  - intros Hno. rewrite healthy_alert_iff. intros Hc.
    cbn [Rule.condition RULE_009] in Hc.
    apply andb_true_iff in Hc as [_ Hc].
    unfold diagnosisMentions in Hc.
    rewrite (extractSignals_fusionDiagnosis _ _ _ _ _ _ latest d Hlast Hd) in Hc.
    rewrite Hno in Hc. now rewrite andb_false_r in Hc.
Qed.

(** On the field whose north-west quarter is infected, with a fungal
    diagnosis of high severity, the rule engine raises the fungal warning
    alone. *)
Lemma cornerGrid_alerts :
  length (flattenGrid cornerGrid) = 100%nat
  /\ length (getInfectedCells cornerGrid) = 25%nat
  /\ map Alert.ruleName
       (gridAlerts cornerGrid cornerDetections None (Some [fungalHigh]) None
                   1700000000000 "2023-11-14T22:13:20.000Z")
     = ["Fungal Outbreak Risk"].
Proof. vm_compute. repeat split. Qed.

(** C1 as stated fails: on that field the alert list does not include
    Critical Infection Outbreak. *)
Lemma quarter_infection_counterexample :
  length (flattenGrid cornerGrid) = 100%nat
  /\ length (getInfectedCells cornerGrid) = 25%nat
  /\ Fusion.diagnosis fungalHigh ≫= Fusion.severity = Some "high"
  /\ let names :=
       map Alert.ruleName
           (gridAlerts cornerGrid cornerDetections None (Some [fungalHigh]) None
                       1700000000000 "2023-11-14T22:13:20.000Z") in
     ~ (In "Critical Infection Outbreak" names /\ ~ In "System Healthy" names).
Proof.
  destruct cornerGrid_alerts as (Hall & Hinf & Hnames).
  split; [ exact Hall | ]. split; [ exact Hinf | ]. split; [ reflexivity | ].
  cbv zeta. rewrite Hnames. intros [[H | []] _]. discriminate H.
Qed.

Lemma quarter_infection_alerts_witness :
  let names :=
    map Alert.ruleName
        (gridAlerts cornerGrid cornerDetections None (Some [fungalHigh]) None
                    1700000000000 "2023-11-14T22:13:20.000Z") in
  calculateGridStats cornerGrid !! "infectedPercentage" = Some (ofZ 25)
  /\ ~ In "Critical Infection Outbreak" names
  /\ ~ In "System Healthy" names.
Proof.
  destruct (quarter_infection_alerts cornerGrid cornerDetections None
              [fungalHigh] None 1700000000000 "2023-11-14T22:13:20.000Z"
              fungalHigh
              {| Fusion.severity := Some "high";
                 Fusion.refined_diagnosis := Some "Fungal Infection (High Humidity)";
                 Fusion.confidence := Some (Fin (9 # 10)) |})
    as (Hstats & _ & Hout & Hhealthy).
  - vm_compute; reflexivity.
  - vm_compute; reflexivity.
  - reflexivity.
  - reflexivity.
  - reflexivity.
  - split; [ exact Hstats | ]. split; [ exact Hout | ].
    apply Hhealthy. vm_compute; reflexivity.
Defined.

End DashboardFacts.

(** ** Conflict resolution *)

Section ResolveConflictsFacts.
Import AlertRuleEngine.

Lemma fold_pushCategory (alerts : list Alert.t) (categories : Categories) :
  fold_left pushCategory alerts categories
  = {| disease := disease categories ++ bucket Disease alerts;
       environmental := environmental categories ++ bucket Environmental alerts;
       economic := economic categories ++ bucket Economical alerts;
       system := system categories ++ bucket System alerts |}.
Proof.
  revert categories.
  induction alerts as [|a alerts IH]; intros categories.
  - simpl. rewrite !app_nil_r. now destruct categories.
  - simpl. rewrite IH. unfold pushCategory, bucket, inCategory, categoryOf.
    simpl.
    destruct (isDisease a); [ | destruct (isEnvironmental a);
                                [ | destruct (isEconomic a) ] ];
      simpl; now rewrite <- ?app_assoc.
Qed.

(** [resolveConflicts] keeps the head of each bucket, in the order of the
    buckets; this also describes what it returns for lists of length 0
    and 1, which it hands back as they are. *)
Lemma resolveConflicts_buckets (alerts : list Alert.t) :
  resolveConflicts alerts
  = (firstOf (bucket Disease alerts) ++ firstOf (bucket Environmental alerts)
     ++ firstOf (bucket Economical alerts) ++ firstOf (bucket System alerts))%list.
Proof.
  unfold resolveConflicts.
  destruct alerts as [|a [|b rest]].
  - reflexivity.
  - unfold bucket, inCategory, categoryOf. simpl.
    destruct (isDisease a); [ reflexivity | ].
    destruct (isEnvironmental a); [ reflexivity | ].
    destruct (isEconomic a); reflexivity.
  - change (length (a :: b :: rest) <=? 1)%nat with false. cbv iota.
    rewrite fold_pushCategory. simpl. now rewrite app_nil_r.
Qed.

Lemma inCategory_bucket (c c' : Category) (alerts : list Alert.t) (a : Alert.t) :
  In a (bucket c' alerts) -> inCategory c a = Category_eqb c' c.
Proof.
  unfold bucket. rewrite filter_In. unfold inCategory. intros [_ H].
  destruct (categoryOf a), c'; try discriminate H; reflexivity.
Qed.

Lemma filter_firstOf (c c' : Category) (alerts : list Alert.t) :
  List.filter (inCategory c) (firstOf (bucket c' alerts))
  = if Category_eqb c' c then firstOf (bucket c' alerts) else [].
Proof.
  destruct (bucket c' alerts) as [|a l] eqn:Hb; simpl.
  - now destruct (Category_eqb c' c).
  - rewrite (inCategory_bucket c c' alerts a); [ | rewrite Hb; now left ].
    now destruct (Category_eqb c' c).
Qed.

Lemma length_firstOf (l : list Alert.t) : (length (firstOf l) <= 1)%nat.
Proof. destruct l; simpl; lia. Qed.

(** The head of a filtered list is the first element of the list that
    passes the filter. *)
Lemma filter_head {A : Type} (p : A -> bool) (l : list A) (x : A) (r : list A) :
  List.filter p l = x :: r ->
  exists l1 l2, l = (l1 ++ x :: l2)%list
                /\ p x = true
                /\ (forall y, In y l1 -> p y = false).
Proof.
  induction l as [|a l IH]; simpl; [ discriminate | ].
  destruct (p a) eqn:Hp.
  - intros [= -> _]. exists [], l. repeat split; [ exact Hp | intros y [] ].
  - intros H. destruct (IH H) as (l1 & l2 & -> & Hx & Hl1).
    exists (a :: l1), l2. repeat split; [ exact Hx | ].
    intros y [<- | Hy]; [ exact Hp | now apply Hl1 ].
Qed.

Lemma Category_eqb_eq (c1 c2 : Category) : Category_eqb c1 c2 = true <-> c1 = c2.
Proof. destruct c1, c2; simpl; split; congruence. Qed.

Lemma resolveConflicts_In (alerts : list Alert.t) (s : Alert.t) :
  In s (resolveConflicts alerts) <->
  exists r, bucket (categoryOf s) alerts = s :: r.
Proof.
  rewrite resolveConflicts_buckets, !in_app_iff. split.
  - assert (Hfirst : forall c, In s (firstOf (bucket c alerts)) ->
                               exists r, bucket (categoryOf s) alerts = s :: r).
    { intros c Hin. destruct (bucket c alerts) as [|a r] eqn:Hb; [ destruct Hin | ].
      destruct Hin as [<- | []].
      assert (Hc : inCategory c a = true).
      { apply (proj1 (filter_In (inCategory c) a alerts)).
        fold (bucket c alerts). rewrite Hb. now left. }
      apply Category_eqb_eq in Hc. rewrite Hc. eauto. }
    intros [H | [H | [H | H]]]; eapply Hfirst; exact H.
  - intros (r & Hb).
    destruct (categoryOf s); rewrite Hb; simpl; auto.
Qed.

(** The survivor of a category is the first alert of that category in the
    list. *)
Lemma survivor_is_first (alerts : list Alert.t) (s : Alert.t) :
  In s (resolveConflicts alerts) ->
  exists l1 l2, alerts = (l1 ++ s :: l2)%list
                /\ (forall y, In y l1 -> categoryOf y <> categoryOf s).
Proof.
  rewrite resolveConflicts_In. intros (r & Hb).
  destruct (filter_head _ _ _ _ Hb) as (l1 & l2 & -> & _ & Hl1).
  exists l1, l2. split; [ reflexivity | ].
  intros y Hy Heq. specialize (Hl1 y Hy). unfold inCategory in Hl1.
  rewrite Heq in Hl1.
  now rewrite (proj2 (Category_eqb_eq _ _) eq_refl) in Hl1.
Qed.

Lemma category_has_survivor (alerts : list Alert.t) (c : Alert.t) :
  In c alerts ->
  exists s, In s (resolveConflicts alerts) /\ categoryOf s = categoryOf c.
Proof.
  intros Hin.
  assert (Hc : In c (bucket (categoryOf c) alerts)).
  { apply filter_In. split; [ exact Hin | ]. now apply Category_eqb_eq. }
  destruct (bucket (categoryOf c) alerts) as [|s r] eqn:Hb; [ destruct Hc | ].
  assert (Hs : categoryOf s = categoryOf c).
  { apply Category_eqb_eq.
    apply (proj1 (filter_In (inCategory (categoryOf c)) s alerts)).
    fold (bucket (categoryOf c) alerts). rewrite Hb. now left. }
  exists s. split; [ | exact Hs ].
  apply resolveConflicts_In. rewrite Hs. eauto.
Qed.

Lemma byPriority_trans : Relations_1.Transitive byPriority.
Proof. intros a b c. unfold byPriority. lia. Qed.

Lemma sorted_after (l1 l2 : list Alert.t) (s c : Alert.t) :
  Sorted byPriority (l1 ++ s :: l2)%list -> In c (s :: l2) -> byPriority s c.
Proof.
  intros Hs Hin. apply Sorted_StronglySorted in Hs; [ | exact byPriority_trans ].
  induction l1 as [|a l1 IH]; simpl in Hs.
  - inversion Hs as [|? ? _ Hall]; subst.
    destruct Hin as [<- | Hin]; [ unfold byPriority; lia | ].
    rewrite List.Forall_forall in Hall. now apply Hall.
  - inversion Hs; subst. now apply IH.
Qed.

Lemma insertByPriority_sorted (a : Alert.t) (l : list Alert.t) :
  Sorted byPriority l -> Sorted byPriority (insertByPriority a l).
Proof.
  induction 1 as [|b l Hl IH Hb]; simpl.
  - repeat constructor.
  - destruct (Alert.priority a <=? Alert.priority b)%Z eqn:Hab.
    + constructor; [ now constructor | ].
      constructor. unfold byPriority. lia.
    + constructor; [ exact IH | ].
      destruct l as [|c l]; simpl.
      * constructor. unfold byPriority. lia.
      * destruct (Alert.priority a <=? Alert.priority c)%Z;
          constructor; [ unfold byPriority; lia | now inversion Hb ].
Qed.

Lemma sortByPriority_sorted (l : list Alert.t) :
  Sorted byPriority (sortByPriority l).
Proof.
  induction l as [|a l IH]; simpl; [ constructor | ].
  now apply insertByPriority_sorted.
Qed.

Lemma evaluateAlerts_sorted (signals : Signals.t) (now : Z) (isoNow : string) :
  Sorted byPriority (evaluateAlerts signals now isoNow).
Proof. apply sortByPriority_sorted. Qed.

End ResolveConflictsFacts.

Section ResolveConflictsSurvivors.
Import AlertRuleEngine Fixtures.

Lemma one_per_category (alerts : list Alert.t) (c : Category) :
  (length (bucket c (resolveConflicts alerts)) <= 1)%nat.
Proof.
  unfold bucket at 1. rewrite resolveConflicts_buckets.
  rewrite !List.filter_app, !filter_firstOf.
  destruct c; simpl; rewrite ?app_nil_r; apply length_firstOf.
Qed.

Lemma at_most_four (alerts : list Alert.t) :
  (length (resolveConflicts alerts) <= 4)%nat.
Proof.
  rewrite resolveConflicts_buckets, !length_app.
  pose proof (length_firstOf (bucket Disease alerts)).
  pose proof (length_firstOf (bucket Environmental alerts)).
  pose proof (length_firstOf (bucket Economical alerts)).
  pose proof (length_firstOf (bucket System alerts)).
  lia.
Qed.

(** On a list in ascending priority order the first alert of a category
    has the least priority number of the category. *)
Lemma survivor_min_priority (alerts : list Alert.t) (s c : Alert.t) :
  Sorted byPriority alerts ->
  In s (resolveConflicts alerts) ->
  In c alerts ->
  categoryOf c = categoryOf s ->
  (Alert.priority s <= Alert.priority c)%Z.
Proof.
  intros Hsorted Hs Hc Hcat.
  destruct (survivor_is_first alerts s Hs) as (l1 & l2 & -> & Hl1).
  apply in_app_or in Hc as [Hc | Hc].
  - now destruct (Hl1 c Hc).
  - exact (sorted_after l1 l2 s c Hsorted Hc).
Qed.

(** C4, as the code has it.  [resolveConflicts] returns at most one alert
    per category, hence at most four; every category of the input has a
    survivor, which is the first alert of that category in the input; and
    when the input is in ascending priority order, as [evaluateAlerts]
    returns it, the survivor has the least priority number among the
    alerts of its category. *)
Theorem resolveConflicts_survivors (alerts : list Alert.t) :
  (forall c, (length (bucket c (resolveConflicts alerts)) <= 1)%nat)
  /\ (length (resolveConflicts alerts) <= 4)%nat
  /\ (forall c, In c alerts ->
        exists s, In s (resolveConflicts alerts) /\ categoryOf s = categoryOf c)
  /\ (forall s, In s (resolveConflicts alerts) ->
        exists l1 l2, alerts = (l1 ++ s :: l2)%list
                      /\ (forall y, In y l1 -> categoryOf y <> categoryOf s))
  /\ (Sorted byPriority alerts ->
      forall s c, In s (resolveConflicts alerts) -> In c alerts ->
                  categoryOf c = categoryOf s ->
                  (Alert.priority s <= Alert.priority c)%Z).
Proof.
  split; [ apply one_per_category | ].
  split; [ apply at_most_four | ].
  split; [ apply category_has_survivor | ].
  split; [ apply survivor_is_first | ].
  intros Hsorted s c. now apply survivor_min_priority.
Qed.

(** After the rule engine the precondition holds: the survivors of
    [resolveConflicts (evaluateAlerts signals)] are the most urgent alerts
    of their categories. *)
Lemma resolve_after_evaluate (signals : Signals.t) (now : Z) (isoNow : string)
    (s c : Alert.t) :
  In s (resolveConflicts (evaluateAlerts signals now isoNow)) ->
  In c (evaluateAlerts signals now isoNow) ->
  categoryOf c = categoryOf s ->
  (Alert.priority s <= Alert.priority c)%Z.
Proof. apply survivor_min_priority, evaluateAlerts_sorted. Qed.

(** C4 as stated fails on a list that is not sorted: the survivor of the
    disease category is the first alert, of priority 2, while the second
    has priority 1. *)
Lemma resolveConflicts_counterexample :
  exists s c,
    In s (resolveConflicts unsortedAlerts)
    /\ In c unsortedAlerts
    /\ categoryOf c = categoryOf s
    /\ (Alert.priority c < Alert.priority s)%Z.
Proof.
  exists (alertWith "RULE_002" "⚠️ Infection Spreading" 2),
         (alertWith "RULE_001" "🚨 Disease Outbreak Detected" 1).
  split; [ vm_compute; now left | ].
  split; [ right; now left | ].
  split; [ reflexivity | reflexivity ].
Qed.

Lemma resolveConflicts_survivors_witness :
  Sorted byPriority sortedAlerts
  /\ map Alert.ruleId (resolveConflicts sortedAlerts) = ["RULE_001"; "RULE_004"]
  /\ (forall s c, In s (resolveConflicts sortedAlerts) -> In c sortedAlerts ->
                  categoryOf c = categoryOf s ->
                  (Alert.priority s <= Alert.priority c)%Z).
Proof.
  assert (Hsorted : Sorted byPriority sortedAlerts).
  { unfold sortedAlerts, byPriority.
    repeat constructor; simpl; lia. }
  split; [ exact Hsorted | ].
  split; [ reflexivity | ].
  exact (proj2 (proj2 (proj2 (proj2 (resolveConflicts_survivors sortedAlerts))))
               Hsorted).
Defined.

End ResolveConflictsSurvivors.

(** ** The debouncer *)

Section DebouncerFacts.
Import AlertRuleEngine AlertRuleEngine.AlertDebouncer.

Lemma shouldShowAlert_first (d : AlertDebouncer.t) (now : Z) (alert : Alert.t) :
  recentAlerts d !! key alert = None ->
  shouldShowAlert d now alert
  = (true, {| recentAlerts := <[key alert := now]> (recentAlerts d);
              windowMs := windowMs d |}).
Proof. intros H. unfold shouldShowAlert. now rewrite H. Qed.

Lemma shouldShowAlert_within (d : AlertDebouncer.t) (now shown : Z) (alert : Alert.t) :
  recentAlerts d !! key alert = Some shown ->
  shown <> 0%Z ->
  (now - shown <= windowMs d)%Z ->
  shouldShowAlert d now alert = (false, d).
Proof.
  intros H Hnz Hw. unfold shouldShowAlert. rewrite H.
  rewrite (proj2 (Z.eqb_neq shown 0) Hnz).
  now rewrite (proj2 (Z.ltb_ge (windowMs d) (now - shown)) Hw).
Qed.

Lemma shouldShowAlert_after (d : AlertDebouncer.t) (now shown : Z) (alert : Alert.t) :
  recentAlerts d !! key alert = Some shown ->
  (windowMs d < now - shown)%Z ->
  shouldShowAlert d now alert
  = (true, {| recentAlerts := <[key alert := now]> (recentAlerts d);
              windowMs := windowMs d |}).
Proof.
  intros H Hw. unfold shouldShowAlert. rewrite H.
  rewrite (proj2 (Z.ltb_lt (windowMs d) (now - shown)) Hw).
  now rewrite orb_true_r.
Qed.

(** An entry of [0] counts as no entry: a key emitted at clock reading 0
    is emitted again at once. *)
Lemma shouldShowAlert_zero_entry (d : AlertDebouncer.t) (now : Z) (alert : Alert.t) :
  recentAlerts d !! key alert = Some 0%Z ->
  fst (shouldShowAlert d now alert) = true.
Proof. intros H. unfold shouldShowAlert. now rewrite H. Qed.

(** C5. For alerts of one key and a debouncer that has not seen the key:
    the first call is allowed and records its clock reading; a second
    call no later than the window after it is refused and leaves the
    debouncer as it was; a third call later than the window after the
    first is allowed and records its own reading.  The window of the
    exported debouncer is 30000 ms.  Clock readings are those of
    [Date.now()]; the first is not the epoch itself, whose reading 0
    would count as no entry. *)
Theorem debounce_window (d0 : AlertDebouncer.t) (a1 a2 a3 : Alert.t) (t1 t2 t3 : Z) :
  recentAlerts d0 !! key a1 = None ->
  key a2 = key a1 ->
  key a3 = key a1 ->
  t1 <> 0%Z ->
  (t2 - t1 <= windowMs d0)%Z ->
  (windowMs d0 < t3 - t1)%Z ->
  let r1 := shouldShowAlert d0 t1 a1 in
  let r2 := shouldShowAlert (snd r1) t2 a2 in
  let r3 := shouldShowAlert (snd r2) t3 a3 in
  windowMs alertDebouncer = 30000%Z
  /\ fst r1 = true /\ fst r2 = false /\ fst r3 = true
  /\ recentAlerts (snd r1) !! key a1 = Some t1
  /\ snd r2 = snd r1
  /\ recentAlerts (snd r3) !! key a1 = Some t3.
Proof.
  intros Hnew Hk2 Hk3 Ht1 Hin Hout r1 r2 r3.
  assert (E1 : r1 = (true, {| recentAlerts := <[key a1 := t1]> (recentAlerts d0);
                              windowMs := windowMs d0 |})).
  { now apply shouldShowAlert_first. }
  assert (L1 : recentAlerts (snd r1) !! key a1 = Some t1).
  { rewrite E1. simpl. apply lookup_insert_eq. }
  assert (W1 : windowMs (snd r1) = windowMs d0) by now rewrite E1.
  assert (E2 : r2 = (false, snd r1)).
  { subst r2. apply shouldShowAlert_within with (shown := t1).
    - now rewrite Hk2.
    - exact Ht1.
    - now rewrite W1. }
  assert (E3 : r3 = (true, {| recentAlerts := <[key a3 := t3]> (recentAlerts (snd r1));
                              windowMs := windowMs (snd r1) |})).
  { subst r3. rewrite E2. simpl. apply shouldShowAlert_after with (shown := t1).
    - now rewrite Hk3.
    - now rewrite W1. }
  split; [ reflexivity | ].
  split; [ now rewrite E1 | ].
  split; [ now rewrite E2 | ].
  split; [ now rewrite E3 | ].
  split; [ exact L1 | ].
  split; [ now rewrite E2 | ].
  rewrite E3, Hk3. simpl. apply lookup_insert_eq.
Qed.

Lemma debounce_window_witness :
  let a := Fixtures.alertWith "RULE_004" "🌡️ Heat Stress Risk" 2 in
  let r1 := shouldShowAlert alertDebouncer 1700000000000 a in
  let r2 := shouldShowAlert (snd r1) 1700000030000 a in
  let r3 := shouldShowAlert (snd r2) 1700000030001 a in
  fst r1 = true /\ fst r2 = false /\ fst r3 = true
  /\ recentAlerts (snd r2) !! key a = Some 1700000000000%Z
  /\ recentAlerts (snd r3) !! key a = Some 1700000030001%Z.
Proof.
  destruct (debounce_window alertDebouncer
              (Fixtures.alertWith "RULE_004" "🌡️ Heat Stress Risk" 2)
              (Fixtures.alertWith "RULE_004" "🌡️ Heat Stress Risk" 2)
              (Fixtures.alertWith "RULE_004" "🌡️ Heat Stress Risk" 2)
              1700000000000 1700000030000 1700000030001)
    as (_ & H1 & H2 & H3 & L1 & S2 & L3).
  - reflexivity.
  - reflexivity.
  - reflexivity.
  - lia.
  - simpl; lia.
  - simpl; lia.
  - cbv zeta. rewrite S2. repeat split; assumption.
Defined.

End DebouncerFacts.

(** ** The spray path *)

Section PlannerFacts.
Import FieldGrid PathPlanner.

Variables Math_sin Math_cos Math_sqrt : number -> number.
Variable Math_atan2 : number -> number -> number.
Variable Math_PI : number.

Local Abbreviation distance :=
  (calculateDistance Math_sin Math_cos Math_sqrt Math_atan2 Math_PI).
Local Abbreviation scan :=
  (scanNearest Math_sin Math_cos Math_sqrt Math_atan2 Math_PI).
Local Abbreviation visit :=
  (visitAll Math_sin Math_cos Math_sqrt Math_atan2 Math_PI).
Local Abbreviation plan :=
  (generateSprayPath Math_sin Math_cos Math_sqrt Math_atan2 Math_PI).
Local Abbreviation finite :=
  (distancesFinite Math_sin Math_cos Math_sqrt Math_atan2 Math_PI).
Local Abbreviation route :=
  (routeDistance Math_sin Math_cos Math_sqrt Math_atan2 Math_PI).
Local Abbreviation roundTrip :=
  (roundTripDistance Math_sin Math_cos Math_sqrt Math_atan2 Math_PI).

(** What the scan returns: the state it started from, or a cell of the
    list with its place and its distance. *)
Lemma scanNearest_result (cur : LatLng) (cells : list GridCell) :
  forall (i : nat) (nearest : option (nat * GridCell)) (shortest : number),
    (scan cur cells i nearest shortest = (nearest, shortest))
    \/ (exists k cell,
          scan cur cells i nearest shortest
          = (Some ((i + k)%nat, cell), distance cur (center cell))
          /\ cells !! k = Some cell).
Proof.
  induction cells as [|c cells IH]; intros i nearest shortest; simpl.
  - now left.
  - destruct (lt (distance cur (center c)) shortest).
    + right.
      destruct (IH (S i) (Some (i, c)) (distance cur (center c)))
        as [-> | (k & cell & -> & Hk)].
      * exists 0%nat, c. now rewrite Nat.add_0_r.
      * exists (S k), cell. now rewrite Nat.add_succ_r.
    + destruct (IH (S i) nearest shortest) as [-> | (k & cell & -> & Hk)].
      * now left.
      * right. exists (S k), cell. now rewrite Nat.add_succ_r.
Qed.

Lemma scanNearest_keeps (cur : LatLng) (cells : list GridCell) :
  forall (i : nat) (nearest : option (nat * GridCell)) (shortest : number),
    is_Some nearest -> is_Some (fst (scan cur cells i nearest shortest)).
Proof.
  induction cells as [|c cells IH]; intros i nearest shortest Hsome; simpl.
  - exact Hsome.
  - destruct (lt (distance cur (center c)) shortest).
    + apply IH. eauto.
    + now apply IH.
Qed.

(** A scan from the initial state chooses a cell as soon as the first
    distance is below [Infinity]. *)
Lemma scanNearest_chooses (cur : LatLng) (c : GridCell) (cells : list GridCell) :
  lt (distance cur (center c)) PInf = true ->
  exists k cell,
    scan cur (c :: cells) 0 None PInf = (Some (k, cell), distance cur (center cell))
    /\ (c :: cells) !! k = Some cell.
Proof.
  intros Hlt.
  destruct (scanNearest_result cur (c :: cells) 0 None PInf)
    as [Hnone | (k & cell & Hres & Hk)].
  - exfalso.
    assert (Hsome : is_Some (fst (scan cur (c :: cells) 0 None PInf))).
    { simpl. rewrite Hlt. apply scanNearest_keeps. eauto. }
    rewrite Hnone in Hsome. simpl in Hsome. now destruct Hsome.
  - exists k, cell. now rewrite Hres.
Qed.

Lemma distancesFinite_spec (cells : list GridCell) :
  finite cells = true ->
  forall p c,
    In p (GpsSimulator.getFieldCenter :: map center cells) ->
    In c cells ->
    lt (distance p (center c)) PInf = true.
Proof.
  unfold distancesFinite. rewrite forallb_forall. intros H p c Hp Hc.
  specialize (H p Hp). rewrite forallb_forall in H. now apply H.
Qed.

Lemma last_cons {A : Type} (a d : A) (l : list A) :
  List.last (a :: l) d = List.last l a.
Proof.
  revert a d. induction l as [|b l IH]; intros a d; [ reflexivity | ].
  change (List.last (a :: b :: l) d) with (List.last (b :: l) d).
  now rewrite !IH.
Qed.

(** The loop visits every cell of [unvisited] once, in some order, when
    the distances are below [Infinity] and the fuel covers the cells. *)
Lemma visitAll_complete (infected : list GridCell) :
  finite infected = true ->
  forall (fuel : nat) (unvisited : list GridCell) (cur : LatLng)
         (total : number) (path : list Waypoint),
    (forall c, In c unvisited -> In c infected) ->
    In cur (GpsSimulator.getFieldCenter :: map center infected) ->
    (length unvisited <= fuel)%nat ->
    exists visited,
      visit fuel unvisited cur total path
      = Some ((path ++ map toWaypoint visited)%list,
              route cur (map center visited) total,
              List.last (map center visited) cur)
      /\ Permutation visited unvisited.
Proof.
  intros Hfin.
  induction fuel as [|fuel IH]; intros unvisited cur total path Hincl Hcur Hlen.
  - destruct unvisited as [|c rest]; [ | simpl in Hlen; lia ].
    exists []. simpl. now rewrite app_nil_r.
  - destruct unvisited as [|c rest].
    { exists []. simpl. now rewrite app_nil_r. }
    destruct (scanNearest_chooses cur c rest) as (k & cell & Hscan & Hk).
    { apply (distancesFinite_spec infected Hfin); [ exact Hcur | ].
      apply Hincl. now left. }
    assert (Hcell : In cell (c :: rest)).
    { apply list_elem_of_In. eapply list_elem_of_lookup_2. exact Hk. }
    destruct (IH (delete k (c :: rest)) (center cell)
                 (add total (distance cur (center cell)))
                 (path ++ [toWaypoint cell])%list)
      as (visited & Hvisit & Hperm).
    + intros x Hx. apply Hincl. apply list_elem_of_In.
      eapply list_elem_of_delete_inv. apply list_elem_of_In. exact Hx.
    + right. apply in_map. now apply Hincl.
    + rewrite length_delete by eauto. simpl in *. lia.
    + exists (cell :: visited). split.
      * change (visit (S fuel) (c :: rest) cur total path)
          with (match scan cur (c :: rest) 0%nat None PInf with
                | (Some (i, nearestCell), shortestDistance) =>
                    visit fuel (delete i (c :: rest)) (center nearestCell)
                          (add total shortestDistance)
                          (path ++ [toWaypoint nearestCell])%list
                | (None, _) => visit fuel (c :: rest) cur total path
                end).
        rewrite Hscan, Hvisit. rewrite <- app_assoc. simpl map.
        now rewrite last_cons.
      * rewrite (delete_Permutation (c :: rest) k cell Hk).
        now apply perm_skip.
Qed.

(** Without any assumption on the distances: whatever the loop returns
    extends the path it was given by the cells it visited, and the total
    and the position it returns are those of that route. *)
Lemma visitAll_route :
  forall (fuel : nat) (unvisited : list GridCell) (cur : LatLng)
         (total : number) (path path' : list Waypoint)
         (total' : number) (cur' : LatLng),
    visit fuel unvisited cur total path = Some (path', total', cur') ->
    exists added,
      path' = (path ++ added)%list
      /\ (unvisited <> [] -> added <> [])
      /\ total' = route cur (map position added) total
      /\ cur' = List.last (map position added) cur.
Proof.
  induction fuel as [|fuel IH]; intros unvisited cur total path path' total' cur'.
  - destruct unvisited; simpl; [ | discriminate ].
    intros [= <- <- <-]. exists []. now rewrite app_nil_r.
  - destruct unvisited as [|c rest].
    { simpl. intros [= <- <- <-]. exists []. now rewrite app_nil_r. }
    change (visit (S fuel) (c :: rest) cur total path)
      with (match scan cur (c :: rest) 0%nat None PInf with
            | (Some (i, nearestCell), shortestDistance) =>
                visit fuel (delete i (c :: rest)) (center nearestCell)
                      (add total shortestDistance)
                      (path ++ [toWaypoint nearestCell])%list
            | (None, _) => visit fuel (c :: rest) cur total path
            end).
    destruct (scanNearest_result cur (c :: rest) 0 None PInf)
      as [-> | (k & cell & -> & Hk)]; intros H.
    + exact (IH _ _ _ _ _ _ _ H).
    + apply IH in H as (added & -> & _ & -> & ->).
      exists (toWaypoint cell :: added). rewrite <- app_assoc.
      split; [ reflexivity | ]. split; [ discriminate | ].
      split; [ reflexivity | ]. simpl map. now rewrite last_cons.
Qed.

Lemma routeDistance_snoc (l : list LatLng) (p : LatLng) :
  forall (from : LatLng) (acc : number),
    route from (l ++ [p])%list acc
    = add (route from l acc) (distance (List.last l from) p).
Proof.
  induction l as [|a l IH]; intros from acc; [ reflexivity | ].
  rewrite last_cons. simpl. apply IH.
Qed.

Lemma getInfectedCells_nil (grid : Grid) :
  (length (getInfectedCells grid) =? 0)%nat = true <-> getInfectedCells grid = [].
Proof.
  rewrite Nat.eqb_eq. destruct (getInfectedCells grid); simpl; split;
    congruence.
Qed.

(** The distance and the time that the planner reports are those of the
    round trip through its waypoints, the distance rounded to one
    decimal. *)
Lemma generateSprayPath_totalDistance (grid : Grid) (fuel : nat) (r : SprayPath) :
  plan fuel grid = Some r ->
  pathExists r = true ->
  totalDistance r = parseFloat (toFixed 1 (roundTrip (waypoints r)))
  /\ estimatedTime r
     = Math_ceil (add (div (roundTrip (waypoints r)) (ofZ 5))
                      (ofNat (length (waypoints r) * 3))).
Proof.
  unfold generateSprayPath.
  destruct (length (getInfectedCells grid) =? 0)%nat.
  { intros [= <-]. discriminate. }
  destruct (visit fuel (getInfectedCells grid) GpsSimulator.getFieldCenter
                  (ofZ 0) []) as [[[path total] cur]|] eqn:Hv; [ | discriminate ].
  intros [= <-] _. cbn [totalDistance estimatedTime waypoints].
  apply visitAll_route in Hv as (added & -> & _ & -> & ->).
  unfold roundTripDistance. rewrite routeDistance_snoc. simpl app.
  split; reflexivity.
Qed.

(** C6. [generateSprayPath] returns the result without a path, that is
    no waypoint, distance 0, time 0 and [pathExists] false, exactly when
    no cell of the grid is infected; on such a grid it returns it before
    the loop, whatever the fuel. *)
Theorem no_path_iff_no_infection (grid : Grid) (fuel : nat) :
  (waypoints noPath = [] /\ totalDistance noPath = ofZ 0
   /\ estimatedTime noPath = ofZ 0 /\ pathExists noPath = false)
  /\ (getInfectedCells grid = [] -> plan fuel grid = Some noPath)
  /\ (plan fuel grid = Some noPath -> getInfectedCells grid = [])
  /\ (forall r, plan fuel grid = Some r ->
                (pathExists r = false <-> getInfectedCells grid = [])
                /\ (waypoints r = [] <-> getInfectedCells grid = [])).
Proof.
  split; [ repeat split | ].
  assert (Hempty : getInfectedCells grid = [] -> plan fuel grid = Some noPath).
  { intros H. unfold generateSprayPath. now rewrite H. }
  assert (Hsome : forall r, plan fuel grid = Some r ->
                            getInfectedCells grid <> [] ->
                            pathExists r = true /\ waypoints r <> []).
  { intros r Hr Hne. unfold generateSprayPath in Hr.
    destruct (length (getInfectedCells grid) =? 0)%nat eqn:Hlen.
    { now apply getInfectedCells_nil in Hlen. }
    destruct (visit fuel (getInfectedCells grid) GpsSimulator.getFieldCenter
                    (ofZ 0) []) as [[[path total] cur]|] eqn:Hv; [ | discriminate ].
    injection Hr as <-. split; [ reflexivity | ].
    apply visitAll_route in Hv as (added & -> & Hadded & _). simpl.
    now apply Hadded. }
  split; [ exact Hempty | ].
  split.
  - intros Hr. destruct (getInfectedCells grid) as [|c l] eqn:Hinf; [ reflexivity | ].
    destruct (Hsome noPath Hr) as [Hp _]; [ discriminate | discriminate Hp ].
  - intros r Hr.
    destruct (getInfectedCells grid) as [|c l] eqn:Hinf.
    + rewrite (Hempty eq_refl) in Hr. injection Hr as <-. now split.
    + destruct (Hsome r Hr) as [Hp Hw]; [ discriminate | ].
      rewrite Hp. split; split; intros H; try discriminate H.
      now destruct Hw.
Qed.

Lemma generateSprayPath_returns (grid : Grid) (fuel : nat) :
  getInfectedCells grid <> [] ->
  finite (getInfectedCells grid) = true ->
  (length (getInfectedCells grid) <= fuel)%nat ->
  exists r, plan fuel grid = Some r /\ pathExists r = true.
Proof.
  intros Hne Hfin Hfuel.
  destruct (visitAll_complete (getInfectedCells grid) Hfin fuel
              (getInfectedCells grid) GpsSimulator.getFieldCenter (ofZ 0) [])
    as (visited & Hv & _); [ auto | now left | exact Hfuel | ].
  unfold generateSprayPath.
  destruct (length (getInfectedCells grid) =? 0)%nat eqn:Hlen.
  { now apply getInfectedCells_nil in Hlen. }
  rewrite Hv. eexists. split; reflexivity.
Qed.

(** The assumption on the distances is needed: when no distance from the
    current position is below [Infinity], an iteration changes nothing
    and the loop does not end. *)
Lemma scanNearest_none (cur : LatLng) (cells : list GridCell) :
  (forall c, In c cells -> lt (distance cur (center c)) PInf = false) ->
  forall i, scan cur cells i None PInf = (None, PInf).
Proof.
  induction cells as [|c cells IH]; intros Hall i; simpl; [ reflexivity | ].
  rewrite (Hall c) by now left.
  apply IH. intros c' Hc'. apply Hall. now right.
Qed.

Lemma visitAll_never_returns (unvisited : list GridCell) (cur : LatLng)
    (total : number) (path : list Waypoint) :
  unvisited <> [] ->
  (forall c, In c unvisited -> lt (distance cur (center c)) PInf = false) ->
  forall fuel, visit fuel unvisited cur total path = None.
Proof.
  intros Hne Hall fuel.
  induction fuel as [|fuel IH]; destruct unvisited as [|c rest]; try congruence.
  - reflexivity.
  - change (visit (S fuel) (c :: rest) cur total path)
      with (match scan cur (c :: rest) 0%nat None PInf with
            | (Some (i, nearestCell), shortestDistance) =>
                visit fuel (delete i (c :: rest)) (center nearestCell)
                      (add total shortestDistance)
                      (path ++ [toWaypoint nearestCell])%list
            | (None, _) => visit fuel (c :: rest) cur total path
            end).
    rewrite (scanNearest_none cur (c :: rest) Hall). exact IH.
Qed.

(** C7, as the code has it.  On a grid with an infected cell the planner
    returns, as [totalDistance], the haversine length (Earth radius
    6371000 m) of the round trip through its waypoints, launch point to
    first waypoint, waypoint to waypoint and back to the launch point,
    after [toFixed(1)]: the sum of the legs rounded to one decimal, which
    is within 0.05 m of the sum and not the sum itself. *)
Theorem total_distance_is_rounded_round_trip (grid : Grid) (fuel : nat) :
  getInfectedCells grid <> [] ->
  finite (getInfectedCells grid) = true ->
  (length (getInfectedCells grid) <= fuel)%nat ->
  exists r,
    plan fuel grid = Some r
    /\ pathExists r = true
    /\ roundTrip (waypoints r)
       = route GpsSimulator.getFieldCenter
               (map position (waypoints r) ++ [GpsSimulator.getFieldCenter])
               (ofZ 0)
    /\ totalDistance r = parseFloat (toFixed 1 (roundTrip (waypoints r)))
    /\ (forall sum : Q,
          roundTrip (waypoints r) = Fin sum ->
          totalDistance r = Fin (roundedTo 1 sum)
          /\ (Qabs (roundedTo 1 sum - sum) <= 1 # 20)%Q).
Proof.
  intros Hne Hfin Hfuel.
  destruct (generateSprayPath_returns grid fuel Hne Hfin Hfuel) as (r & Hr & Hp).
  pose proof (proj1 (generateSprayPath_totalDistance grid fuel r Hr Hp)) as Htotal.
  exists r. split; [ exact Hr | ]. split; [ exact Hp | ].
  split; [ reflexivity | ]. split; [ exact Htotal | ].
  intros sum Hsum. rewrite Htotal, Hsum, parseFloat_toFixed.
  split; [ reflexivity | ].
  pose proof (roundedTo_close 1 sum) as Hclose.
  change (inject_Z (10 ^ Z.of_nat 1)) with (10 # 1)%Q in Hclose. lra.
Qed.


End PlannerFacts.

(** ** Grids built by the zone mapper *)

Section ZoneMapperFacts.
Import FieldGrid InfectedZones.

Lemma markInRow_ids (point : LatLng) (detId : string) (cells cells' : list GridCell) :
  markInRow point detId cells = Some cells' ->
  map id cells' = map id cells.
Proof.
  revert cells'. induction cells as [|c cells IH]; intros cells'; simpl.
  - discriminate.
  - destruct (isPointInCell point c).
    + intros [= <-]. reflexivity.
    + destruct (markInRow point detId cells) as [r|]; simpl; [ | discriminate ].
      intros [= <-]. simpl. f_equal. now apply IH.
Qed.

Lemma markCellForPoint_ids (point : LatLng) (detId : string) (grid : Grid) :
  map id (flattenGrid (markCellForPoint point detId grid))
  = map id (flattenGrid grid).
Proof.
  unfold flattenGrid. induction grid as [|r grid IH]; simpl; [ reflexivity | ].
  destruct (markInRow point detId r) as [r'|] eqn:Hr; simpl.
  - rewrite !map_app. now rewrite (markInRow_ids _ _ _ _ Hr).
  - rewrite !map_app. now rewrite IH.
Qed.

(** Mapping detections changes no id: the grid keeps the ids of
    [createFieldGrid], which are pairwise different. *)
Lemma mapDetectionsToGrid_ids (detections : list Detection) :
  map id (flattenGrid (mapDetectionsToGrid detections))
  = map id (flattenGrid createFieldGrid).
Proof.
  unfold mapDetectionsToGrid. generalize createFieldGrid as grid.
  induction detections as [|d detections IH]; intros grid; simpl; [ reflexivity | ].
  rewrite IH. unfold mapDetection.
  destruct (gps d); [ apply markCellForPoint_ids | reflexivity ].
Qed.

Lemma createFieldGrid_ids : List.NoDup (map id (flattenGrid createFieldGrid)).
Proof.
  apply NoDup_ListNoDup. apply (bool_decide_unpack _). vm_compute. reflexivity.
Qed.

Lemma NoDup_map_filter {A B : Type} (f : A -> B) (p : A -> bool) (l : list A) :
  List.NoDup (map f l) -> List.NoDup (map f (List.filter p l)).
Proof.
  induction l as [|a l IH]; simpl; [ auto | ].
  intros H. inversion H as [|? ? Hnotin Hrest]; subst.
  destruct (p a); simpl; [ | now apply IH ].
  constructor; [ | now apply IH ].
  intros Hin. apply Hnotin. apply in_map_iff in Hin as (x & Hx & Hin).
  apply filter_In in Hin as [Hin _]. rewrite <- Hx. now apply in_map.
Qed.

Lemma mapped_infected_ids (detections : list Detection) :
  List.NoDup (map id (getInfectedCells (mapDetectionsToGrid detections))).
Proof.
  unfold getInfectedCells. apply NoDup_map_filter.
  rewrite mapDetectionsToGrid_ids. apply createFieldGrid_ids.
Qed.

End ZoneMapperFacts.

(** ** The planner on the fixture field *)

Section PlannerExamples.
Import FieldGrid InfectedZones PathPlanner Fixtures.

Lemma no_path_iff_no_infection_witness :
  getInfectedCells createFieldGrid = []
  /\ sprayPathQ 0 createFieldGrid = Some noPath
  /\ getInfectedCells sprayGrid <> []
  /\ sprayPathQ 3 sprayGrid <> Some noPath.
Proof.
  assert (H : getInfectedCells createFieldGrid = []) by (vm_compute; reflexivity).
  split; [ exact H | ].
  split.
  - exact (proj1 (proj2 (no_path_iff_no_infection
                           sinQ cosQ sqrtQ atan2Q piQ createFieldGrid 0)) H).
  - assert (Hinf : getInfectedCells sprayGrid <> [])
      by (vm_compute; discriminate).
    split; [ exact Hinf | ].
    intros Hno. apply Hinf.
    exact (proj1 (proj2 (proj2 (no_path_iff_no_infection
                                  sinQ cosQ sqrtQ atan2Q piQ sprayGrid 3))) Hno).
Defined.



(** The path over the three infected cells of [sprayGrid]: 385.1 m
    reported, 87 s estimated. *)
Lemma sprayGrid_path :
  option_map (fun r => (map cellId (waypoints r), map detectionCount (waypoints r),
                        totalDistance r, estimatedTime r))
             (sprayPathQ 3 sprayGrid)
  = Some (["6_6"; "2_7"; "7_1"], [2; 1; 1]%nat, Fin (3851 # 10), ofZ 87).
Proof. vm_compute. reflexivity. Qed.

(** C7 as stated fails there: the legs add up to 385.063... m and the
    planner reports 385.1 m, more than a centimetre above the sum. *)
Lemma total_distance_counterexample :
  exists r,
    sprayPathQ 3 sprayGrid = Some r
    /\ getInfectedCells sprayGrid <> []
    /\ totalDistance r = Fin (3851 # 10)
    /\ toFixed 6 (roundTripQ (waypoints r)) = "385.063059"
    /\ lt (add (roundTripQ (waypoints r)) (Fin (1 # 100))) (totalDistance r) = true
    /\ totalDistance r <> roundTripQ (waypoints r).
Proof.
  eexists. split; [ vm_compute; reflexivity | ].
  split; [ vm_compute; discriminate | ].
  split; [ reflexivity | ].
  split; [ vm_compute; reflexivity | ].
  split; [ vm_compute; reflexivity | ].
  vm_compute. discriminate.
Qed.

Lemma total_distance_is_rounded_round_trip_witness :
  exists r,
    sprayPathQ 3 sprayGrid = Some r
    /\ totalDistance r = parseFloat (toFixed 1 (roundTripQ (waypoints r))).
Proof.
  destruct (total_distance_is_rounded_round_trip
              sinQ cosQ sqrtQ atan2Q piQ sprayGrid 3)
    as (r & Hr & _ & _ & Htotal & _).
  - vm_compute. discriminate.
  - vm_compute. reflexivity.
  - vm_compute. lia.
  - exists r. split; [ exact Hr | exact Htotal ].
Defined.

End PlannerExamples.

(** ** A sensor snapshot of zeros *)

Section SensorExamples.
Import AlertRuleEngine Fixtures.

Lemma zero_reading_takes_default_witness :
  let signals := extractSignals [] None None None (Some drySensor) "" in
  Signals.soilMoisture signals = ofZ 50
  /\ lt (Signals.soilMoisture signals) (ofZ 20) = false
  /\ Rule.condition DecisionRules.RULE_003 signals = false
  /\ Signals.soilTemperature signals = ofZ 25
  /\ Signals.airHumidity signals = ofZ 60.
Proof.
  destruct (zero_reading_takes_default [] None None "" None drySensor 0)
    as (Hm & Ht & Hh); [ reflexivity | ].
  destruct (Hm eq_refl) as (Hm1 & Hm2 & Hm3).
  cbv zeta. split; [ exact Hm1 | ]. split; [ exact Hm2 | ].
  split; [ rewrite Hm3; reflexivity | ].
  split; [ exact (Ht eq_refl) | exact (Hh eq_refl) ].
Defined.

End SensorExamples.

(** ** The order of numbers *)

Section OrderFacts.

Lemma lt_trans (x y z : number) : lt x y = true -> lt y z = true -> lt x z = true.
Proof.
  destruct x as [a| | |], y as [b| | |], z as [c| | |]; simpl;
    try discriminate; try reflexivity.
  unfold lt.
  destruct (a ?= b)%Q eqn:Hab; try discriminate.
  destruct (b ?= c)%Q eqn:Hbc; try discriminate.
  intros _ _. apply Qlt_alt in Hab, Hbc.
  now rewrite (proj1 (Qlt_alt a c) (Qlt_trans _ _ _ Hab Hbc)).
Qed.

Lemma lt_asym (x y : number) : lt x y = true -> lt y x = false.
Proof.
  intros H. destruct (lt y x) eqn:Hyx; [ | reflexivity ].
  pose proof (lt_trans _ _ _ H Hyx) as Hxx. now rewrite lt_irrefl in Hxx.
Qed.

End OrderFacts.

(** ** The cell of a point, and the statistics of a grid in full *)

Section FieldGridFacts.
Import FieldGrid.

Lemma findInRow_first (p : LatLng) (cells : list GridCell) :
  match findInRow p cells with
  | Some cell =>
      exists before after,
        cells = (before ++ cell :: after)%list
        /\ isPointInCell p cell = true
        /\ List.Forall (fun c => isPointInCell p c = false) before
  | None => List.Forall (fun c => isPointInCell p c = false) cells
  end.
Proof.
  induction cells as [|c cells IH]; simpl; [ constructor | ].
  destruct (isPointInCell p c) eqn:Hc.
  - exists [], cells. repeat split; [ exact Hc | constructor ].
  - destruct (findInRow p cells) as [cell|].
    + destruct IH as (before & after & -> & Hin & Hbefore).
      exists (c :: before), after. repeat split; [ exact Hin | now constructor ].
    + now constructor.
Qed.

(** X1. [findCellForPoint] returns the first cell that contains the
    point, the rows taken in order and the cells in the order of their
    row: no cell before it contains the point.  It returns nothing exactly
    when no cell of the grid contains the point. *)
Theorem findCellForPoint_first_match (p : LatLng) (grid : Grid) :
  match findCellForPoint p grid with
  | Some cell =>
      exists before after,
        flattenGrid grid = (before ++ cell :: after)%list
        /\ isPointInCell p cell = true
        /\ List.Forall (fun c => isPointInCell p c = false) before
  | None => List.Forall (fun c => isPointInCell p c = false) (flattenGrid grid)
  end.
Proof.
  unfold flattenGrid.
  induction grid as [|r grid IH]; simpl; [ constructor | ].
  pose proof (findInRow_first p r) as Hr.
  destruct (findInRow p r) as [cell|].
  - destruct Hr as (before & after & -> & Hin & Hbefore).
    exists before, (after ++ concat grid)%list.
    rewrite <- app_assoc. repeat split; assumption.
  - destruct (findCellForPoint p grid) as [cell|].
    + destruct IH as (before & after & -> & Hin & Hbefore).
      exists (r ++ before)%list, after. rewrite <- app_assoc.
      repeat split; [ exact Hin | ]. apply List.Forall_app. now split.
    + apply List.Forall_app. now split.
Qed.

End FieldGridFacts.

Section RoundingRange.

Lemma roundedTo_range (d : nat) (q : Q) (m : Z) :
  (0 <= q)%Q -> (q <= inject_Z m)%Q ->
  (0 <= roundedTo d q)%Q /\ (roundedTo d q <= inject_Z m)%Q.
Proof.
  intros H0 Hm. unfold roundedTo.
  set (p := (10 ^ Z.of_nat d)%Z).
  assert (Hp : (0 < p)%Z) by (apply Z.pow_pos_nonneg; lia).
  assert (HP : (0 < inject_Z p)%Q).
  { change 0%Q with (inject_Z 0). now rewrite <- Zlt_Qlt. }
  assert (Hlt : lt (Fin q) (Fin 0) = false).
  { unfold lt. destruct (q ?= 0)%Q eqn:Hcmp; try reflexivity.
    apply Qlt_alt in Hcmp. lra. }
  rewrite Hlt, Qred_correct.
  set (x := (Qabs q * inject_Z p + (1 # 2))%Q).
  pose proof (scaled_floor_nonneg d q) as Hn. fold p x in Hn.
  pose proof (Qfloor_le x) as Hlo.
  set (n := Qfloor x) in *.
  assert (Habs : (Qabs q == q)%Q) by (apply Qabs_pos; lra).
  assert (Hr : (Qmake n (Z.to_pos p) * inject_Z p == inject_Z n)%Q).
  { unfold Qeq, Qmult, inject_Z. cbn [Qnum Qden].
    rewrite Pos.mul_1_r, Z2Pos.id by exact Hp. lia. }
  assert (Hn' : (0 <= inject_Z n)%Q).
  { change 0%Q with (inject_Z 0). now rewrite <- Zle_Qle. }
  assert (Hup : (n <= m * p)%Z).
  { apply Z.lt_succ_r. rewrite Zlt_Qlt.
    unfold Z.succ. rewrite inject_Z_plus, inject_Z_mult.
    change (inject_Z 1) with 1%Q.
    assert (Hx : (x <= inject_Z m * inject_Z p + (1 # 2))%Q).
    { unfold x. rewrite Habs.
      pose proof (Qmult_le_compat_r q (inject_Z m) (inject_Z p) Hm) as Hmul.
      lra. }
    lra. }
  assert (Hup' : (inject_Z n <= inject_Z m * inject_Z p)%Q).
  { rewrite <- inject_Z_mult. now rewrite <- Zle_Qle. }
  split.
  - apply (Qmult_le_r _ _ (inject_Z p) HP). rewrite Hr. lra.
  - apply (Qmult_le_r _ _ (inject_Z p) HP). rewrite Hr. exact Hup'.
Qed.

End RoundingRange.

Section GridStatsMore.
Import FieldGrid.

Lemma length_filter_split {A : Type} (p : A -> bool) (l : list A) :
  (length (List.filter p l) + length (List.filter (fun x => negb (p x)) l))%nat
  = length l.
Proof.
  induction l as [|a l IH]; simpl; [ reflexivity | ].
  destruct (p a); simpl; lia.
Qed.

Lemma sub_ofNat (t i h : nat) :
  (i + h)%nat = t -> sub (ofNat t) (ofNat i) = ofNat h.
Proof.
  intros <-. unfold sub, ofNat, ofZ, neg, add, inject_Z, Qplus, Qopp.
  cbn [Qnum Qden]. f_equal. f_equal. lia.
Qed.

(** X2. The counts of [calculateGridStats]: [totalCells] is the number
    of cells of all rows, [infectedCount] the number of infected cells and
    [healthyCount] the number of cells that are not infected; the last two
    add up to the first. *)
Theorem calculateGridStats_counts (grid : Grid) :
  let stats := calculateGridStats grid in
  let healthy := List.filter (fun c => negb (infected c)) (flattenGrid grid) in
  stats !! "totalCells" = Some (ofNat (length (flattenGrid grid)))
  /\ stats !! "infectedCount" = Some (ofNat (length (getInfectedCells grid)))
  /\ stats !! "healthyCount" = Some (ofNat (length healthy))
  /\ (length (getInfectedCells grid) + length healthy)%nat
     = length (flattenGrid grid).
Proof.
  cbv zeta. unfold calculateGridStats, getInfectedCells; cbv zeta.
  split; [ now rewrite lookup_insert_eq | ].
  split; [ rewrite lookup_insert_ne by discriminate; now rewrite lookup_insert_eq | ].
  split; [ | apply length_filter_split ].
  do 2 (rewrite lookup_insert_ne by discriminate). rewrite lookup_insert_eq.
  f_equal. apply sub_ofNat. apply length_filter_split.
Qed.

Lemma calculateGridStats_chemicalSavings (grid : Grid) :
  calculateGridStats grid !! "chemicalSavings"
  = calculateGridStats grid !! "healthyPercentage".
Proof.
  unfold calculateGridStats; cbv zeta.
  rewrite !lookup_insert_ne by discriminate.
  rewrite !lookup_insert_eq.
  rewrite !lookup_insert_ne by discriminate.
  now rewrite !lookup_insert_eq.
Qed.

Lemma percentage_of_part (k n : nat) :
  (k <= n)%nat -> (0 < n)%nat ->
  exists p : Q,
    parseFloat (toFixed 1 (mul (div (ofNat k) (ofNat n)) (ofZ 100))) = Fin p
    /\ (0 <= p)%Q /\ (p <= 100)%Q
    /\ (Qabs (p - inject_Z (Z.of_nat k) / inject_Z (Z.of_nat n) * 100) <= 1 # 20)%Q.
Proof.
  intros Hk Hn.
  set (K := inject_Z (Z.of_nat k)). set (N := inject_Z (Z.of_nat n)).
  assert (HN : (0 < N)%Q).
  { unfold N. change 0%Q with (inject_Z 0). rewrite <- Zlt_Qlt. lia. }
  assert (HK : (0 <= K)%Q).
  { unfold K. change 0%Q with (inject_Z 0). rewrite <- Zle_Qle. lia. }
  assert (HKN : (K <= N)%Q).
  { unfold K, N. rewrite <- Zle_Qle. lia. }
  assert (Hdiv : div (ofNat k) (ofNat n) = Fin (K / N)).
  { unfold div, ofNat, ofZ. fold K N.
    destruct (Qeq_bool N 0) eqn:Hz; [ | reflexivity ].
    apply Qeq_bool_iff in Hz. lra. }
  rewrite Hdiv. unfold mul, ofZ. rewrite parseFloat_toFixed.
  exists (roundedTo 1 (K / N * inject_Z 100)). split; [ reflexivity | ].
  assert (Hq0 : (0 <= K / N)%Q).
  { apply Qle_shift_div_l; [ exact HN | lra ]. }
  assert (Hq1 : (K / N <= 1)%Q).
  { apply Qle_shift_div_r; [ exact HN | lra ]. }
  change (inject_Z 100) with 100%Q.
  destruct (roundedTo_range 1 (K / N * 100) 100) as [H0 H100]; [ lra | | ].
  { change (inject_Z 100) with 100%Q. lra. }
  split; [ exact H0 | ]. split; [ exact H100 | ].
  pose proof (roundedTo_close 1 (K / N * 100)) as Hclose.
  change (inject_Z (10 ^ Z.of_nat 1)) with (10 # 1)%Q in Hclose. lra.
Qed.

(** X3. For a grid with a cell, [infectedPercentage] and
    [healthyPercentage] are numbers from 0 to 100, each within 0.05 of
    the exact percentage (one decimal is kept), and [chemicalSavings] is
    the same number as [healthyPercentage]. *)
Theorem calculateGridStats_percentages (grid : Grid) :
  flattenGrid grid <> [] ->
  let stats := calculateGridStats grid in
  let total := inject_Z (Z.of_nat (length (flattenGrid grid))) in
  let part := inject_Z (Z.of_nat (length (getInfectedCells grid))) in
  exists infectedPercentage healthyPercentage : Q,
    stats !! "infectedPercentage" = Some (Fin infectedPercentage)
    /\ stats !! "healthyPercentage" = Some (Fin healthyPercentage)
    /\ stats !! "chemicalSavings" = Some (Fin healthyPercentage)
    /\ (0 <= infectedPercentage <= 100)%Q
    /\ (0 <= healthyPercentage <= 100)%Q
    /\ (Qabs (infectedPercentage - part / total * 100) <= 1 # 20)%Q
    /\ (Qabs (healthyPercentage - (total - part) / total * 100) <= 1 # 20)%Q.
Proof.
  intros Hne. cbv zeta.
  set (n := length (flattenGrid grid)).
  set (k := length (getInfectedCells grid)).
  set (h := length (List.filter (fun c => negb (infected c)) (flattenGrid grid))).
  assert (Hsum : (k + h)%nat = n) by apply length_filter_split.
  assert (Hn : (0 < n)%nat).
  { unfold n. destruct (flattenGrid grid); [ congruence | simpl; lia ]. }
  destruct (percentage_of_part k n) as (ip & Hip & Hip0 & Hip1 & Hipc); [ lia | lia | ].
  destruct (percentage_of_part h n) as (hp & Hhp & Hhp0 & Hhp1 & Hhpc); [ lia | lia | ].
  exists ip, hp.
  split; [ rewrite calculateGridStats_infectedPercentage; now f_equal | ].
  assert (Hhealthy : calculateGridStats grid !! "healthyPercentage" = Some (Fin hp)).
  { rewrite calculateGridStats_healthyPercentage. fold n k.
    rewrite (sub_ofNat n k h Hsum). now f_equal. }
  split; [ exact Hhealthy | ].
  split.
  { rewrite <- Hhealthy. apply calculateGridStats_chemicalSavings. }
  split; [ now split | ]. split; [ now split | ]. split; [ exact Hipc | ].
  assert (Heq : (inject_Z (Z.of_nat n) - inject_Z (Z.of_nat k) == inject_Z (Z.of_nat h))%Q).
  { rewrite <- Hsum, Nat2Z.inj_add, inject_Z_plus. ring. }
  now rewrite Heq.
Qed.

End GridStatsMore.

Section PercentageExamples.
Import FieldGrid.

Lemma calculateGridStats_percentages_witness :
  exists infectedPercentage healthyPercentage : Q,
    calculateGridStats Fixtures.sprayGrid !! "infectedPercentage"
    = Some (Fin infectedPercentage)
    /\ calculateGridStats Fixtures.sprayGrid !! "healthyPercentage"
       = Some (Fin healthyPercentage)
    /\ (0 <= infectedPercentage <= 100)%Q
    /\ (0 <= healthyPercentage <= 100)%Q.
Proof.
  assert (Hne : flattenGrid Fixtures.sprayGrid <> []).
  { intros H. apply (f_equal (@length _)) in H. vm_compute in H. discriminate. }
  pose proof (calculateGridStats_percentages Fixtures.sprayGrid Hne) as H.
  cbv zeta in H. destruct H as (ip & hp & H1 & H2 & _ & H3 & H4 & _).
  exists ip, hp. repeat split; solve [ assumption | apply H3 | apply H4 ].
Defined.
End PercentageExamples.

(** ** The rule table, and the alerts that are kept *)

Section RuleTableFacts.
Import AlertRuleEngine DecisionRules.

Lemma flat_map_filter {A B : Type} (p : A -> bool) (f : A -> B) (l : list A) :
  flat_map (fun x => if p x then [f x] else []) l = map f (List.filter p l).
Proof.
  induction l as [|a l IH]; simpl; [ reflexivity | ].
  destruct (p a); simpl; now rewrite IH.
Qed.

Lemma sortByPriority_sorted_id (l : list Alert.t) :
  StronglySorted byPriority l -> sortByPriority l = l.
Proof.
  induction 1 as [|a l Hl IH Ha]; [ reflexivity | ].
  unfold sortByPriority in *. cbn [foldr]. rewrite IH.
  destruct l as [|b l]; [ reflexivity | ].
  cbn [insertByPriority].
  inversion Ha as [|? ? Hab _]; subst. unfold byPriority in Hab.
  now rewrite (proj2 (Z.leb_le _ _) Hab).
Qed.

Lemma StronglySorted_filter {A : Type} (R : A -> A -> Prop) (p : A -> bool)
    (l : list A) :
  StronglySorted R l -> StronglySorted R (List.filter p l).
Proof.
  induction 1 as [|a l Hl IH Ha]; simpl; [ constructor | ].
  destruct (p a); [ | exact IH ].
  constructor; [ exact IH | ].
  apply List.Forall_forall. intros x Hx. apply filter_In in Hx as [Hx _].
  revert x Hx. now apply List.Forall_forall.
Qed.

Lemma StronglySorted_map {A B : Type} (R : B -> B -> Prop) (f : A -> B)
    (l : list A) :
  StronglySorted (fun x y => R (f x) (f y)) l -> StronglySorted R (map f l).
Proof.
  induction 1 as [|a l Hl IH Ha]; simpl; constructor; [ exact IH | ].
  apply List.Forall_forall. intros y Hy. apply in_map_iff in Hy as (x & <- & Hx).
  revert x Hx. now apply List.Forall_forall.
Qed.

Lemma DECISION_RULES_sorted :
  StronglySorted (fun r1 r2 => (Rule.priority r1 <= Rule.priority r2)%Z)
                 DECISION_RULES.
Proof.
  unfold DECISION_RULES.
  repeat (constructor; [ | repeat constructor; cbn; lia ]). constructor.
Qed.

Lemma DECISION_RULES_ids : List.NoDup (map Rule.id DECISION_RULES).
Proof.
  apply NoDup_ListNoDup. apply (bool_decide_unpack _). vm_compute. reflexivity.
Qed.

Lemma evaluateAlerts_filter (signals : Signals.t) (now : Z) (isoNow : string) :
  evaluateAlerts signals now isoNow
  = map (fun rule => createAlert rule signals now isoNow)
        (List.filter (fun rule => Rule.condition rule signals) DECISION_RULES).
Proof.
  unfold evaluateAlerts, evaluateRules. rewrite flat_map_filter.
  apply sortByPriority_sorted_id. apply StronglySorted_map.
  apply StronglySorted_filter. exact DECISION_RULES_sorted.
Qed.

(** X4. [evaluateAlerts] returns the alerts of the rules of
    [DECISION_RULES] whose condition holds, in the order of the table:
    sorting by priority moves nothing, the table being in that order.  No
    rule has two alerts, so there are ten alerts at most. *)
Theorem evaluateAlerts_table_order (signals : Signals.t) (now : Z) (isoNow : string) :
  evaluateAlerts signals now isoNow
  = map (fun rule => createAlert rule signals now isoNow)
        (List.filter (fun rule => Rule.condition rule signals) DECISION_RULES)
  /\ List.NoDup (map Alert.ruleId (evaluateAlerts signals now isoNow))
  /\ (length (evaluateAlerts signals now isoNow) <= 10)%nat.
Proof.
  split; [ apply evaluateAlerts_filter | ].
  rewrite evaluateAlerts_filter. split.
  - rewrite map_map. cbn [createAlert Alert.ruleId].
    apply NoDup_map_filter. exact DECISION_RULES_ids.
  - rewrite length_map.
    pose proof (List.filter_length_le
                  (fun rule => Rule.condition rule signals) DECISION_RULES) as H.
    exact H.
Qed.

End RuleTableFacts.

Section SurvivorFacts.
Import AlertRuleEngine DecisionRules.

Lemma filter_none {A : Type} (p : A -> bool) (l : list A) :
  (forall x, In x l -> p x = false) -> List.filter p l = [].
Proof.
  induction l as [|a l IH]; simpl; [ reflexivity | ].
  intros H. rewrite (H a) by now left. apply IH. intros x Hx. apply H. now right.
Qed.

Lemma NoDup_before {A B : Type} (f : A -> B) (before after : list A) (x y : A) :
  List.NoDup (map f (before ++ x :: after)) -> In y before -> f y <> f x.
Proof.
  rewrite map_app. cbn [map]. intros Hnd Hy Heq.
  apply NoDup_remove_2 in Hnd. apply Hnd. apply in_or_app. left.
  rewrite <- Heq. now apply in_map.
Qed.

Lemma NoDup_map_inj {A B : Type} (f : A -> B) (l : list A) (x y : A) :
  List.NoDup (map f l) -> In x l -> In y l -> f x = f y -> x = y.
Proof.
  induction l as [|a l IH]; simpl; [ tauto | ].
  intros Hnd Hx Hy Heq. inversion Hnd as [|? ? Hnotin Hrest]; subst.
  destruct Hx as [<- | Hx], Hy as [<- | Hy]; auto.
  - exfalso. apply Hnotin. rewrite Heq. now apply in_map.
  - exfalso. apply Hnotin. rewrite <- Heq. now apply in_map.
Qed.

(** Of the rules that fire, the first of each category in the order of
    the table is the one whose alert is kept. *)
Lemma survivor_iff (signals : Signals.t) (now : Z) (isoNow : string)
    (before after : list Rule.t) (rule : Rule.t) :
  DECISION_RULES = (before ++ rule :: after)%list ->
  In (createAlert rule signals now isoNow)
     (resolveConflicts (evaluateAlerts signals now isoNow))
  <-> Rule.condition rule signals = true
      /\ forall earlier,
           In earlier before ->
           categoryOf (createAlert earlier signals now isoNow)
           = categoryOf (createAlert rule signals now isoNow) ->
           Rule.condition earlier signals = false.
Proof.
  intros Htable.
  set (mk := fun r => createAlert r signals now isoNow).
  set (fires := fun r => Rule.condition r signals).
  set (c := categoryOf (mk rule)).
  pose proof DECISION_RULES_ids as Hids. rewrite Htable in Hids.
  assert (Hbucket :
            bucket c (evaluateAlerts signals now isoNow)
            = (bucket c (map mk (List.filter fires before))
               ++ (if fires rule then [mk rule] else [])
               ++ bucket c (map mk (List.filter fires after)))%list).
  { rewrite evaluateAlerts_filter, Htable. fold mk fires.
    rewrite List.filter_app, map_app. unfold bucket at 1.
    rewrite List.filter_app. fold (bucket c (map mk (List.filter fires before))).
    f_equal. cbn [List.filter]. destruct (fires rule); [ | reflexivity ].
    cbn [map List.filter]. unfold inCategory at 1. fold c.
    assert (Hc : Category_eqb c c = true) by now apply Category_eqb_eq.
    rewrite Hc. reflexivity. }
  assert (Hid : forall r, Alert.ruleId (mk r) = Rule.id r) by reflexivity.
  rewrite resolveConflicts_In.
  change (createAlert rule signals now isoNow) with (mk rule).
  change (categoryOf (mk rule)) with c. rewrite Hbucket.
  split.
  - intros (rest & Hhead).
    destruct (bucket c (map mk (List.filter fires before))) as [|a l] eqn:Hb.
    + split.
      * destruct (fires rule) eqn:Hf; [ exact Hf | ]. exfalso.
        assert (Hin : In (mk rule) (bucket c (map mk (List.filter fires after)))).
        { cbn [app] in Hhead. rewrite Hhead. now left. }
        apply filter_In in Hin as [Hin _].
        apply in_map_iff in Hin as (r' & Heq & Hr').
        apply filter_In in Hr' as [Hr' _].
        apply (f_equal Alert.ruleId) in Heq. rewrite !Hid in Heq.
        apply NoDup_ListNoDup in Hids. rewrite map_app in Hids. cbn [map] in Hids.
        apply NoDup_app in Hids as (_ & _ & Hids).
        apply NoDup_cons in Hids as [Hnotin _]. apply Hnotin.
        rewrite <- Heq. apply list_elem_of_In. now apply in_map.
      * intros earlier Hin Hcat.
        destruct (fires earlier) eqn:Hf; [ | exact Hf ]. exfalso.
        assert (Hmem : In (mk earlier) (bucket c (map mk (List.filter fires before)))).
        { apply filter_In. split.
          - apply in_map. apply filter_In. now split.
          - unfold inCategory. apply Category_eqb_eq. exact Hcat. }
        now rewrite Hb in Hmem.
    + exfalso. cbn [app] in Hhead. injection Hhead as Ha _.
      assert (Hin : In a (bucket c (map mk (List.filter fires before))))
        by (rewrite Hb; now left).
      apply filter_In in Hin as [Hin _].
      apply in_map_iff in Hin as (r' & Heq & Hr').
      apply filter_In in Hr' as [Hr' _].
      rewrite Ha in Heq. apply (f_equal Alert.ruleId) in Heq. rewrite !Hid in Heq.
      exact (NoDup_before Rule.id before after rule r' Hids Hr' Heq).
  - intros [Hf Hearlier].
    assert (Hnone : bucket c (map mk (List.filter fires before)) = []).
    { apply filter_none. intros a Ha.
      apply in_map_iff in Ha as (r' & <- & Hr').
      apply filter_In in Hr' as [Hr' Hfr'].
      unfold inCategory. destruct (Category_eqb (categoryOf (mk r')) c) eqn:Hc;
        [ | reflexivity ].
      apply Category_eqb_eq in Hc.
      unfold fires in Hfr'. now rewrite (Hearlier r' Hr' Hc) in Hfr'. }
    rewrite Hnone. change (fires rule) with (Rule.condition rule signals).
    rewrite Hf. cbn [app]. eauto.
Qed.

Lemma rule_categories (signals : Signals.t) (now : Z) (isoNow : string) :
  map (fun rule => (Rule.id rule, categoryOf (createAlert rule signals now isoNow)))
      DECISION_RULES
  = [ ("RULE_001", Disease); ("RULE_003", Environmental);
      ("RULE_007", Economical); ("RULE_008", Disease);
      ("RULE_002", Disease); ("RULE_004", Environmental);
      ("RULE_005", System); ("RULE_006", Economical);
      ("RULE_010", System); ("RULE_009", System) ].
Proof. reflexivity. Qed.

End SurvivorFacts.

Section KeptAlerts.
Import AlertRuleEngine DecisionRules.

Lemma resolveConflicts_incl (alerts : list Alert.t) (a : Alert.t) :
  In a (resolveConflicts alerts) -> In a alerts.
Proof.
  rewrite resolveConflicts_In. intros (r & Hb).
  assert (Hin : In a (bucket (categoryOf a) alerts)) by (rewrite Hb; now left).
  now apply filter_In in Hin as [Hin _].
Qed.

Lemma kept_iff (signals : Signals.t) (now : Z) (isoNow : string)
    (before after : list Rule.t) (rule : Rule.t) :
  DECISION_RULES = (before ++ rule :: after)%list ->
  In (Rule.id rule)
     (map Alert.ruleId (resolveConflicts (evaluateAlerts signals now isoNow)))
  <-> Rule.condition rule signals = true
      /\ forall earlier,
           In earlier before ->
           categoryOf (createAlert earlier signals now isoNow)
           = categoryOf (createAlert rule signals now isoNow) ->
           Rule.condition earlier signals = false.
Proof.
  intros Htable.
  rewrite <- (survivor_iff signals now isoNow before after rule Htable).
  split.
  - intros Hin. apply in_map_iff in Hin as (a & Hid & Ha).
    pose proof (resolveConflicts_incl _ _ Ha) as Hmem.
    apply evaluateRules_In in Hmem as (r' & Hr' & _ & ->).
    cbn [createAlert Alert.ruleId] in Hid.
    assert (Heq : r' = rule).
    { apply (NoDup_map_inj Rule.id DECISION_RULES);
        [ exact DECISION_RULES_ids | exact Hr' | | exact Hid ].
      rewrite Htable. apply in_or_app. right. now left. }
    now rewrite <- Heq.
  - intros Hin.
    change (Rule.id rule)
      with (Alert.ruleId (createAlert rule signals now isoNow)).
    now apply in_map.
Qed.

Ltac earlier_rules H :=
  repeat match goal with
         | |- _ /\ _ => split
         | |- Rule.condition _ _ = false =>
             apply H; [ cbn [In]; tauto | reflexivity ]
         end.

Ltac no_earlier :=
  let earlier := fresh "earlier" in
  let Hin := fresh "Hin" in
  let Hcat := fresh "Hcat" in
  intros earlier Hin Hcat; cbn [In] in Hin;
  repeat (destruct Hin as [<- | Hin]; [ first [ assumption | discriminate Hcat ] | ]);
  destruct Hin.

(** X5. Which rules keep their alert after [resolveConflicts], for the
    alerts of [evaluateAlerts].  In each bucket the rule that comes first
    in the table wins: RULE_001, then RULE_008, then RULE_002 among the
    disease alerts; RULE_003 before RULE_004 among the environmental
    ones; RULE_007 before RULE_006 among the economic ones; and RULE_005,
    then RULE_010, then RULE_009 among the rest, whose titles name no
    category. *)
Theorem kept_alerts_by_rule (signals : Signals.t) (now : Z) (isoNow : string) :
  let kept :=
    map Alert.ruleId (resolveConflicts (evaluateAlerts signals now isoNow)) in
  let fires := fun rule => Rule.condition rule signals in
  (In "RULE_001" kept <-> fires RULE_001 = true)
  /\ (In "RULE_008" kept <-> fires RULE_008 = true /\ fires RULE_001 = false)
  /\ (In "RULE_002" kept <->
      fires RULE_002 = true /\ fires RULE_001 = false /\ fires RULE_008 = false)
  /\ (In "RULE_003" kept <-> fires RULE_003 = true)
  /\ (In "RULE_004" kept <-> fires RULE_004 = true /\ fires RULE_003 = false)
  /\ (In "RULE_007" kept <-> fires RULE_007 = true)
  /\ (In "RULE_006" kept <-> fires RULE_006 = true /\ fires RULE_007 = false)
  /\ (In "RULE_005" kept <-> fires RULE_005 = true)
  /\ (In "RULE_010" kept <-> fires RULE_010 = true /\ fires RULE_005 = false)
  /\ (In "RULE_009" kept <->
      fires RULE_009 = true /\ fires RULE_005 = false /\ fires RULE_010 = false).
Proof.
  cbv zeta.
  repeat match goal with |- _ /\ _ => split end.
  - rewrite (kept_iff signals now isoNow [] _ RULE_001 eq_refl).
    split; [ tauto | ]. intros H. split; [ exact H | intros ? [] ].
  - rewrite (kept_iff signals now isoNow [RULE_001; RULE_003; RULE_007]
                      _ RULE_008 eq_refl).
    split.
    + intros [Hf H]. split; [ exact Hf | ]. earlier_rules H.
    + intros (Hf & H1). split; [ exact Hf | ]. no_earlier.
  - rewrite (kept_iff signals now isoNow [RULE_001; RULE_003; RULE_007; RULE_008]
                      _ RULE_002 eq_refl).
    split.
    + intros [Hf H]. split; [ exact Hf | ]. earlier_rules H.
    + intros (Hf & H1 & H8). split; [ exact Hf | ]. no_earlier.
  - rewrite (kept_iff signals now isoNow [RULE_001] _ RULE_003 eq_refl).
    split; [ tauto | ]. intros Hf. split; [ exact Hf | ]. no_earlier.
  - rewrite (kept_iff signals now isoNow
                      [RULE_001; RULE_003; RULE_007; RULE_008; RULE_002]
                      _ RULE_004 eq_refl).
    split.
    + intros [Hf H]. split; [ exact Hf | ]. earlier_rules H.
    + intros (Hf & H3). split; [ exact Hf | ]. no_earlier.
  - rewrite (kept_iff signals now isoNow [RULE_001; RULE_003] _ RULE_007 eq_refl).
    split; [ tauto | ]. intros Hf. split; [ exact Hf | ]. no_earlier.
  - rewrite (kept_iff signals now isoNow
                      [RULE_001; RULE_003; RULE_007; RULE_008; RULE_002;
                       RULE_004; RULE_005]
                      _ RULE_006 eq_refl).
    split.
    + intros [Hf H]. split; [ exact Hf | ]. earlier_rules H.
    + intros (Hf & H7). split; [ exact Hf | ]. no_earlier.
  - rewrite (kept_iff signals now isoNow
                      [RULE_001; RULE_003; RULE_007; RULE_008; RULE_002; RULE_004]
                      _ RULE_005 eq_refl).
    split; [ tauto | ]. intros Hf. split; [ exact Hf | ]. no_earlier.
  - rewrite (kept_iff signals now isoNow
                      [RULE_001; RULE_003; RULE_007; RULE_008; RULE_002;
                       RULE_004; RULE_005; RULE_006]
                      _ RULE_010 eq_refl).
    split.
    + intros [Hf H]. split; [ exact Hf | ]. earlier_rules H.
    + intros (Hf & H5). split; [ exact Hf | ]. no_earlier.
  - rewrite (kept_iff signals now isoNow
                      [RULE_001; RULE_003; RULE_007; RULE_008; RULE_002;
                       RULE_004; RULE_005; RULE_006; RULE_010]
                      _ RULE_009 eq_refl).
    split.
    + intros [Hf H]. split; [ exact Hf | ]. earlier_rules H.
    + intros (Hf & H5 & H10). split; [ exact Hf | ]. no_earlier.
Qed.

End KeptAlerts.

Section RuleConditions.
Import FieldGrid InfectedZones AlertRuleEngine DecisionRules.

Lemma ge_lt_false (x y : number) : ge x y = true -> lt x y = false.
Proof. unfold ge. intros H. exact (le_true_not_gt y x H). Qed.

Lemma lt_lt_false (x : number) (a b : Z) :
  (b <= a)%Z -> lt (ofZ a) x = true -> lt x (ofZ b) = true -> False.
Proof.
  intros Hab H1 H2. pose proof (lt_trans _ _ _ H1 H2) as H.
  unfold lt, ofZ in H.
  destruct (inject_Z a ?= inject_Z b)%Q eqn:Hc; try discriminate.
  apply Qlt_alt in Hc. rewrite <- Zlt_Qlt in Hc. lia.
Qed.

(** X6. Conditions that never hold together on one snapshot.  The
    rules RULE_010, RULE_002 and RULE_001 ask for an infection percentage
    below 10, from 10 to 25 and above 25: at most one of them fires.
    RULE_009 (below 5 %) fires with neither RULE_001 nor RULE_002, and
    RULE_007 (above 15 %) with neither RULE_006 (below 15 %) nor
    RULE_009. *)
Theorem infection_alerts_exclusive (signals : Signals.t) :
  let fires := fun rule => Rule.condition rule signals in
  fires RULE_001 && fires RULE_002 = false
  /\ fires RULE_001 && fires RULE_010 = false
  /\ fires RULE_002 && fires RULE_010 = false
  /\ fires RULE_009 && fires RULE_001 = false
  /\ fires RULE_009 && fires RULE_002 = false
  /\ fires RULE_007 && fires RULE_006 = false
  /\ fires RULE_007 && fires RULE_009 = false.
Proof.
  cbv zeta. cbn [Rule.condition RULE_001 RULE_002 RULE_010 RULE_009 RULE_007 RULE_006].
  set (p := Signals.infectionPercentage signals).
  repeat match goal with |- _ /\ _ => split end;
    match goal with |- ?b = false => destruct b eqn:H; [ exfalso | reflexivity ] end;
    repeat match goal with
           | H : _ && _ = true |- _ => apply andb_true_iff in H as [? ?]
           end.
  - match goal with H1 : gt p (ofZ 25) = true, H2 : le p (ofZ 25) = true |- _ =>
      now rewrite (le_true_not_gt _ _ H2) in H1 end.
  - match goal with H1 : gt p (ofZ 25) = true, H2 : lt p (ofZ 10) = true |- _ =>
      exact (lt_lt_false p 25 10 ltac:(lia) H1 H2) end.
  - match goal with H1 : ge p (ofZ 10) = true, H2 : lt p (ofZ 10) = true |- _ =>
      now rewrite (ge_lt_false _ _ H1) in H2 end.
  - match goal with H1 : gt p (ofZ 25) = true, H2 : lt p (ofZ 5) = true |- _ =>
      exact (lt_lt_false p 25 5 ltac:(lia) H1 H2) end.
  - match goal with H1 : ge p (ofZ 10) = true, H2 : lt p (ofZ 5) = true |- _ =>
      pose proof (lt_trans p (ofZ 5) (ofZ 10) H2 eq_refl) as Hten;
      now rewrite (ge_lt_false _ _ H1) in Hten end.
  - match goal with H1 : gt p (ofZ 15) = true, H2 : lt p (ofZ 15) = true |- _ =>
      exact (lt_lt_false p 15 15 ltac:(lia) H1 H2) end.
  - match goal with H1 : gt p (ofZ 15) = true, H2 : lt p (ofZ 5) = true |- _ =>
      exact (lt_lt_false p 15 5 ltac:(lia) H1 H2) end.
Qed.

End RuleConditions.

Section SignalsAndRules.
Import FieldGrid InfectedZones AlertRuleEngine DecisionRules.

Variable detections : list Detection.
Variable economicImpact : option Economic.t.
Variable sensorData : option Sensor.t.
Variable isoNow : string.

(** X7. On a snapshot of [extractSignals] the growth rate is computed
    from the infection percentage, so RULE_008 (growth above 2) fires
    exactly when the infection percentage is above 15. *)
Theorem growth_alert_is_a_threshold (gridStats : option (gmap string number))
    (fusionResults : option (list Fusion.t)) :
  let signals :=
    extractSignals detections gridStats economicImpact fusionResults
                   sensorData isoNow in
  Rule.condition RULE_008 signals
  = gt (Signals.infectionPercentage signals) (ofZ 15).
Proof.
  cbv zeta. cbn [Rule.condition RULE_008].
  unfold extractSignals.
  cbn [Signals.infectionGrowthRate Signals.infectionPercentage].
  set (p := match gridStats with
            | Some stats => orDefault (stats !! "infectionPercentage") (ofZ 0)
            | None => ofZ 0
            end).
  destruct p as [q| | |]; try reflexivity.
  unfold gt, lt, ofZ, mul.
  destruct (inject_Z 15 ?= q)%Q eqn:H15.
  - apply Qeq_alt in H15.
    destruct (inject_Z 5 ?= q)%Q eqn:H5.
    + apply Qeq_alt in H5. rewrite <- H15 in H5. discriminate H5.
    + destruct (inject_Z 2 ?= q * (1 # 10))%Q eqn:H2; try reflexivity.
      apply Qlt_alt in H2. rewrite <- H15 in H2. discriminate H2.
    + reflexivity.
  - apply Qlt_alt in H15.
    destruct (inject_Z 2 ?= q * (15 # 100))%Q eqn:H2; try reflexivity.
    + apply Qeq_alt in H2. change (inject_Z 15) with 15%Q in H15.
      change (inject_Z 2) with 2%Q in H2. lra.
    + apply Qgt_alt in H2. change (inject_Z 15) with 15%Q in H15.
      change (inject_Z 2) with 2%Q in H2. lra.
  - apply Qgt_alt in H15.
    destruct (inject_Z 5 ?= q)%Q eqn:H5; try reflexivity.
    destruct (inject_Z 2 ?= q * (1 # 10))%Q eqn:H2; try reflexivity.
    apply Qlt_alt in H2. change (inject_Z 15) with 15%Q in H15.
    change (inject_Z 2) with 2%Q in H2. lra.
Qed.

(** X8. Without fusion results, missing or an empty list, the severity
    is ["none"], the diagnosis ["Unknown"] and the confidence 0, and none
    of the rules that ask for a severity, a confidence or a healthy
    diagnosis fires: RULE_001, RULE_002, RULE_010 and RULE_009. *)
Theorem no_fusion_no_infection_alert (gridStats : option (gmap string number)) :
  Forall (fun fusionResults =>
            let signals :=
              extractSignals detections gridStats economicImpact fusionResults
                             sensorData isoNow in
            Signals.fusionSeverity signals = "none"
            /\ Signals.fusionDiagnosis signals = "Unknown"
            /\ Signals.fusionConfidence signals = ofZ 0
            /\ Rule.condition RULE_001 signals = false
            /\ Rule.condition RULE_002 signals = false
            /\ Rule.condition RULE_010 signals = false
            /\ Rule.condition RULE_009 signals = false)
         [None; Some []].
Proof.
  repeat constructor;
    cbn [Rule.condition RULE_001 RULE_002 RULE_010 RULE_009];
    try (rewrite !andb_false_r; reflexivity).
Qed.

End SignalsAndRules.

Section PipelineAlerts.
Import FieldGrid InfectedZones AlertRuleEngine DecisionRules Dashboard.

(** X9. The alerts that the panel computes from [calculateGridStats]
    never include the five alerts that need an infection percentage above
    0, whatever the grid and the other inputs: the percentage that reaches
    the rules is 0. *)
Theorem dashboard_never_raises_infection_alerts
    (grid : Grid) (detections : list Detection)
    (economicImpact : option Economic.t) (fusionResults : option (list Fusion.t))
    (sensorData : option Sensor.t) (now : Z) (isoNow : string) :
  let names :=
    map Alert.ruleName
        (gridAlerts grid detections economicImpact fusionResults sensorData
                    now isoNow) in
  Forall (fun name => ~ In name names)
         [ "Critical Infection Outbreak"; "Moderate Infection Warning";
           "High Economic Risk"; "Rapid Infection Growth";
           "Early Detection - Preventive Action" ].
Proof.
  cbv zeta. unfold gridAlerts.
  set (signals := extractSignals detections (Some (calculateGridStats grid))
                                 economicImpact fusionResults sensorData isoNow).
  assert (Hp : Signals.infectionPercentage signals = ofZ 0)
    by apply extractSignals_gridStats.
  assert (Hg : Signals.infectionGrowthRate signals = ofZ 0).
  { unfold signals, extractSignals. cbn [Signals.infectionGrowthRate].
    now rewrite calculateGridStats_infectionPercentage. }
  assert (Hnone : forall rule,
             In rule DECISION_RULES ->
             In (Rule.name rule)
                [ "Critical Infection Outbreak"; "Moderate Infection Warning";
                  "High Economic Risk"; "Rapid Infection Growth";
                  "Early Detection - Preventive Action" ] ->
             Rule.condition rule signals = false).
  { intros rule Hin Hname. cbn [In DECISION_RULES] in Hin.
    repeat (destruct Hin as [<- | Hin]);
      try (cbn [In Rule.name RULE_003 RULE_004 RULE_005 RULE_006 RULE_009] in Hname;
           repeat (destruct Hname as [Hname | Hname]; [ discriminate Hname | ]);
           now destruct Hname);
      try (now destruct Hin);
      cbn [Rule.condition RULE_001 RULE_002 RULE_007 RULE_008 RULE_010];
      rewrite ?Hp, ?Hg; try reflexivity.
    now rewrite andb_false_r. }
  apply List.Forall_forall. intros name Hname Hin.
  apply named_alert_triggered in Hin as (rule & Hrule & <- & Hfires).
  now rewrite (Hnone rule Hrule Hname) in Hfires.
Qed.

(** X10. A soil moisture reading below 20 other than 0 reaches the
    snapshot as it is, and the alert of RULE_003 (drought) is among the
    alerts kept by [resolveConflicts], whatever the other inputs. *)
Theorem dry_soil_alert_is_kept
    (detections : list Detection) (gridStats : option (gmap string number))
    (economicImpact : option Economic.t) (fusionResults : option (list Fusion.t))
    (sensors : Sensor.t) (now : Z) (isoNow : string) (moisture : Q) :
  Sensor.soil_moisture sensors = Some (Fin moisture) ->
  ~ (moisture == 0)%Q ->
  (moisture < 20)%Q ->
  let signals :=
    extractSignals detections gridStats economicImpact fusionResults
                   (Some sensors) isoNow in
  Signals.soilMoisture signals = Fin moisture
  /\ In "RULE_003"
        (map Alert.ruleId (resolveConflicts (evaluateAlerts signals now isoNow))).
Proof.
  intros Hm Hnz Hlt. cbv zeta.
  assert (Hs : Signals.soilMoisture
                 (extractSignals detections gridStats economicImpact fusionResults
                                 (Some sensors) isoNow) = Fin moisture).
  { unfold extractSignals. cbn [Signals.soilMoisture]. rewrite Hm.
    unfold orDefault, truthy.
    destruct (Qeq_bool moisture 0) eqn:Hz; [ | reflexivity ].
    apply Qeq_bool_iff in Hz. contradiction. }
  split; [ exact Hs | ].
  apply (kept_iff _ now isoNow [RULE_001] _ RULE_003 eq_refl).
  split.
  - cbn [Rule.condition RULE_003]. rewrite Hs.
    unfold lt, ofZ. change (inject_Z 20) with 20%Q.
    now rewrite (proj1 (Qlt_alt moisture 20) Hlt).
  - intros earlier [<- | []] Hcat. discriminate Hcat.
Qed.

End PipelineAlerts.

Section DrySoilExamples.
Import FieldGrid InfectedZones AlertRuleEngine DecisionRules Fixtures.

Lemma dry_soil_alert_is_kept_witness :
  let signals := extractSignals [] None None None (Some drySoilSensor) "" in
  Signals.soilMoisture signals = Fin 15
  /\ In "RULE_003"
        (map Alert.ruleId (resolveConflicts (evaluateAlerts signals 0 ""))).
Proof.
  apply (dry_soil_alert_is_kept [] None None None drySoilSensor 0 "" 15).
  - reflexivity.
  - intros H. vm_compute in H. discriminate.
  - vm_compute. reflexivity.
Defined.
End DrySoilExamples.

(** ** Detections on the grid *)

Section ZoneMapperMore.
Import FieldGrid InfectedZones.

Lemma createFieldGrid_fresh :
  map (map (withDetections [])) createFieldGrid = createFieldGrid.
Proof. vm_compute. reflexivity. Qed.

Lemma pushInto_same (detId : string) (c : GridCell) :
  pushInto (id c) detId c = pushDetection detId c.
Proof. unfold pushInto. now rewrite String.eqb_refl. Qed.

Lemma pushInto_differs (cellId detId : string) (c : GridCell) :
  cellId <> id c -> pushInto cellId detId c = c.
Proof.
  intros Hne. unfold pushInto.
  now destruct (String.eqb_spec cellId (id c)).
Qed.

Lemma pushInto_other (cellId detId : string) (cells : list GridCell) :
  ~ In cellId (map id cells) -> map (pushInto cellId detId) cells = cells.
Proof.
  induction cells as [|c cells IH]; simpl; [ reflexivity | ].
  intros Hnot. rewrite pushInto_differs, IH; [ reflexivity | | ].
  - intros Hin. apply Hnot. now right.
  - intros Heq. apply Hnot. now left.
Qed.

Lemma findInRow_In (p : LatLng) (cells : list GridCell) (f : GridCell) :
  findInRow p cells = Some f -> In f cells.
Proof.
  induction cells as [|c cells IH]; simpl; [ discriminate | ].
  destruct (isPointInCell p c).
  - intros [= <-]. now left.
  - intros H. right. now apply IH.
Qed.

Lemma findCellForPoint_In (p : LatLng) (grid : Grid) (f : GridCell) :
  findCellForPoint p grid = Some f -> In f (flattenGrid grid).
Proof.
  unfold flattenGrid. induction grid as [|r grid IH]; simpl; [ discriminate | ].
  destruct (findInRow p r) as [c|] eqn:Hr.
  - intros [= <-]. apply in_or_app. left. now apply (findInRow_In p).
  - intros H. apply in_or_app. right. now apply IH.
Qed.

Lemma markInRow_pushInto (p : LatLng) (detId : string) (cells : list GridCell) :
  List.NoDup (map id cells) ->
  markInRow p detId cells
  = option_map (fun f => map (pushInto (id f) detId) cells) (findInRow p cells).
Proof.
  induction cells as [|c cells IH]; simpl; [ reflexivity | ].
  intros Hnd. inversion Hnd as [|? ? Hnotin Hrest]; subst.
  destruct (isPointInCell p c); simpl.
  - now rewrite pushInto_same, pushInto_other.
  - rewrite IH by exact Hrest.
    destruct (findInRow p cells) as [f|] eqn:Hf; simpl; [ | reflexivity ].
    rewrite pushInto_differs; [ reflexivity | ].
    intros Heq. apply Hnotin. rewrite <- Heq. apply in_map.
    now apply (findInRow_In p).
Qed.

Lemma markCellForPoint_pushInto (p : LatLng) (detId : string) (grid : Grid) :
  List.NoDup (map id (flattenGrid grid)) ->
  markCellForPoint p detId grid
  = match findCellForPoint p grid with
    | Some f => map (map (pushInto (id f) detId)) grid
    | None => grid
    end.
Proof.
  unfold flattenGrid.
  induction grid as [|r grid IH]; simpl; [ reflexivity | ].
  rewrite map_app. intros Hnd.
  pose proof (NoDup_app_remove_l _ _ Hnd) as Hgrid.
  pose proof (NoDup_app_remove_r _ _ Hnd) as Hrow.
  rewrite markInRow_pushInto by exact Hrow.
  destruct (findInRow p r) as [f|] eqn:Hf; simpl.
  - f_equal. symmetry.
    assert (Hout : ~ In (id f) (map id (concat grid))).
    { intros Hin. apply NoDup_ListNoDup in Hnd.
      apply NoDup_app in Hnd as (_ & Hdisj & _).
      apply (Hdisj (id f)).
      - apply list_elem_of_In, in_map. now apply (findInRow_In p).
      - now apply list_elem_of_In. }
    clear -Hout. induction grid as [|r' grid IH]; simpl; [ reflexivity | ].
    simpl in Hout. rewrite map_app in Hout.
    rewrite pushInto_other, IH; [ reflexivity | | ];
      intros Hin; apply Hout; apply in_or_app; auto.
  - rewrite IH by exact Hgrid.
    destruct (findCellForPoint p grid) as [f|] eqn:Hg; [ | reflexivity ].
    f_equal. symmetry. apply pushInto_other.
    intros Hin. apply NoDup_ListNoDup in Hnd.
    apply NoDup_app in Hnd as (_ & Hdisj & _).
    apply (Hdisj (id f)).
    + now apply list_elem_of_In.
    + apply list_elem_of_In, in_map. now apply (findCellForPoint_In p).
Qed.

Lemma isPointInCell_withDetections (p : LatLng) (dets : list Detection) (c : GridCell) :
  isPointInCell p (withDetections dets c) = isPointInCell p c.
Proof. reflexivity. Qed.

Lemma findInRow_withDetections (p : LatLng) (dets : list Detection)
    (cells : list GridCell) :
  findInRow p (map (withDetections dets) cells)
  = option_map (withDetections dets) (findInRow p cells).
Proof.
  induction cells as [|c cells IH]; simpl; [ reflexivity | ].
  rewrite isPointInCell_withDetections.
  destruct (isPointInCell p c); [ reflexivity | exact IH ].
Qed.

Lemma findCellForPoint_withDetections (p : LatLng) (dets : list Detection)
    (grid : Grid) :
  findCellForPoint p (map (map (withDetections dets)) grid)
  = option_map (withDetections dets) (findCellForPoint p grid).
Proof.
  induction grid as [|r grid IH]; simpl; [ reflexivity | ].
  rewrite findInRow_withDetections.
  destruct (findInRow p r); [ reflexivity | exact IH ].
Qed.

Lemma withDetections_ids (dets : list Detection) (grid : Grid) :
  map id (flattenGrid (map (map (withDetections dets)) grid))
  = map id (flattenGrid grid).
Proof.
  unfold flattenGrid. induction grid as [|r grid IH]; simpl; [ reflexivity | ].
  rewrite !map_app, IH. f_equal.
  rewrite map_map. reflexivity.
Qed.

Lemma withDetections_snoc (done : list Detection) (d : Detection) (c : GridCell) :
  withDetections (done ++ [d]) c
  = if landsIn (id c) d
    then pushDetection (det_id d) (withDetections done c)
    else withDetections done c.
Proof.
  unfold withDetections, pushDetection; cbn [row col id center bounds detections infected].
  rewrite List.filter_app, map_app, existsb_app. simpl.
  destruct (landsIn (id c) d); simpl.
  - now rewrite orb_true_r.
  - now rewrite app_nil_r, orb_false_r.
Qed.

Lemma mapDetection_withDetections (done : list Detection) (d : Detection) :
  mapDetection (map (map (withDetections done)) createFieldGrid) d
  = map (map (withDetections (done ++ [d]))) createFieldGrid.
Proof.
  unfold mapDetection.
  assert (Hmap : forall f : GridCell -> GridCell,
             (forall c, f c = withDetections (done ++ [d]) c) ->
             map (map f) createFieldGrid
             = map (map (withDetections (done ++ [d]))) createFieldGrid).
  { intros f Hf. apply map_ext. intros r. apply map_ext. exact Hf. }
  destruct (gps d) as [p|] eqn:Hgps.
  - rewrite markCellForPoint_pushInto
      by (rewrite withDetections_ids; apply createFieldGrid_ids).
    rewrite findCellForPoint_withDetections.
    destruct (findCellForPoint p createFieldGrid) as [f|] eqn:Hf;
      cbn [option_map].
    + rewrite map_map.
      rewrite (map_ext _ (map (fun c => pushInto (id f) (det_id d) (withDetections done c))))
        by (intros r; apply map_map).
      apply Hmap. intros c. rewrite withDetections_snoc.
      unfold landsIn. rewrite Hgps, Hf. unfold pushInto. reflexivity.
    + apply Hmap. intros c. rewrite withDetections_snoc.
      unfold landsIn. now rewrite Hgps, Hf.
  - apply Hmap. intros c. rewrite withDetections_snoc.
    unfold landsIn. now rewrite Hgps.
Qed.

Lemma fold_mapDetection (dets done : list Detection) :
  fold_left mapDetection dets (map (map (withDetections done)) createFieldGrid)
  = map (map (withDetections (done ++ dets))) createFieldGrid.
Proof.
  revert done. induction dets as [|d dets IH]; intros done; cbn [fold_left].
  - now rewrite app_nil_r.
  - rewrite mapDetection_withDetections, IH, <- app_assoc. reflexivity.
Qed.

Lemma fold_mapDetection_fresh (dets : list Detection) :
  fold_left mapDetection dets createFieldGrid
  = map (map (withDetections dets)) createFieldGrid.
Proof.
  rewrite <- createFieldGrid_fresh at 1.
  apply (fold_mapDetection dets []).
Qed.

(** X11. [mapDetectionsToGrid] in closed form: each cell of the fresh
    grid holds the ids of the detections whose position falls into it
    first, in the order of the detections, and is infected exactly when
    there is one.  A detection without position, or outside every cell,
    changes nothing. *)
Theorem mapDetectionsToGrid_cells (dets : list Detection) :
  mapDetectionsToGrid dets = map (map (withDetections dets)) createFieldGrid.
Proof.
  unfold mapDetectionsToGrid.
  rewrite <- createFieldGrid_fresh at 1.
  apply (fold_mapDetection dets []).
Qed.

Lemma createFieldGrid_centres :
  forallb (fun cell =>
             match detections cell with [] => true | _ => false end
             && negb (infected cell)
             && match findCellForPoint (center cell) createFieldGrid with
                | Some found => String.eqb (id found) (id cell)
                | None => false
                end)
          (flattenGrid createFieldGrid)
  = true.
Proof. vm_compute. reflexivity. Qed.

(** X12. The grid of [createFieldGrid]: ten rows of ten cells, the cell
    of row [r] and column [c] has the id [r_c]; the ids are pairwise
    different; every cell is created without detections and not infected,
    and [findCellForPoint] finds the centre of a cell in that cell, not in
    a neighbour whose bounds touch it. *)
Theorem createFieldGrid_layout :
  map (map (fun cell => (row cell, col cell, id cell))) createFieldGrid
  = map (fun r => map (fun c => (r, c, dec (Z.of_nat r) ++ "_" ++ dec (Z.of_nat c)))
                      (seq 0 10))
        (seq 0 10)
  /\ List.NoDup (map id (flattenGrid createFieldGrid))
  /\ Forall (fun cell =>
               detections cell = [] /\ infected cell = false
               /\ findCellForPoint (center cell) createFieldGrid = Some cell)
            (flattenGrid createFieldGrid).
Proof.
  split; [ vm_compute; reflexivity | ].
  split; [ exact createFieldGrid_ids | ].
  apply List.Forall_forall. intros cell Hcell.
  pose proof (proj1 (forallb_forall _ _) createFieldGrid_centres cell Hcell) as H.
  apply andb_true_iff in H as [H Hfound].
  apply andb_true_iff in H as [Hnone Hclean].
  split; [ now destruct (detections cell) | ].
  split; [ now destruct (infected cell) | ].
  destruct (findCellForPoint (center cell) createFieldGrid) as [f|] eqn:Hf;
    [ | discriminate ].
  f_equal. apply String.eqb_eq in Hfound.
  apply (NoDup_map_inj id (flattenGrid createFieldGrid));
    [ exact createFieldGrid_ids | | exact Hcell | exact Hfound ].
  now apply (findCellForPoint_In (center cell)).
Qed.

Lemma count_id (cells : list GridCell) (f : GridCell) :
  List.NoDup (map id cells) -> In f cells ->
  length (List.filter (fun c => String.eqb (id f) (id c)) cells) = 1%nat.
Proof.
  induction cells as [|c cells IH]; simpl; [ tauto | ].
  intros Hnd Hin. inversion Hnd as [|? ? Hnotin Hrest]; subst.
  destruct (String.eqb_spec (id f) (id c)) as [Heq | Hne].
  - simpl. f_equal. rewrite filter_none; [ reflexivity | ].
    intros x Hx. apply String.eqb_neq. intros Hfx. apply Hnotin.
    rewrite <- Heq, Hfx. now apply in_map.
  - destruct Hin as [<- | Hin]; [ congruence | ]. now apply IH.
Qed.

(** Whether a detection falls into a cell at all. *)
Lemma landsIn_count (d : Detection) :
  length (List.filter (fun c => landsIn (id c) d) (flattenGrid createFieldGrid))
  = if inField d then 1%nat else 0%nat.
Proof.
  unfold landsIn, inField.
  destruct (gps d) as [p|]; [ | now rewrite filter_none ].
  destruct (findCellForPoint p createFieldGrid) as [f|] eqn:Hf;
    [ | now rewrite filter_none ].
  apply count_id; [ exact createFieldGrid_ids | ].
  now apply (findCellForPoint_In p).
Qed.

Lemma list_sum_cons (a : nat) (l : list nat) :
  list_sum (a :: l) = (a + list_sum l)%nat.
Proof. reflexivity. Qed.

Lemma stored_count (dets : list Detection) (cells : list GridCell) :
  length (concat (map (fun c => detections (withDetections dets c)) cells))
  = list_sum (map (fun d => length (List.filter (fun c => landsIn (id c) d) cells))
                  dets).
Proof.
  induction dets as [|d dets IH].
  - simpl. induction cells as [|c cells IHc]; [ reflexivity | exact IHc ].
  - cbn [map]. rewrite list_sum_cons, <- IH. clear IH.
    induction cells as [|c cells IHc]; [ reflexivity | ].
    cbn [map concat List.filter]. rewrite !length_app, IHc.
    unfold withDetections at 1 3; cbn [detections id List.filter].
    destruct (landsIn (id c) d); cbn [map length]; lia.
Qed.

(** X13. After [mapDetectionsToGrid] the cells hold as many detection
    ids as there are detections that fall into the field; a cell is
    infected exactly when it holds an id; and there are at most as many
    infected cells as such detections. *)
Theorem mapDetectionsToGrid_counts (dets : list Detection) :
  let grid := mapDetectionsToGrid dets in
  length (concat (map detections (flattenGrid grid)))
  = length (List.filter inField dets)
  /\ Forall (fun cell => infected cell = negb (Nat.eqb (length (detections cell)) 0))
            (flattenGrid grid)
  /\ (length (getInfectedCells grid) <= length (List.filter inField dets))%nat.
Proof.
  cbv zeta. unfold mapDetectionsToGrid. rewrite fold_mapDetection_fresh.
  assert (Hflat : flattenGrid (map (map (withDetections dets)) createFieldGrid)
                  = map (withDetections dets) (flattenGrid createFieldGrid)).
  { unfold flattenGrid. now rewrite concat_map. }
  rewrite Hflat.
  assert (Htotal : length (concat (map detections
                     (map (withDetections dets) (flattenGrid createFieldGrid))))
                   = length (List.filter inField dets)).
  { rewrite map_map, stored_count. clear Hflat.
    induction dets as [|d dets IH]; [ reflexivity | ].
    cbn [map List.filter]. rewrite list_sum_cons, IH, landsIn_count.
    destruct (inField d); reflexivity. }
  assert (Hinf : forall cell,
             infected (withDetections dets cell)
             = negb (Nat.eqb (length (detections (withDetections dets cell))) 0)).
  { intros cell. unfold withDetections; cbn [infected detections].
    rewrite length_map. clear Hflat Htotal.
    induction dets as [|d dets IH]; [ reflexivity | ].
    cbn [existsb List.filter]. destruct (landsIn (id cell) d); [ reflexivity | exact IH ]. }
  split; [ exact Htotal | ]. split.
  - apply List.Forall_forall. intros cell Hcell.
    apply in_map_iff in Hcell as (c0 & <- & _). apply Hinf.
  - rewrite <- Htotal. unfold getInfectedCells. rewrite Hflat.
    generalize (flattenGrid createFieldGrid) as cells.
    induction cells as [|c cells IH]; [ simpl; lia | ].
    cbn [map List.filter concat]. rewrite length_app.
    rewrite Hinf. destruct (length (detections (withDetections dets c))) eqn:Hlen;
      cbn [Nat.eqb negb length]; lia.
Qed.

End ZoneMapperMore.

(** ** The two planners *)

Section PlannerMore.
Import FieldGrid PathPlanner.

Variables Math_sin Math_cos Math_sqrt : number -> number.
Variable Math_atan2 : number -> number -> number.
Variable Math_PI : number.

Local Abbreviation distance :=
  (calculateDistance Math_sin Math_cos Math_sqrt Math_atan2 Math_PI).
Local Abbreviation scan :=
  (scanNearest Math_sin Math_cos Math_sqrt Math_atan2 Math_PI).
Local Abbreviation visit :=
  (visitAll Math_sin Math_cos Math_sqrt Math_atan2 Math_PI).
Local Abbreviation plan :=
  (generateSprayPath Math_sin Math_cos Math_sqrt Math_atan2 Math_PI).
Local Abbreviation finite :=
  (distancesFinite Math_sin Math_cos Math_sqrt Math_atan2 Math_PI).
Local Abbreviation route :=
  (routeDistance Math_sin Math_cos Math_sqrt Math_atan2 Math_PI).
Local Abbreviation roundTrip :=
  (roundTripDistance Math_sin Math_cos Math_sqrt Math_atan2 Math_PI).
Local Abbreviation nearest1 :=
  (nearestFirst Math_sin Math_cos Math_sqrt Math_atan2 Math_PI).
Local Abbreviation legs :=
  (sweepLegs Math_sin Math_cos Math_sqrt Math_atan2 Math_PI).
Local Abbreviation sweep :=
  (generateSweepPath Math_sin Math_cos Math_sqrt Math_atan2 Math_PI).

(** The scan keeps its state when no cell is nearer than the distance it
    started with, and otherwise chooses a cell than which no cell of the
    list is nearer. *)
Lemma scanNearest_least (cur : LatLng) (cells : list GridCell) :
  forall (i : nat) (nearest : option (nat * GridCell)) (shortest : number),
    (scan cur cells i nearest shortest = (nearest, shortest)
     /\ forall c, In c cells -> lt (distance cur (center c)) shortest = false)
    \/ (exists k cell,
          scan cur cells i nearest shortest
          = (Some ((i + k)%nat, cell), distance cur (center cell))
          /\ cells !! k = Some cell
          /\ lt (distance cur (center cell)) shortest = true
          /\ forall c, In c cells ->
                       lt (distance cur (center c)) (distance cur (center cell))
                       = false).
Proof.
  induction cells as [|c cells IH]; intros i nearest shortest; simpl.
  - left. split; [ reflexivity | intros c [] ].
  - destruct (lt (distance cur (center c)) shortest) eqn:Hlt.
    + right.
      destruct (IH (S i) (Some (i, c)) (distance cur (center c)))
        as [[-> Hall] | (k & cell & -> & Hk & Hbelow & Hall)].
      * exists 0%nat, c. rewrite Nat.add_0_r.
        split; [ reflexivity | ]. split; [ reflexivity | ].
        split; [ exact Hlt | ].
        intros c' [<- | Hc']; [ apply lt_irrefl | now apply Hall ].
      * exists (S k), cell. rewrite Nat.add_succ_r.
        split; [ reflexivity | ]. split; [ exact Hk | ].
        split; [ exact (lt_trans _ _ _ Hbelow Hlt) | ].
        intros c' [<- | Hc']; [ now apply lt_asym | now apply Hall ].
    + destruct (IH (S i) nearest shortest)
        as [[-> Hall] | (k & cell & -> & Hk & Hbelow & Hall)].
      * left. split; [ reflexivity | ].
        intros c' [<- | Hc']; [ exact Hlt | now apply Hall ].
      * right. exists (S k), cell. rewrite Nat.add_succ_r.
        split; [ reflexivity | ]. split; [ exact Hk | ].
        split; [ exact Hbelow | ].
        intros c' [<- | Hc']; [ | now apply Hall ].
        destruct (lt (distance cur (center c)) (distance cur (center cell)))
          eqn:Hc; [ | reflexivity ].
        now rewrite (lt_trans _ _ _ Hc Hbelow) in Hlt.
Qed.

(** Whatever the loop returns: the cells it was given, each once, the
    nearest one first at every step. *)
Lemma visitAll_nearest :
  forall (fuel : nat) (unvisited : list GridCell) (cur : LatLng)
         (total : number) (path path' : list Waypoint)
         (total' : number) (cur' : LatLng),
    visit fuel unvisited cur total path = Some (path', total', cur') ->
    exists visited,
      path' = (path ++ map toWaypoint visited)%list
      /\ Permutation visited unvisited
      /\ nearest1 cur (map center visited) = true.
Proof.
  induction fuel as [|fuel IH]; intros unvisited cur total path path' total' cur'.
  - destruct unvisited; simpl; [ | discriminate ].
    intros [= <- <- <-]. exists []. now rewrite app_nil_r.
  - destruct unvisited as [|c rest].
    { simpl. intros [= <- <- <-]. exists []. now rewrite app_nil_r. }
    change (visit (S fuel) (c :: rest) cur total path)
      with (match scan cur (c :: rest) 0%nat None PInf with
            | (Some (i, nearestCell), shortestDistance) =>
                visit fuel (delete i (c :: rest)) (center nearestCell)
                      (add total shortestDistance)
                      (path ++ [toWaypoint nearestCell])%list
            | (None, _) => visit fuel (c :: rest) cur total path
            end).
    destruct (scanNearest_least cur (c :: rest) 0 None PInf)
      as [[-> _] | (k & cell & -> & Hk & Hbelow & Hall)]; intros H.
    + exact (IH _ _ _ _ _ _ _ H).
    + apply IH in H as (visited & -> & Hperm & Hnear).
      exists (cell :: visited). rewrite <- app_assoc.
      split; [ reflexivity | ].
      split.
      * rewrite (delete_Permutation (c :: rest) k cell Hk).
        now apply perm_skip.
      * cbn [map nearestFirst]. rewrite Hbelow, Hnear, andb_true_r.
        cbn [andb]. apply forallb_forall. intros q Hq.
        apply in_map_iff in Hq as (x & <- & Hx).
        rewrite Hall; [ reflexivity | ].
        apply list_elem_of_In. eapply list_elem_of_delete_inv.
        apply list_elem_of_In.
        eapply Permutation_in; [ exact Hperm | exact Hx ].
Qed.

(** X14. The path of [generateSprayPath] is greedy: every waypoint is,
    among the waypoints not visited before it, one of least distance from
    the position before it (the launch point for the first), as [<]
    compares the distances.  For cells at finite distances and enough
    fuel for the loop. *)
Theorem spray_path_nearest_first (grid : Grid) (fuel : nat) :
  finite (getInfectedCells grid) = true ->
  (length (getInfectedCells grid) <= fuel)%nat ->
  exists r,
    plan fuel grid = Some r
    /\ Permutation (waypoints r) (map toWaypoint (getInfectedCells grid))
    /\ nearest1 GpsSimulator.getFieldCenter (map position (waypoints r)) = true.
Proof.
  intros Hfin Hfuel.
  destruct (getInfectedCells grid) as [|c0 cells0] eqn:Hinf.
  { exists noPath. unfold generateSprayPath. rewrite Hinf.
    split; [ reflexivity | ]. split; [ constructor | reflexivity ]. }
  destruct (generateSprayPath_returns Math_sin Math_cos Math_sqrt Math_atan2
              Math_PI grid fuel) as (r & Hr & _);
    [ rewrite Hinf; discriminate | now rewrite Hinf | now rewrite Hinf | ].
  exists r. split; [ exact Hr | ].
  unfold generateSprayPath in Hr. rewrite Hinf in Hr. cbn [length Nat.eqb] in Hr.
  destruct (visit fuel (c0 :: cells0) GpsSimulator.getFieldCenter (ofZ 0) [])
    as [[[path total] cur]|] eqn:Hv; [ | discriminate ].
  injection Hr as <-. cbn [waypoints].
  apply visitAll_nearest in Hv as (visited & -> & Hperm & Hnear).
  cbn [app]. split; [ now apply Permutation_map | ].
  rewrite map_map. exact Hnear.
Qed.

(** ** The sweep *)

Lemma sweepRow_filter (cells : list GridCell) :
  forall acc, sweepRow cells acc
              = (acc ++ map toWaypoint (List.filter infected cells))%list.
Proof.
  induction cells as [|c cells IH]; intros acc; simpl.
  - now rewrite app_nil_r.
  - rewrite IH. destruct (infected c); simpl; [ | reflexivity ].
    now rewrite <- app_assoc.
Qed.

Lemma sweepGrid_infected (grid : Grid) :
  forall acc, sweepGrid grid acc
              = (acc ++ map toWaypoint (getInfectedCells grid))%list.
Proof.
  unfold getInfectedCells, flattenGrid.
  induction grid as [|r grid IH]; intros acc; simpl.
  - now rewrite app_nil_r.
  - rewrite IH, sweepRow_filter, List.filter_app, map_app.
    now rewrite <- app_assoc.
Qed.

Lemma sweepLegs_route (a : Waypoint) (rest : list Waypoint) :
  forall acc, legs (a :: rest) acc = route (position a) (map position rest) acc.
Proof.
  revert a. induction rest as [|b rest IH]; intros a acc; [ reflexivity | ].
  change (legs (a :: b :: rest) acc)
    with (legs (b :: rest) (add acc (distance (position a) (position b)))).
  rewrite IH. reflexivity.
Qed.

Lemma last_map {A B : Type} (f : A -> B) (l : list A) (d : A) :
  List.last (map f l) (f d) = f (List.last l d).
Proof.
  revert d. induction l as [|a l IH]; intros d; [ reflexivity | ].
  cbn [map]. rewrite !last_cons. apply IH.
Qed.

Lemma generateSweepPath_waypoints (grid : Grid) :
  waypoints (sweep grid) = map toWaypoint (getInfectedCells grid).
Proof.
  unfold generateSweepPath. rewrite sweepGrid_infected. cbn [app].
  now destruct (map toWaypoint (getInfectedCells grid)).
Qed.

Lemma generateSweepPath_total (grid : Grid) :
  getInfectedCells grid <> [] ->
  pathExists (sweep grid) = true
  /\ startPoint (sweep grid) = Some GpsSimulator.getFieldCenter
  /\ endPoint (sweep grid) = Some GpsSimulator.getFieldCenter
  /\ totalDistance (sweep grid)
     = parseFloat (toFixed 1 (roundTrip (waypoints (sweep grid))))
  /\ estimatedTime (sweep grid)
     = Math_ceil (add (div (roundTrip (waypoints (sweep grid))) (ofZ 5))
                      (ofNat (length (waypoints (sweep grid)) * 3))).
Proof.
  intros Hne. unfold generateSweepPath. rewrite sweepGrid_infected. cbn [app].
  destruct (map toWaypoint (getInfectedCells grid)) as [|w ws] eqn:Hw.
  { destruct (getInfectedCells grid); [ congruence | discriminate ]. }
  cbv zeta. cbn [pathExists startPoint endPoint totalDistance estimatedTime waypoints].
  assert (Hround : roundTrip (w :: ws)
                   = add (legs (w :: ws)
                               (add (ofZ 0) (distance GpsSimulator.getFieldCenter
                                                      (position w))))
                         (distance (position (List.last (w :: ws) w))
                                   GpsSimulator.getFieldCenter)).
  { unfold roundTripDistance. rewrite routeDistance_snoc.
    rewrite sweepLegs_route. cbn [map routeDistance].
    rewrite !last_cons. now rewrite last_map. }
  rewrite Hround. repeat split; reflexivity.
Qed.

(** X15. [generateSweepPath] visits the infected cells in the order of
    the grid, row by row.  Without infected cells it returns the empty
    path; otherwise the path starts and ends at the launch point, its
    distance is the round trip along the waypoints to one decimal, and its
    time is that distance at 5 m/s plus 3 s for each waypoint, rounded
    up. *)
Theorem sweep_path_in_grid_order (grid : Grid) :
  waypoints (sweep grid) = map toWaypoint (getInfectedCells grid)
  /\ (getInfectedCells grid = [] -> sweep grid = noPath)
  /\ (getInfectedCells grid <> [] ->
      pathExists (sweep grid) = true
      /\ startPoint (sweep grid) = Some GpsSimulator.getFieldCenter
      /\ endPoint (sweep grid) = Some GpsSimulator.getFieldCenter
      /\ totalDistance (sweep grid)
         = parseFloat (toFixed 1 (roundTrip (waypoints (sweep grid))))
      /\ estimatedTime (sweep grid)
         = Math_ceil (add (div (roundTrip (waypoints (sweep grid))) (ofZ 5))
                          (ofNat (length (waypoints (sweep grid)) * 3)))).
Proof.
  split; [ apply generateSweepPath_waypoints | ].
  split; [ | apply generateSweepPath_total ].
  intros Hnil. unfold generateSweepPath.
  now rewrite sweepGrid_infected, Hnil.
Qed.

(** X16. The two planners visit the same cells: the waypoints of
    [generateSprayPath] are a rearrangement of those of
    [generateSweepPath], as many as there are infected cells, and the two
    agree on [pathExists]. *)
Theorem planners_visit_same_cells (grid : Grid) (fuel : nat) :
  finite (getInfectedCells grid) = true ->
  (length (getInfectedCells grid) <= fuel)%nat ->
  exists r,
    plan fuel grid = Some r
    /\ Permutation (waypoints r) (waypoints (sweep grid))
    /\ length (waypoints r) = length (getInfectedCells grid)
    /\ pathExists r = pathExists (sweep grid).
Proof.
  intros Hfin Hfuel.
  destruct (getInfectedCells grid) as [|c0 cells0] eqn:Hinf.
  { exists noPath. unfold generateSprayPath, generateSweepPath.
    rewrite sweepGrid_infected, Hinf.
    split; [ reflexivity | ]. split; [ constructor | ]. split; reflexivity. }
  assert (Hne : getInfectedCells grid <> []) by (rewrite Hinf; discriminate).
  destruct (generateSprayPath_returns Math_sin Math_cos Math_sqrt Math_atan2
              Math_PI grid fuel) as (r & Hr & Hp);
    [ exact Hne | now rewrite Hinf | now rewrite Hinf | ].
  exists r. split; [ exact Hr | ].
  rewrite generateSweepPath_waypoints.
  rewrite (proj1 (generateSweepPath_total grid Hne)), Hp.
  unfold generateSprayPath in Hr. rewrite Hinf in Hr. cbn [length Nat.eqb] in Hr.
  destruct (visit fuel (c0 :: cells0) GpsSimulator.getFieldCenter (ofZ 0) [])
    as [[[path total] cur]|] eqn:Hv; [ | discriminate ].
  injection Hr as <-. cbn [waypoints].
  apply visitAll_nearest in Hv as (visited & -> & Hperm & _).
  cbn [app]. rewrite Hinf.
  split; [ now apply Permutation_map | ].
  split; [ | reflexivity ].
  rewrite length_map. now apply Permutation_length.
Qed.

(** X17. [getPathCoordinates] of a path of either planner does not
    throw: it is the empty list for the empty path, and otherwise the
    launch point, the positions of the waypoints in order, and the launch
    point again. *)
Theorem path_coordinates_closed (grid : Grid) (fuel : nat) (r : SprayPath) :
  plan fuel grid = Some r \/ r = sweep grid ->
  let home := (lat GpsSimulator.getFieldCenter, lng GpsSimulator.getFieldCenter) in
  getPathCoordinates r
  = Some (if pathExists r
          then (home :: map (fun w => (lat (position w), lng (position w)))
                            (waypoints r) ++ [home])%list
          else []).
Proof.
  intros Hr. cbv zeta.
  assert (H : pathExists r = false
              \/ (pathExists r = true
                  /\ startPoint r = Some GpsSimulator.getFieldCenter
                  /\ endPoint r = Some GpsSimulator.getFieldCenter)).
  { destruct Hr as [Hr | ->].
    - unfold generateSprayPath in Hr.
      destruct (length (getInfectedCells grid) =? 0)%nat.
      { injection Hr as <-. now left. }
      destruct (visit fuel (getInfectedCells grid) GpsSimulator.getFieldCenter
                      (ofZ 0) []) as [[[path total] cur]|]; [ | discriminate ].
      injection Hr as <-. right. repeat split.
    - destruct (getInfectedCells grid) as [|c cells] eqn:Hinf.
      + left. unfold generateSweepPath. now rewrite sweepGrid_infected, Hinf.
      + right.
        destruct (generateSweepPath_total grid) as (H1 & H2 & H3 & _);
          [ rewrite Hinf; discriminate | now repeat split ]. }
  unfold getPathCoordinates.
  destruct H as [-> | (-> & -> & ->)]; reflexivity.
Qed.

(** X18. When no infected cell is at a distance below [Infinity] from
    the launch point (a centre that is [NaN], say), the loop of
    [generateSprayPath] finds no nearest cell, removes nothing and never
    ends: no amount of fuel gives a result.  [generateSweepPath] returns a
    path for the same grid. *)
Theorem spray_path_never_returns (grid : Grid) :
  getInfectedCells grid <> [] ->
  (forall c, In c (getInfectedCells grid) ->
             lt (distance GpsSimulator.getFieldCenter (center c)) PInf = false) ->
  (forall fuel, plan fuel grid = None)
  /\ pathExists (sweep grid) = true.
Proof.
  intros Hne Hall. split.
  - intros fuel. unfold generateSprayPath.
    destruct (length (getInfectedCells grid) =? 0)%nat eqn:Hlen.
    { now apply getInfectedCells_nil in Hlen. }
    now rewrite (visitAll_never_returns Math_sin Math_cos Math_sqrt Math_atan2
                   Math_PI _ _ _ _ Hne Hall fuel).
  - apply (generateSweepPath_total grid Hne).
Qed.

End PlannerMore.

Section PlannerMoreExamples.
Import FieldGrid PathPlanner Fixtures.

Lemma spray_path_nearest_first_witness :
  exists r,
    sprayPathQ 3 sprayGrid = Some r
    /\ Permutation (waypoints r) (map toWaypoint (getInfectedCells sprayGrid))
    /\ nearestFirst sinQ cosQ sqrtQ atan2Q piQ GpsSimulator.getFieldCenter
                    (map position (waypoints r)) = true.
Proof.
  apply (spray_path_nearest_first sinQ cosQ sqrtQ atan2Q piQ sprayGrid 3).
  - vm_compute. reflexivity.
  - vm_compute. lia.
Defined.

Lemma planners_visit_same_cells_witness :
  exists r,
    sprayPathQ 3 sprayGrid = Some r
    /\ Permutation (waypoints r)
                   (waypoints (generateSweepPath sinQ cosQ sqrtQ atan2Q piQ sprayGrid))
    /\ length (waypoints r) = length (getInfectedCells sprayGrid)
    /\ pathExists r
       = pathExists (generateSweepPath sinQ cosQ sqrtQ atan2Q piQ sprayGrid).
Proof.
  apply (planners_visit_same_cells sinQ cosQ sqrtQ atan2Q piQ sprayGrid 3).
  - vm_compute. reflexivity.
  - vm_compute. lia.
Defined.

Lemma path_coordinates_closed_witness :
  let r := generateSweepPath sinQ cosQ sqrtQ atan2Q piQ sprayGrid in
  let home := (lat GpsSimulator.getFieldCenter, lng GpsSimulator.getFieldCenter) in
  getPathCoordinates r
  = Some (if pathExists r
          then (home :: map (fun w => (lat (position w), lng (position w)))
                            (waypoints r) ++ [home])%list
          else []).
Proof.
  apply (path_coordinates_closed sinQ cosQ sqrtQ atan2Q piQ sprayGrid 0).
  right. reflexivity.
Defined.

Lemma spray_path_never_returns_witness :
  (forall fuel, sprayPathQ fuel strayGrid = None)
  /\ pathExists (generateSweepPath sinQ cosQ sqrtQ atan2Q piQ strayGrid) = true.
Proof.
  apply (spray_path_never_returns sinQ cosQ sqrtQ atan2Q piQ strayGrid).
  - vm_compute. discriminate.
  - intros c [<- | []]. vm_compute. reflexivity.
Defined.
End PlannerMoreExamples.

(** ** The alerts panel and its debouncer *)

Section PanelFacts.
Import AlertRuleEngine AlertRuleEngine.AlertDebouncer AlertsDecisionPanel.
Import DecisionRules.

(** A pass over alerts whose keys are pairwise different and have no
    entry shows them all and leaves, for each, the reading of its call. *)
Lemma filterShown_fresh (alerts : list Alert.t) :
  forall (d : AlertDebouncer.t) (clock : nat -> Z),
    List.NoDup (map key alerts) ->
    (forall a, In a alerts -> recentAlerts d !! key a = None) ->
    fst (filterShown d clock alerts) = alerts
    /\ windowMs (snd (filterShown d clock alerts)) = windowMs d
    /\ forall a, In a alerts ->
                 exists k, recentAlerts (snd (filterShown d clock alerts)) !! key a
                           = Some (clock k).
Proof.
  induction alerts as [|a alerts IH]; intros d clock Hnd Hnone.
  - simpl. repeat split. intros a [].
  - inversion Hnd as [|? ? Hnotin Hrest]; subst.
    cbn [filterShown].
    rewrite (shouldShowAlert_first d (clock 0%nat) a) by (apply Hnone; now left).
    set (d1 := {| recentAlerts := <[key a := clock 0%nat]> (recentAlerts d);
                  windowMs := windowMs d |}).
    destruct (IH d1 (fun k => clock (S k)) Hrest) as (Hshown & Hwin & Hentries).
    { intros b Hb. unfold d1; cbn [recentAlerts].
      rewrite lookup_insert_ne.
      - apply Hnone. now right.
      - intros Heq. apply Hnotin. rewrite Heq. now apply in_map. }
    destruct (filterShown d1 (fun k => clock (S k)) alerts) as [shown d2] eqn:Hpass.
    cbn [fst snd] in *. subst shown.
    split; [ reflexivity | ]. split; [ exact Hwin | ].
    intros b [<- | Hb].
    + (* the entry of [a] is not touched by the rest of the pass *)
      assert (Hkeep : forall l dd cl,
                 ~ In (key a) (map key l) ->
                 recentAlerts (snd (filterShown dd cl l)) !! key a
                 = recentAlerts dd !! key a).
      { clear. induction l as [|x l IHl]; intros dd cl Hout; [ reflexivity | ].
        cbn [filterShown].
        destruct (shouldShowAlert dd (cl 0%nat) x) as [show dd1] eqn:Hs.
        destruct (filterShown dd1 (fun k => cl (S k)) l) as [sh dd2] eqn:Hp.
        cbn [snd].
        assert (H2 : recentAlerts dd2 !! key a = recentAlerts dd1 !! key a).
        { specialize (IHl dd1 (fun k => cl (S k))). rewrite Hp in IHl.
          apply IHl. intros Hin. apply Hout. now right. }
        rewrite H2. unfold shouldShowAlert in Hs.
        destruct (match recentAlerts dd !! key x with
                  | Some shown => (shown =? 0)%Z || (windowMs dd <? cl 0%nat - shown)%Z
                  | None => true
                  end); injection Hs as <- <-; [ | reflexivity ].
        cbn [recentAlerts]. apply lookup_insert_ne.
        intros Heq. apply Hout. left. now rewrite Heq. }
      exists 0%nat. specialize (Hkeep alerts d1 (fun k => clock (S k)) Hnotin).
      rewrite Hpass in Hkeep. cbn [snd] in Hkeep. rewrite Hkeep.
      unfold d1; cbn [recentAlerts]. apply lookup_insert_eq.
    + destruct (Hentries b Hb) as (k & Hk). exists (S k). exact Hk.
Qed.

(** A pass in which every alert has an entry that is not 0 and lies
    within the window of every reading shows nothing and writes nothing. *)
Lemma filterShown_suppressed (alerts : list Alert.t) :
  forall (d : AlertDebouncer.t) (clock : nat -> Z),
    (forall a, In a alerts ->
               exists shown, recentAlerts d !! key a = Some shown
                             /\ shown <> 0%Z
                             /\ forall j, (clock j - shown <= windowMs d)%Z) ->
    filterShown d clock alerts = ([], d).
Proof.
  induction alerts as [|a alerts IH]; intros d clock Hall; [ reflexivity | ].
  cbn [filterShown].
  destruct (Hall a) as (shown & Hshown & Hnz & Hwin); [ now left | ].
  rewrite (shouldShowAlert_within d (clock 0%nat) shown a Hshown Hnz (Hwin 0%nat)).
  rewrite IH; [ reflexivity | ].
  intros b Hb. destruct (Hall b) as (t & Ht & Htz & Htw); [ now right | ].
  exists t. split; [ exact Ht | ]. split; [ exact Htz | ].
  intros j. apply Htw.
Qed.

Lemma NoDup_map_resolveConflicts {B : Type} (f : Alert.t -> B)
    (alerts : list Alert.t) :
  List.NoDup (map f alerts) -> List.NoDup (map f (resolveConflicts alerts)).
Proof.
  intros Hnd.
  assert (Hfirst : forall c a, In a (firstOf (bucket c alerts)) ->
                               In a alerts /\ categoryOf a = c).
  { intros c a Ha. destruct (bucket c alerts) as [|x l] eqn:Hb; [ destruct Ha | ].
    destruct Ha as [<- | []].
    assert (Hin : In x (bucket c alerts)) by (rewrite Hb; now left).
    apply filter_In in Hin as [Hin Hc]. split; [ exact Hin | ].
    now apply Category_eqb_eq. }
  assert (Hone : forall c, List.NoDup (map f (firstOf (bucket c alerts)))).
  { intros c. destruct (bucket c alerts) as [|x l]; simpl; repeat constructor.
    intros []. }
  assert (Hcross : forall c c' a b,
             c <> c' ->
             In a (firstOf (bucket c alerts)) ->
             In b (firstOf (bucket c' alerts)) -> f a <> f b).
  { intros c c' a b Hne Ha Hb Heq.
    destruct (Hfirst c a Ha) as [Hina Hca], (Hfirst c' b Hb) as [Hinb Hcb].
    apply Hne. rewrite <- Hca, <- Hcb. f_equal.
    exact (NoDup_map_inj f alerts a b Hnd Hina Hinb Heq). }
  rewrite resolveConflicts_buckets.
  assert (Happ : forall (l k : list Alert.t),
             List.NoDup (map f l) -> List.NoDup (map f k) ->
             (forall a b, In a l -> In b k -> f a <> f b) ->
             List.NoDup (map f (l ++ k))).
  { intros l k Hl Hk Hlk. rewrite map_app. apply NoDup_ListNoDup.
    apply NoDup_app. split; [ now apply NoDup_ListNoDup | ].
    split; [ | now apply NoDup_ListNoDup ].
    intros y Hy1 Hy2. apply list_elem_of_In in Hy1, Hy2.
    apply in_map_iff in Hy1 as (a & <- & Ha).
    apply in_map_iff in Hy2 as (b & Hb' & Hb).
    exact (Hlk a b Ha Hb (eq_sym Hb')). }
  apply Happ; [ apply Hone | | ].
  - apply Happ; [ apply Hone | | ].
    + apply Happ; [ apply Hone | apply Hone | ].
      intros a b Ha Hb. now apply (Hcross Economical System).
    + intros a b Ha Hb. apply in_app_or in Hb as [Hb | Hb].
      * now apply (Hcross Environmental Economical).
      * now apply (Hcross Environmental System).
  - intros a b Ha Hb.
    apply in_app_or in Hb as [Hb | Hb]; [ now apply (Hcross Disease Environmental) | ].
    apply in_app_or in Hb as [Hb | Hb]; [ now apply (Hcross Disease Economical) | ].
    now apply (Hcross Disease System).
Qed.

Lemma DECISION_RULES_keys :
  List.NoDup (map (fun rule => Rule.id rule ++ "_" ++ Template.type (Rule.alert rule))
                  DECISION_RULES).
Proof.
  apply NoDup_ListNoDup. apply (bool_decide_unpack _). vm_compute. reflexivity.
Qed.

Lemma evaluateAlerts_keys (signals : Signals.t) (now : Z) (isoNow : string) :
  List.NoDup (map key (evaluateAlerts signals now isoNow)).
Proof.
  rewrite evaluateAlerts_filter, map_map.
  apply (NoDup_map_filter
           (fun rule => Rule.id rule ++ "_" ++ Template.type (Rule.alert rule))).
  exact DECISION_RULES_keys.
Qed.

(** Which rules keep their alert depends on the conditions only: two
    snapshots on which the rules agree keep alerts of the same keys. *)
Lemma kept_keys_stable (s s' : Signals.t) (now now' : Z) (iso iso' : string) :
  (forall rule, In rule DECISION_RULES ->
                Rule.condition rule s = Rule.condition rule s') ->
  forall a', In a' (resolveConflicts (evaluateAlerts s' now' iso')) ->
             exists a, In a (resolveConflicts (evaluateAlerts s now iso))
                       /\ key a = key a'.
Proof.
  intros Hsame a' Ha'.
  pose proof (resolveConflicts_incl _ _ Ha') as Hmem.
  apply evaluateRules_In in Hmem as (rule & Hrule & _ & ->).
  destruct (in_split _ _ Hrule) as (before & after & Htable).
  apply (survivor_iff s' now' iso' before after rule Htable) in Ha'
    as [Hfires Hearlier].
  exists (createAlert rule s now iso). split; [ | reflexivity ].
  apply (survivor_iff s now iso before after rule Htable). split.
  - now rewrite Hsame.
  - intros earlier Hin Hcat. rewrite Hsame.
    + apply Hearlier; [ exact Hin | exact Hcat ].
    + rewrite Htable. apply in_or_app. now left.
Qed.

(** X19. The panel evaluates with one debouncer.  A first pass on a
    cleared debouncer shows every alert that [resolveConflicts] keeps.  A
    second pass in which the same rules fire, made while every alert is
    within the window of its first showing, shows no alert at all and
    leaves the debouncer as it was: the alerts of a condition that still
    holds leave the panel. *)
Theorem reevaluation_within_window_clears_panel
    (d : AlertDebouncer.t)
    (detections detections' : list InfectedZones.Detection)
    (stats stats' : gmap string number)
    (economicImpact economicImpact' : option Economic.t)
    (fusionResults fusionResults' : option (list Fusion.t))
    (sensorData sensorData' : option Sensor.t)
    (now now' : Z) (iso iso' : string) (clock clock' : nat -> Z) :
  let signals :=
    extractSignals detections (Some stats) economicImpact fusionResults
                   sensorData iso in
  let signals' :=
    extractSignals detections' (Some stats') economicImpact' fusionResults'
                   sensorData' iso' in
  (forall rule, In rule DECISION_RULES ->
                Rule.condition rule signals = Rule.condition rule signals') ->
  (forall k, clock k <> 0%Z) ->
  (forall j k, (clock' j - clock k <= windowMs d)%Z) ->
  exists d1,
    evaluatePanel (clear d) detections (Some stats) economicImpact fusionResults
                  sensorData now iso clock
    = Some (resolveConflicts (evaluateAlerts signals now iso), d1)
    /\ evaluatePanel d1 detections' (Some stats') economicImpact' fusionResults'
                     sensorData' now' iso' clock'
       = Some ([], d1).
Proof.
  intros s s' Hsame Hnz Hwithin. unfold evaluatePanel. fold s s'.
  set (kept := resolveConflicts (evaluateAlerts s now iso)).
  destruct (filterShown_fresh kept (clear d) clock) as (Hshown & Hwin & Hentries).
  { apply NoDup_map_resolveConflicts. apply evaluateAlerts_keys. }
  { intros a _. apply lookup_empty. }
  destruct (filterShown (clear d) clock kept) as [shown d1] eqn:Hpass.
  cbn [fst snd] in *. subst shown.
  exists d1. split; [ reflexivity | ].
  f_equal. apply filterShown_suppressed.
  intros a' Ha'.
  destruct (kept_keys_stable s s' now now' iso iso' Hsame a' Ha')
    as (a & Ha & Hkey).
  destruct (Hentries a Ha) as (k & Hk).
  exists (clock k). rewrite <- Hkey. split; [ exact Hk | ].
  split; [ apply Hnz | ]. intros j. rewrite Hwin. apply Hwithin.
Qed.

End PanelFacts.

Section PanelExamples.
Import AlertRuleEngine AlertRuleEngine.AlertDebouncer AlertsDecisionPanel.
Import DecisionRules.

Lemma reevaluation_within_window_clears_panel_witness :
  let signals :=
    extractSignals [] (Some ∅) None None (Some Fixtures.drySoilSensor)
                   "1970-01-01T00:00:01.000Z" in
  let kept := resolveConflicts (evaluateAlerts signals 1000 "1970-01-01T00:00:01.000Z") in
  map Alert.title kept = ["💧 Severe Drought Detected"]
  /\ exists d1,
       evaluatePanel (clear alertDebouncer) [] (Some ∅) None None
                     (Some Fixtures.drySoilSensor)
                     1000 "1970-01-01T00:00:01.000Z" (fun _ => 1000%Z)
       = Some (kept, d1)
       /\ evaluatePanel d1 [] (Some ∅) None None (Some Fixtures.drierSoilSensor)
                        11000 "1970-01-01T00:00:11.000Z" (fun _ => 11000%Z)
          = Some ([], d1).
Proof.
  split; [ vm_compute; reflexivity | ].
  apply (reevaluation_within_window_clears_panel
           alertDebouncer [] [] ∅ ∅ None None None None
           (Some Fixtures.drySoilSensor) (Some Fixtures.drierSoilSensor)
           1000 11000 "1970-01-01T00:00:01.000Z" "1970-01-01T00:00:11.000Z"
           (fun _ => 1000%Z) (fun _ => 11000%Z)).
  - intros rule Hrule. cbn [In DECISION_RULES] in Hrule.
    repeat (destruct Hrule as [<- | Hrule]; [ vm_compute; reflexivity | ]).
    destruct Hrule.
  - intros k. discriminate.
  - intros j k. vm_compute. discriminate.
Defined.
End PanelExamples.

(** ** The grid points of the simulator, and the zone statistics *)

Section GpsSimulatorFacts.
Import GpsSimulator.

Lemma length_flat_map_const {A B : Type} (f : A -> list B) (n : nat) (l : list A) :
  (forall a, length (f a) = n) -> length (flat_map f l) = (length l * n)%nat.
Proof.
  intros Hf. induction l as [|a l IH]; simpl; [ reflexivity | ].
  now rewrite length_app, Hf, IH.
Qed.

Lemma gridPoint_one_row (cols col : nat) : lat (gridPoint 1 cols 0 col) = NaN.
Proof. reflexivity. Qed.

Lemma gridPoint_one_col (rows row : nat) : lng (gridPoint rows 1 row 0) = NaN.
Proof. reflexivity. Qed.

(** X20. [generateGridGPS] returns [rows * cols] points.  With one row
    every latitude is [NaN], and with one column every longitude: the
    position in the field is the quotient [0 / 0]. *)
Theorem generateGridGPS_points (rows cols : nat) :
  length (generateGridGPS rows cols) = (rows * cols)%nat
  /\ Forall (fun p => lat p = NaN) (generateGridGPS 1 cols)
  /\ Forall (fun p => lng p = NaN) (generateGridGPS rows 1).
Proof.
  split; [ | split ].
  - unfold generateGridGPS.
    rewrite (length_flat_map_const _ cols).
    + now rewrite length_seq.
    + intros row. now rewrite length_map, length_seq.
  - unfold generateGridGPS. cbn [seq flat_map]. rewrite app_nil_r.
    apply List.Forall_forall. intros p Hp.
    apply in_map_iff in Hp as (col & <- & _). apply gridPoint_one_row.
  - unfold generateGridGPS. apply List.Forall_forall. intros p Hp.
    apply in_flat_map in Hp as (row & _ & Hp). cbn [seq map] in Hp.
    destruct Hp as [<- | []]. apply gridPoint_one_col.
Qed.

End GpsSimulatorFacts.

Section ZoneStatisticsFacts.
Import FieldGrid InfectedZones.

Lemma add_ofNat (a b : nat) : add (ofNat a) (ofNat b) = ofNat (a + b).
Proof.
  unfold add, ofNat, ofZ, inject_Z, Qplus. cbn [Qnum Qden]. f_equal. f_equal. lia.
Qed.

Lemma sumZoneLengths_from (zones : list (list GridCell)) :
  forall n, fold_left (fun sum zone => add sum (ofNat (length zone))) zones (ofNat n)
            = ofNat (n + length (concat zones)).
Proof.
  induction zones as [|z zones IH]; intros n; simpl.
  - now rewrite Nat.add_0_r.
  - rewrite add_ofNat, IH, length_app. f_equal. lia.
Qed.

Lemma max2_ofNat (a b : nat) : max2 (ofNat a) (ofNat b) = ofNat (Nat.max a b).
Proof.
  unfold max2, ofNat, ofZ, lt.
  destruct (inject_Z (Z.of_nat a) ?= inject_Z (Z.of_nat b))%Q eqn:Hc.
  - apply Qeq_alt in Hc. rewrite inject_Z_injective in Hc.
    do 2 f_equal. lia.
  - apply Qlt_alt in Hc. rewrite <- Zlt_Qlt in Hc. do 2 f_equal. lia.
  - apply Qgt_alt in Hc. rewrite <- Zlt_Qlt in Hc. do 2 f_equal. lia.
Qed.

Lemma Math_max_from (sizes : list nat) :
  forall n, fold_left max2 (map ofNat sizes) (ofNat n)
            = ofNat (Nat.max n (list_max sizes)).
Proof.
  induction sizes as [|s sizes IH]; intros n.
  - cbn [map fold_left list_max fold_right]. now rewrite Nat.max_0_r.
  - cbn [map fold_left]. rewrite max2_ofNat, IH. f_equal.
    change (list_max (s :: sizes)) with (Nat.max s (list_max sizes)). lia.
Qed.

(** X21. [getZoneStatistics]: the number of zones, the number of cells
    of all zones and the length of the longest zone (0 without zones: the
    maximum is not taken of an empty list).  The average length is the
    number 0 without zones and otherwise a string, which reads as a
    number within 0.05 of the quotient of the cells by the zones; which
    of two decimals a quotient near a tie gets is left open. *)
Theorem getZoneStatistics_totals (zones : list (list GridCell)) :
  let stats := getZoneStatistics zones in
  zoneCount stats = ofNat (length zones)
  /\ totalInfectedCells stats = ofNat (length (concat zones))
  /\ largestZone stats = ofNat (list_max (map (@length GridCell) zones))
  /\ match zones with
     | [] => averageZoneSize stats = Num (ofZ 0)
     | _ :: _ =>
         exists (text : string) (average : Q),
           averageZoneSize stats = Str text
           /\ parseFloat text = Fin average
           /\ (Qabs (average - inject_Z (Z.of_nat (length (concat zones)))
                               / inject_Z (Z.of_nat (length zones)))
               <= 1 # 20)%Q
     end.
Proof.
  cbv zeta. unfold getZoneStatistics.
  cbn [zoneCount totalInfectedCells largestZone averageZoneSize].
  assert (Hsum : sumZoneLengths zones = ofNat (length (concat zones))).
  { unfold sumZoneLengths. change (ofZ 0) with (ofNat 0).
    now rewrite sumZoneLengths_from. }
  split; [ reflexivity | ]. split; [ exact Hsum | ].
  destruct zones as [|z zones]; [ split; reflexivity | ].
  change (0 <? length (z :: zones))%nat with true. cbv iota.
  split.
  - unfold Math_max. cbn [map fold_left list_max fold_right].
    change (max2 NInf (ofNat (length z))) with (ofNat (length z)).
    rewrite <- map_map, Math_max_from. reflexivity.
  - rewrite Hsum.
    set (total := inject_Z (Z.of_nat (length (concat (z :: zones))))).
    set (count := inject_Z (Z.of_nat (length (z :: zones)))).
    assert (Hdiv : div (ofNat (length (concat (z :: zones))))
                       (ofNat (length (z :: zones))) = Fin (total / count))
      by reflexivity.
    rewrite Hdiv.
    exists (toFixed 1 (Fin (total / count))), (roundedTo 1 (total / count)).
    split; [ reflexivity | ]. split; [ apply parseFloat_toFixed | ].
    pose proof (roundedTo_close 1 (total / count)) as Hclose.
    change (inject_Z (10 ^ Z.of_nat 1)) with (10 # 1)%Q in Hclose. lra.
Qed.

End ZoneStatisticsFacts.

(** ** The scan points and the bounds of the field *)

Section GridScanBounds.
Import GpsSimulator.

(** Rounding to [d] decimals keeps a number that is not negative between
    two numbers of [d] decimals. *)
Lemma roundedTo_between (d : nat) (q : Q) (a b : Z) :
  (0 <= q)%Q ->
  (inject_Z a <= q * inject_Z (10 ^ Z.of_nat d))%Q ->
  (q * inject_Z (10 ^ Z.of_nat d) <= inject_Z b)%Q ->
  (inject_Z a <= roundedTo d q * inject_Z (10 ^ Z.of_nat d))%Q
  /\ (roundedTo d q * inject_Z (10 ^ Z.of_nat d) <= inject_Z b)%Q.
Proof.
  intros H0 Ha Hb. unfold roundedTo.
  set (p := (10 ^ Z.of_nat d)%Z) in *.
  assert (Hp : (0 < p)%Z) by (apply Z.pow_pos_nonneg; lia).
  assert (Hlt : lt (Fin q) (Fin 0) = false).
  { unfold lt. destruct (q ?= 0)%Q eqn:Hcmp; try reflexivity.
    apply Qlt_alt in Hcmp. lra. }
  rewrite Hlt, Qred_correct.
  assert (Habs : (Qabs q == q)%Q) by (apply Qabs_pos; lra).
  set (x := (Qabs q * inject_Z p + (1 # 2))%Q).
  pose proof (Qfloor_le x) as Hlo.
  assert (Hfa : (a <= Qfloor x)%Z).
  { rewrite <- (Qfloor_Z a). apply Qfloor_resp_le. unfold x. rewrite Habs. lra. }
  assert (Hfb : (Qfloor x <= b)%Z).
  { apply Z.lt_succ_r. rewrite Zlt_Qlt.
    unfold Z.succ. rewrite inject_Z_plus. change (inject_Z 1) with 1%Q.
    assert (Hx : (x <= inject_Z b + (1 # 2))%Q) by (unfold x; rewrite Habs; lra).
    lra. }
  set (n := Qfloor x) in *.
  assert (Hr : (Qmake n (Z.to_pos p) * inject_Z p == inject_Z n)%Q).
  { unfold Qeq, Qmult, inject_Z. cbn [Qnum Qden].
    rewrite Pos.mul_1_r, Z2Pos.id by exact Hp. lia. }
  rewrite Hr. split; now rewrite <- Zle_Qle.
Qed.

Lemma le_Fin (a b : Q) : (a <= b)%Q -> le (Fin a) (Fin b) = true.
Proof.
  intros H. unfold le, lt.
  destruct (b ?= a)%Q eqn:Hcmp; try reflexivity.
  apply Qlt_alt in Hcmp. lra.
Qed.

(** A coordinate at the part [t] of the way across the field: the centre
    plus the offset, to six decimals.  It lies within a thousandth of a
    degree of the centre, at the lower end for [t = 0] and at the upper
    end for [t = 1]. *)
Lemma offset_coordinate (c : Q) (C : Z) (t : Q) :
  (c * inject_Z (10 ^ 6) == inject_Z C)%Q ->
  (1 # 1000 <= c)%Q ->
  (0 <= t)%Q -> (t <= 1)%Q ->
  exists r : Q,
    parseFloat
      (toFixed 6 (add (Fin c)
                      (mul (sub (Fin t) (Fin (1 # 2))) (Fin (2 # 1000))))) = Fin r
    /\ (c - (1 # 1000) <= r)%Q /\ (r <= c + (1 # 1000))%Q
    /\ ((t == 0)%Q -> (r == c - (1 # 1000))%Q)
    /\ ((t == 1)%Q -> (r == c + (1 # 1000))%Q).
Proof.
  intros HC Hc Ht0 Ht1.
  unfold sub, neg, add, mul. rewrite parseFloat_toFixed.
  set (q := (c + (t + - (1 # 2)) * (2 # 1000))%Q).
  assert (Hq0 : (0 <= q)%Q) by (unfold q; lra).
  assert (Hscale : (q * inject_Z (10 ^ 6) == inject_Z C + (t + - (1 # 2)) * 2000)%Q).
  { unfold q. rewrite <- HC. change (inject_Z (10 ^ 6)) with (1000000 # 1)%Q. ring. }
  destruct (roundedTo_between 6 q (C - 1000) (C + 1000) Hq0) as [Hlo Hhi].
  { change (Z.of_nat 6) with 6%Z. rewrite Hscale.
    unfold Z.sub. rewrite inject_Z_plus, inject_Z_opp. change (inject_Z 1000) with 1000%Q. lra. }
  { change (Z.of_nat 6) with 6%Z. rewrite Hscale.
    rewrite inject_Z_plus. change (inject_Z 1000) with 1000%Q. lra. }
  change (Z.of_nat 6) with 6%Z in Hlo, Hhi.
  unfold Z.sub in Hlo. rewrite inject_Z_plus in Hlo, Hhi.
  rewrite inject_Z_opp in Hlo.
  change (inject_Z 1000) with 1000%Q in Hlo, Hhi.
  change (inject_Z (10 ^ 6)) with (1000000 # 1)%Q in Hlo, Hhi, HC.
  exists (roundedTo 6 q). split; [ reflexivity | ].
  split; [ lra | ]. split; [ lra | ]. split.
  - intros Ht.
    destruct (roundedTo_between 6 q (C - 1000) (C - 1000) Hq0) as [Hlo' Hhi'].
    { change (Z.of_nat 6) with 6%Z. rewrite Hscale, Ht.
      unfold Z.sub. rewrite inject_Z_plus, inject_Z_opp. change (inject_Z 1000) with 1000%Q. lra. }
    { change (Z.of_nat 6) with 6%Z. rewrite Hscale, Ht.
      unfold Z.sub. rewrite inject_Z_plus, inject_Z_opp. change (inject_Z 1000) with 1000%Q. lra. }
    change (Z.of_nat 6) with 6%Z in Hlo', Hhi'.
    unfold Z.sub in Hlo', Hhi'. rewrite inject_Z_plus, inject_Z_opp in Hlo', Hhi'.
    change (inject_Z 1000) with 1000%Q in Hlo', Hhi'.
    change (inject_Z (10 ^ 6)) with (1000000 # 1)%Q in Hlo', Hhi'.
    lra.
  - intros Ht.
    destruct (roundedTo_between 6 q (C + 1000) (C + 1000) Hq0) as [Hlo' Hhi'].
    { change (Z.of_nat 6) with 6%Z. rewrite Hscale, Ht.
      rewrite inject_Z_plus. change (inject_Z 1000) with 1000%Q. lra. }
    { change (Z.of_nat 6) with 6%Z. rewrite Hscale, Ht.
      rewrite inject_Z_plus. change (inject_Z 1000) with 1000%Q. lra. }
    change (Z.of_nat 6) with 6%Z in Hlo', Hhi'.
    rewrite inject_Z_plus in Hlo', Hhi'.
    change (inject_Z 1000) with 1000%Q in Hlo', Hhi'.
    change (inject_Z (10 ^ 6)) with (1000000 # 1)%Q in Hlo', Hhi'.
    lra.
Qed.

(** One coordinate of a point of the scan, for line [i] of [n]. *)
Lemma scan_coordinate (c : Q) (C : Z) (n i : nat) :
  (c * inject_Z (10 ^ 6) == inject_Z C)%Q ->
  (1 # 1000 <= c)%Q ->
  (2 <= n)%nat -> (i < n)%nat ->
  exists r : Q,
    parseFloat
      (toFixed 6 (add (Fin c)
                      (mul (sub (div (ofNat i) (sub (ofNat n) (ofZ 1)))
                                (Fin (1 # 2)))
                           (Fin (2 # 1000))))) = Fin r
    /\ (c - (1 # 1000) <= r)%Q /\ (r <= c + (1 # 1000))%Q
    /\ (i = 0%nat -> (r == c - (1 # 1000))%Q)
    /\ (S i = n -> (r == c + (1 # 1000))%Q).
Proof.
  intros HC Hc Hn Hi.
  set (I := inject_Z (Z.of_nat i)). set (N := inject_Z (Z.of_nat n)).
  assert (HI : (0 <= I)%Q).
  { unfold I. change 0%Q with (inject_Z 0). rewrite <- Zle_Qle. lia. }
  assert (HN : (1 <= N - 1)%Q).
  { assert (H : (inject_Z 2 <= N)%Q) by (unfold N; rewrite <- Zle_Qle; lia).
    change (inject_Z 2) with 2%Q in H. lra. }
  assert (HIN : (I <= N - 1)%Q).
  { assert (H : (inject_Z (Z.of_nat i + 1) <= N)%Q)
      by (unfold N; rewrite <- Zle_Qle; lia).
    rewrite inject_Z_plus in H. fold I in H.
    change (inject_Z 1) with 1%Q in H. lra. }
  assert (Hsub : sub (ofNat n) (ofZ 1) = Fin (N + - inject_Z 1)) by reflexivity.
  assert (Hdiv : div (ofNat i) (sub (ofNat n) (ofZ 1)) = Fin (I / (N + - inject_Z 1))).
  { rewrite Hsub. unfold div, ofNat, ofZ. fold I.
    destruct (Qeq_bool (N + - inject_Z 1) 0) eqn:Hz; [ | reflexivity ].
    apply Qeq_bool_iff in Hz. change (inject_Z 1) with 1%Q in Hz. lra. }
  rewrite Hdiv. change (inject_Z 1) with 1%Q.
  set (t := (I / (N + - 1))%Q).
  assert (Ht0 : (0 <= t)%Q).
  { unfold t. apply Qle_shift_div_l; lra. }
  assert (Ht1 : (t <= 1)%Q).
  { unfold t. apply Qle_shift_div_r; lra. }
  destruct (offset_coordinate c C t HC Hc Ht0 Ht1) as (r & Hr & Hlo & Hhi & H0 & H1).
  exists r. split; [ exact Hr | ]. split; [ exact Hlo | ]. split; [ exact Hhi | ].
  split.
  - intros ->. apply H0.
    unfold t, I. change (inject_Z (Z.of_nat 0)) with 0%Q. unfold Qdiv. ring.
  - intros Hlast. apply H1.
    unfold t. assert (HIN' : (I == N + - 1)%Q).
    { assert (H : (Z.of_nat n = Z.of_nat i + 1)%Z) by lia.
      unfold N. rewrite H, inject_Z_plus. fold I.
      change (inject_Z 1) with 1%Q. ring. }
    rewrite HIN'. field. lra.
Qed.

Lemma gridPoint_in_bounds (rows cols row col : nat) :
  (2 <= rows)%nat -> (2 <= cols)%nat -> (row < rows)%nat -> (col < cols)%nat ->
  exists la ln : Q,
    gridPoint rows cols row col = {| lat := Fin la; lng := Fin ln |}
    /\ ((286139 # 10000) - (1 # 1000) <= la)%Q
    /\ (la <= (286139 # 10000) + (1 # 1000))%Q
    /\ ((772090 # 10000) - (1 # 1000) <= ln)%Q
    /\ (ln <= (772090 # 10000) + (1 # 1000))%Q
    /\ (row = 0%nat -> (la == (286139 # 10000) - (1 # 1000))%Q)
    /\ (col = 0%nat -> (ln == (772090 # 10000) - (1 # 1000))%Q)
    /\ (S row = rows -> (la == (286139 # 10000) + (1 # 1000))%Q)
    /\ (S col = cols -> (ln == (772090 # 10000) + (1 # 1000))%Q).
Proof.
  intros Hrows Hcols Hrow Hcol.
  destruct (scan_coordinate (286139 # 10000) 28613900 rows row)
    as (la & Hla & Hla1 & Hla2 & Hla3 & Hla4);
    [ vm_compute; reflexivity | lra | exact Hrows | exact Hrow | ].
  destruct (scan_coordinate (772090 # 10000) 77209000 cols col)
    as (ln & Hln & Hln1 & Hln2 & Hln3 & Hln4);
    [ vm_compute; reflexivity | lra | exact Hcols | exact Hcol | ].
  exists la, ln. split.
  - unfold gridPoint; cbv zeta.
    change (lat FIELD_CONFIG_center) with (Fin (286139 # 10000)).
    change (lng FIELD_CONFIG_center) with (Fin (772090 # 10000)).
    change FIELD_CONFIG_latDelta with (Fin (2 # 1000)).
    change FIELD_CONFIG_lngDelta with (Fin (2 # 1000)).
    now rewrite Hla, Hln.
  - repeat split; assumption.
Qed.

Lemma strictEq_Fin (a b : Q) : (a == b)%Q -> strictEq (Fin a) (Fin b) = true.
Proof. intros H. now apply Qeq_bool_iff. Qed.

Lemma getFieldBounds_values :
  exists south west north east : Q,
    getFieldBounds = ((Fin south, Fin west), (Fin north, Fin east))
    /\ (south == (286139 # 10000) - (1 # 1000))%Q
    /\ (west == (772090 # 10000) - (1 # 1000))%Q
    /\ (north == (286139 # 10000) + (1 # 1000))%Q
    /\ (east == (772090 # 10000) + (1 # 1000))%Q.
Proof.
  do 4 eexists. split; [ reflexivity | ].
  repeat split; vm_compute; reflexivity.
Qed.

Lemma scan_corners {B : Type} (g : nat -> nat -> B) (rows cols : nat) :
  exists middle,
    flat_map (fun row => map (g row) (seq 0 (S (S cols)))) (seq 0 (S (S rows)))
    = (g 0%nat 0%nat :: middle ++ [g (S rows) (S cols)])%list.
Proof.
  set (line := fun row => map (g row) (seq 0 (S (S cols)))).
  exists (map (g 0%nat) (seq 1 (S cols))
          ++ flat_map line (seq 1 rows)
          ++ map (g (S rows)) (seq 0 (S cols)))%list.
  change (seq 0 (S (S rows))) with (0%nat :: seq 1 (S rows)).
  rewrite (seq_S rows 1). cbn [flat_map].
  rewrite flat_map_app. cbn [flat_map]. rewrite app_nil_r.
  change (1 + rows)%nat with (S rows).
  assert (Hfirst : line 0%nat = g 0%nat 0%nat :: map (g 0%nat) (seq 1 (S cols)))
    by reflexivity.
  assert (Hlast : line (S rows)
                  = (map (g (S rows)) (seq 0 (S cols)) ++ [g (S rows) (S cols)])%list).
  { unfold line. rewrite (seq_S (S cols) 0), map_app. reflexivity. }
  rewrite Hfirst, Hlast. rewrite <- app_comm_cons. f_equal.
  rewrite <- !app_assoc. reflexivity.
Qed.

Lemma generateGridGPS_corners (rows cols : nat) :
  exists middle,
    generateGridGPS (S (S rows)) (S (S cols))
    = (gridPoint (S (S rows)) (S (S cols)) 0 0
         :: middle
         ++ [gridPoint (S (S rows)) (S (S cols)) (S rows) (S cols)])%list.
Proof. unfold generateGridGPS. apply scan_corners. Qed.

(** X27. With two rows and two columns or more, every point of
    [generateGridGPS] lies within the bounds of [getFieldBounds], as [<=]
    compares the coordinates; the first point is 28.6129 N, 77.208 E and
    the last point 28.6149 N, 77.21 E, a thousandth of a degree either
    side of the centre. *)
Theorem generateGridGPS_in_bounds (rows cols : nat) :
  (2 <= rows)%nat -> (2 <= cols)%nat ->
  let south := fst (fst getFieldBounds) in
  let west := snd (fst getFieldBounds) in
  let north := fst (snd getFieldBounds) in
  let east := snd (snd getFieldBounds) in
  Forall (fun p => le south (lat p) = true /\ le (lat p) north = true
                   /\ le west (lng p) = true /\ le (lng p) east = true)
         (generateGridGPS rows cols)
  /\ exists first middle last,
       generateGridGPS rows cols = (first :: middle ++ [last])%list
       /\ strictEq (lat first) (Fin (286129 # 10000)) = true
       /\ strictEq (lng first) (Fin (77208 # 1000)) = true
       /\ strictEq (lat last) (Fin (286149 # 10000)) = true
       /\ strictEq (lng last) (Fin (7721 # 100)) = true.
Proof.
  intros Hrows Hcols.
  destruct getFieldBounds_values
    as (south & west & north & east & -> & Hs & Hw & Hn & He).
  cbv zeta. cbn [fst snd]. split.
  - apply List.Forall_forall. intros p Hp. unfold generateGridGPS in Hp.
    apply in_flat_map in Hp as (row & Hrow & Hp).
    apply in_map_iff in Hp as (col & <- & Hcol).
    apply in_seq in Hrow, Hcol.
    destruct (gridPoint_in_bounds rows cols row col)
      as (la & ln & -> & H1 & H2 & H3 & H4 & _); [ lia | lia | lia | lia | ].
    cbn [lat lng]. repeat split; apply le_Fin; lra.
  - destruct rows as [|[|rows]]; [ lia | lia | ].
    destruct cols as [|[|cols]]; [ lia | lia | ].
    destruct (generateGridGPS_corners rows cols) as (middle & ->).
    eexists _, middle, _. split; [ reflexivity | ].
    destruct (gridPoint_in_bounds (S (S rows)) (S (S cols)) 0 0)
      as (la & ln & -> & _ & _ & _ & _ & Hla & Hln & _); [ lia | lia | lia | lia | ].
    destruct (gridPoint_in_bounds (S (S rows)) (S (S cols)) (S rows) (S cols))
      as (la' & ln' & -> & _ & _ & _ & _ & _ & _ & Hla' & Hln');
      [ lia | lia | lia | lia | ].
    cbn [lat lng]. repeat split; apply strictEq_Fin.
    + rewrite (Hla eq_refl). reflexivity.
    + rewrite (Hln eq_refl). reflexivity.
    + rewrite (Hla' eq_refl). reflexivity.
    + rewrite (Hln' eq_refl). reflexivity.
Qed.

(** X28. Whatever the two readings of [Math.random()], numbers from 0
    to below 1, the point of [generateFieldGPS] lies within the bounds of
    [getFieldBounds], as [<=] compares the coordinates. *)
Theorem generateFieldGPS_in_bounds (u v : Q) :
  (0 <= u)%Q -> (u < 1)%Q -> (0 <= v)%Q -> (v < 1)%Q ->
  let point := generateFieldGPS (Fin u) (Fin v) in
  let south := fst (fst getFieldBounds) in
  let west := snd (fst getFieldBounds) in
  let north := fst (snd getFieldBounds) in
  let east := snd (snd getFieldBounds) in
  le south (lat point) = true /\ le (lat point) north = true
  /\ le west (lng point) = true /\ le (lng point) east = true.
Proof.
  intros Hu0 Hu1 Hv0 Hv1.
  destruct getFieldBounds_values
    as (south & west & north & east & -> & Hs & Hw & Hn & He).
  destruct (offset_coordinate (286139 # 10000) 28613900 u)
    as (la & Hla & Hla1 & Hla2 & _);
    [ vm_compute; reflexivity | lra | lra | lra | ].
  destruct (offset_coordinate (772090 # 10000) 77209000 v)
    as (ln & Hln & Hln1 & Hln2 & _);
    [ vm_compute; reflexivity | lra | lra | lra | ].
  cbv zeta. cbn [fst snd]. unfold generateFieldGPS; cbv zeta. cbn [lat lng].
  change (lat FIELD_CONFIG_center) with (Fin (286139 # 10000)).
  change (lng FIELD_CONFIG_center) with (Fin (772090 # 10000)).
  change FIELD_CONFIG_latDelta with (Fin (2 # 1000)).
  change FIELD_CONFIG_lngDelta with (Fin (2 # 1000)).
  rewrite Hla, Hln. repeat split; apply le_Fin; lra.
Qed.

End GridScanBounds.

Section GridScanExamples.
Import GpsSimulator.

Lemma generateGridGPS_in_bounds_witness :
  let south := fst (fst getFieldBounds) in
  let west := snd (fst getFieldBounds) in
  let north := fst (snd getFieldBounds) in
  let east := snd (snd getFieldBounds) in
  Forall (fun p => le south (lat p) = true /\ le (lat p) north = true
                   /\ le west (lng p) = true /\ le (lng p) east = true)
         (generateGridGPS 4 5)
  /\ exists first middle last,
       generateGridGPS 4 5 = (first :: middle ++ [last])%list
       /\ strictEq (lat first) (Fin (286129 # 10000)) = true
       /\ strictEq (lng first) (Fin (77208 # 1000)) = true
       /\ strictEq (lat last) (Fin (286149 # 10000)) = true
       /\ strictEq (lng last) (Fin (7721 # 100)) = true.
Proof. apply (generateGridGPS_in_bounds 4 5); lia. Defined.

Lemma generateFieldGPS_in_bounds_witness :
  let point := generateFieldGPS (Fin (1 # 4)) (Fin (3 # 4)) in
  let south := fst (fst getFieldBounds) in
  let west := snd (fst getFieldBounds) in
  let north := fst (snd getFieldBounds) in
  let east := snd (snd getFieldBounds) in
  le south (lat point) = true /\ le (lat point) north = true
  /\ le west (lng point) = true /\ le (lng point) east = true.
Proof. apply (generateFieldGPS_in_bounds (1 # 4) (3 # 4)); lra. Defined.

End GridScanExamples.

(** ** The economic calculator *)

Section EconomicFacts.
Import AlertRuleEngine DecisionRules EconomicConfig EconomicCalculator.

Variable fraction : Q -> string.

Lemma asEconomicImpact_reads (gridStats : option (gmap string number)) (iso : string) :
  exists roi,
    asEconomicImpact (impactObject (calculateEconomicImpact fraction gridStats iso))
    = Some {| Economic.roi := roi; Economic.potentialLoss := None |}
    /\ (roi = None
        \/ roi = Some {| Economic.perApplication :=
                           Some {| Economic.roiRatio := None |} |}).
Proof.
  unfold calculateEconomicImpact.
  destruct gridStats as [stats|].
  - destruct (match stats !! "infectedCount" with
              | Some infectedCount => strictEq infectedCount (ofZ 0)
              | None => false
              end).
    + exists None. split; [ reflexivity | now left ].
    + eexists. split; [ reflexivity | right; reflexivity ].
  - exists None. split; [ reflexivity | now left ].
Qed.

(** X22. The dashboard hands the result of [calculateEconomicImpact]
    to the panel.  The calculator writes no [potentialLoss] and no
    [roi.perApplication.roiRatio] (the ratio is under [roiMultiplier]), so
    both signals are 0 whatever the statistics, and the alerts "Low ROI
    Warning" and "High Economic Risk" are never raised. *)
Theorem economic_signals_stay_zero
    (impactStats : option (gmap string number)) (impactIso : string)
    (detections : list InfectedZones.Detection)
    (gridStats : option (gmap string number))
    (fusionResults : option (list Fusion.t)) (sensorData : option Sensor.t)
    (now : Z) (isoNow : string) :
  let economicImpact :=
    impactObject (calculateEconomicImpact fraction impactStats impactIso) in
  let signals :=
    extractSignals detections gridStats (asEconomicImpact economicImpact)
                   fusionResults sensorData isoNow in
  let names := map Alert.ruleName (evaluateAlerts signals now isoNow) in
  Signals.roiRatio signals = ofZ 0
  /\ Signals.potentialLoss signals = ofZ 0
  /\ ~ In "Low ROI Warning" names
  /\ ~ In "High Economic Risk" names.
Proof.
  cbv zeta.
  destruct (asEconomicImpact_reads impactStats impactIso) as (roi & -> & Hroi).
  set (signals := extractSignals _ _ _ _ _ _).
  assert (Hr : Signals.roiRatio signals = ofZ 0).
  { destruct Hroi as [-> | ->]; reflexivity. }
  assert (Hp : Signals.potentialLoss signals = ofZ 0).
  { destruct Hroi as [-> | ->]; reflexivity. }
  split; [ exact Hr | ]. split; [ exact Hp | ].
  assert (Hnone : forall rule,
             In rule DECISION_RULES ->
             In (Rule.name rule) [ "Low ROI Warning"; "High Economic Risk" ] ->
             Rule.condition rule signals = false).
  { intros rule Hin Hname. cbn [In DECISION_RULES] in Hin.
    repeat (destruct Hin as [<- | Hin]);
      try (cbn [In Rule.name RULE_001 RULE_002 RULE_003 RULE_004 RULE_005
                   RULE_008 RULE_009 RULE_010] in Hname;
           repeat (destruct Hname as [Hname | Hname]; [ discriminate Hname | ]);
           now destruct Hname);
      try (now destruct Hin);
      cbn [Rule.condition RULE_006 RULE_007]; rewrite ?Hr, ?Hp; reflexivity. }
  split; intros Hin;
    apply named_alert_triggered in Hin as (rule & Hrule & Hname & Hfires);
    rewrite Hnone in Hfires; try discriminate Hfires; try exact Hrule;
    rewrite Hname; cbn [In]; tauto.
Qed.

Lemma mul_Fin (a b : Q) : mul (Fin a) (Fin b) = Fin (a * b).
Proof. reflexivity. Qed.

Lemma add_Fin (a b : Q) : add (Fin a) (Fin b) = Fin (a + b).
Proof. reflexivity. Qed.

Lemma sub_Fin (a b : Q) : sub (Fin a) (Fin b) = Fin (a + - b).
Proof. reflexivity. Qed.

Lemma div_Fin (a b : Q) : ~ (b == 0)%Q -> div (Fin a) (Fin b) = Fin (a / b).
Proof.
  intros Hb. unfold div. destruct (Qeq_bool b 0) eqn:Hz; [ | reflexivity ].
  apply Qeq_bool_iff in Hz. contradiction.
Qed.

Lemma lt_Fin (a b : Q) : lt (Fin a) (Fin b) = true <-> (a < b)%Q.
Proof.
  unfold lt. rewrite Qlt_alt. destruct (a ?= b)%Q; split; congruence.
Qed.

(** The figures of one application, for [k] infected cells. *)
Lemma calculateROI_of_count (stats : gmap string number) (k : nat) :
  stats !! "infectedCount" = Some (ofNat k) ->
  (1 <= k)%nat ->
  let x := inject_Z (Z.of_nat k) in
  let areas := calculateAreas stats in
  let yieldData := calculateYieldLoss areas in
  let financialData := calculateFinancialLoss yieldData in
  let costs := calculateInterventionCosts areas in
  let roi := calculateROI fraction financialData costs yieldData in
  exists saved protection cost benefit : Q,
    (saved == - (8000 * x))%Q
    /\ (protection == 8000 * x)%Q
    /\ (cost == 60 * x + 500)%Q
    /\ (benefit == 7940 * x + 6000)%Q
    /\ FinancialData.moneySavedByTreatment financialData = Fin saved
    /\ PerApplication.yieldProtectionValue (Roi.perApplication roi) = Fin protection
    /\ PerApplication.systemCost (Roi.perApplication roi) = Fin cost
    /\ PerApplication.totalBenefit (Roi.perApplication roi) = Fin benefit
    /\ PerApplication.roiMultiplier (Roi.perApplication roi) = Fin (benefit / cost)
    /\ BreakEven.message (Roi.breakEven roi) = "Profitable from first application".
Proof.
  intros Hcount Hk. cbv zeta.
  unfold calculateROI, calculateFinancialLoss, calculateInterventionCosts,
    calculateYieldLoss, calculateAreas.
  cbv zeta.
  cbn [Roi.perApplication Roi.breakEven BreakEven.message
       PerApplication.yieldProtectionValue PerApplication.systemCost
       PerApplication.totalBenefit PerApplication.roiMultiplier
       FinancialData.moneySavedByTreatment
       InterventionCosts.precision InterventionCosts.savings
       Spraying.totalCost Savings.costSavings
       YieldData.yieldSavedByTreatment YieldData.totalYieldUntreated
       YieldData.totalYieldTreated YieldData.perfectYield
       Areas.infectedArea Areas.healthyArea Areas.totalArea].
  rewrite Hcount. cbn [operand].
  unfold totalAreaHectares, cellAreaHectares, yieldPerHectare, pricePerKg,
    lossPercentageUntreated, lossPercentageTreated, costPerHectare,
    fixedCostPerMission, ofNat, ofZ.
  set (x := inject_Z (Z.of_nat k)).
  assert (Hx : (1 <= x)%Q).
  { unfold x. change 1%Q with (inject_Z 1). rewrite <- Zle_Qle. lia. }
  clearbody x.
  rewrite !(div_Fin _ (inject_Z 100)) by discriminate.
  rewrite ?mul_Fin, ?sub_Fin, ?add_Fin.
  rewrite ?mul_Fin, ?sub_Fin, ?add_Fin.
  rewrite ?mul_Fin, ?sub_Fin, ?add_Fin.
  rewrite ?mul_Fin, ?sub_Fin, ?add_Fin.
  match goal with
  | |- context [div (Fin ?b) (Fin ?c)] =>
      set (benefit := b); set (cost := c)
  end.
  assert (Hcost : (cost == 60 * x + 500)%Q).
  { unfold cost. unfold inject_Z. ring. }
  assert (Hbenefit : (benefit == 7940 * x + 6000)%Q).
  { unfold benefit. unfold inject_Z. field. }
  rewrite !(div_Fin _ cost) by (rewrite Hcost; lra).
  rewrite (div_Fin cost benefit) by (rewrite Hbenefit; lra).
  assert (Hfirst : lt (Fin (cost / benefit)) (Fin (inject_Z 1)) = true).
  { apply lt_Fin. change (inject_Z 1) with 1%Q.
    apply Qlt_shift_div_r; rewrite Hbenefit, ?Hcost; lra. }
  rewrite Hfirst.
  eexists _, _, cost, benefit.
  split; [ | split; [ | split; [ exact Hcost | split; [ exact Hbenefit | ] ] ] ].
  3: { repeat split; reflexivity. }
  - unfold inject_Z. field.
  - unfold inject_Z. field.
Qed.

Lemma calculateEconomicImpact_infected (stats : gmap string number) (k : nat)
    (iso : string) :
  stats !! "infectedCount" = Some (ofNat k) ->
  (1 <= k)%nat ->
  calculateEconomicImpact fraction (Some stats) iso
  = let areas := calculateAreas stats in
    let yieldData := calculateYieldLoss areas in
    let financialData := calculateFinancialLoss yieldData in
    let interventionCosts := calculateInterventionCosts areas in
    let roi := calculateROI fraction financialData interventionCosts yieldData in
    {| Impact.hasInfection := true;
       Impact.message :=
         countText fraction (Areas.infectedCells areas) ++ " zones infected ("
           ++ toFixed 1 (Areas.infectionPercentage areas) ++ "% of field)";
       Impact.areas := Some areas;
       Impact.yieldData := Some yieldData;
       Impact.financialData := Some financialData;
       Impact.interventionCosts := Some interventionCosts;
       Impact.roi := Some roi;
       Impact.timestamp := Some iso |}.
Proof.
  intros Hcount Hk. unfold calculateEconomicImpact. rewrite Hcount.
  assert (Hnz : strictEq (ofNat k) (ofZ 0) = false).
  { unfold strictEq, ofNat, ofZ.
    destruct (Qeq_bool (inject_Z (Z.of_nat k)) (inject_Z 0)) eqn:Hz; [ | reflexivity ].
    apply Qeq_bool_iff in Hz. rewrite inject_Z_injective in Hz. lia. }
  now rewrite Hnz.
Qed.

(** X23. For statistics with [k >= 1] infected cells the calculator
    reports an infection, a return per application between 24 and 133
    times the cost, and the break-even message "Profitable from first
    application". *)
Theorem treatment_is_always_reported_profitable
    (stats : gmap string number) (k : nat) (iso : string) :
  stats !! "infectedCount" = Some (ofNat k) ->
  (1 <= k)%nat ->
  let impact := calculateEconomicImpact fraction (Some stats) iso in
  Impact.hasInfection impact = true
  /\ exists roi multiplier,
       Impact.roi impact = Some roi
       /\ PerApplication.roiMultiplier (Roi.perApplication roi) = Fin multiplier
       /\ (24 < multiplier)%Q /\ (multiplier < 133)%Q
       /\ BreakEven.message (Roi.breakEven roi)
          = "Profitable from first application".
Proof.
  intros Hcount Hk. cbv zeta.
  rewrite (calculateEconomicImpact_infected stats k iso Hcount Hk). cbv zeta.
  split; [ reflexivity | ].
  destruct (calculateROI_of_count stats k Hcount Hk)
    as (saved & protection & cost & benefit & _ & _ & Hcost & Hbenefit
        & _ & _ & _ & _ & Hm & Hmsg).
  assert (Hx : (1 <= inject_Z (Z.of_nat k))%Q).
  { change 1%Q with (inject_Z 1). rewrite <- Zle_Qle. lia. }
  eexists _, (benefit / cost)%Q. cbn [Impact.roi].
  split; [ reflexivity | ]. split; [ exact Hm | ].
  split; [ | split; [ | exact Hmsg ] ].
  - apply Qlt_shift_div_l; rewrite ?Hbenefit, Hcost; lra.
  - apply Qlt_shift_div_r; rewrite ?Hbenefit, Hcost; lra.
Qed.

(** X24. For [k >= 1] infected cells [moneySavedByTreatment] is a
    negative amount, about [-8000 k] (within one part in 8000): the
    revenue with treatment is subtracted from the revenue without.  The
    [yieldProtectionValue] of [calculateROI], computed from the yield, is
    about [8000 k], with the sign of a gain. *)
Theorem money_saved_by_treatment_is_negative
    (stats : gmap string number) (k : nat) (iso : string) :
  stats !! "infectedCount" = Some (ofNat k) ->
  (1 <= k)%nat ->
  let impact := calculateEconomicImpact fraction (Some stats) iso in
  let cells := inject_Z (Z.of_nat k) in
  exists financialData roi saved protection,
    Impact.financialData impact = Some financialData
    /\ Impact.roi impact = Some roi
    /\ FinancialData.moneySavedByTreatment financialData = Fin saved
    /\ PerApplication.yieldProtectionValue (Roi.perApplication roi)
       = Fin protection
    /\ (saved < 0)%Q
    /\ (- (8001 * cells) <= saved)%Q /\ (saved <= - (7999 * cells))%Q
    /\ (0 < protection)%Q
    /\ (7999 * cells <= protection)%Q /\ (protection <= 8001 * cells)%Q.
Proof.
  intros Hcount Hk. cbv zeta.
  rewrite (calculateEconomicImpact_infected stats k iso Hcount Hk). cbv zeta.
  destruct (calculateROI_of_count stats k Hcount Hk)
    as (saved & protection & cost & benefit & Hsaved & Hprotection & _ & _
        & Hs & Hp & _).
  assert (Hx : (1 <= inject_Z (Z.of_nat k))%Q).
  { change 1%Q with (inject_Z 1). rewrite <- Zle_Qle. lia. }
  eexists _, _, saved, protection. cbn [Impact.financialData Impact.roi].
  split; [ reflexivity | ]. split; [ reflexivity | ].
  split; [ exact Hs | ]. split; [ exact Hp | ].
  rewrite Hsaved, Hprotection. repeat split; lra.
Qed.

End EconomicFacts.

Section EconomicExamples.
Import AlertRuleEngine DecisionRules EconomicConfig EconomicCalculator Fixtures.

Lemma treatment_is_always_reported_profitable_witness :
  let impact := calculateEconomicImpact noDigits (Some threeInfected) "" in
  Impact.hasInfection impact = true
  /\ exists roi multiplier,
       Impact.roi impact = Some roi
       /\ PerApplication.roiMultiplier (Roi.perApplication roi) = Fin multiplier
       /\ (24 < multiplier)%Q /\ (multiplier < 133)%Q
       /\ BreakEven.message (Roi.breakEven roi)
          = "Profitable from first application".
Proof.
  apply (treatment_is_always_reported_profitable noDigits threeInfected 3 "").
  - reflexivity.
  - lia.
Defined.

Lemma money_saved_by_treatment_is_negative_witness :
  let impact := calculateEconomicImpact noDigits (Some threeInfected) "" in
  let cells := inject_Z (Z.of_nat 3) in
  exists financialData roi saved protection,
    Impact.financialData impact = Some financialData
    /\ Impact.roi impact = Some roi
    /\ FinancialData.moneySavedByTreatment financialData = Fin saved
    /\ PerApplication.yieldProtectionValue (Roi.perApplication roi)
       = Fin protection
    /\ (saved < 0)%Q
    /\ (- (8001 * cells) <= saved)%Q /\ (saved <= - (7999 * cells))%Q
    /\ (0 < protection)%Q
    /\ (7999 * cells <= protection)%Q /\ (protection <= 8001 * cells)%Q.
Proof.
  apply (money_saved_by_treatment_is_negative noDigits threeInfected 3 "").
  - reflexivity.
  - lia.
Defined.
End EconomicExamples.

(** ** The economic impact with fusion results *)

Section FusionEnhancedFacts.
Import EconomicConfig EconomicCalculator.

Variable fraction : Q -> string.
Variable stringToNumber : string -> number.

(** The object of [calculateInterventionCosts] has the properties
    [precision], [blanket] and [savings], and none called
    [precisionSpray]. *)
Lemma costsObject_precisionSpray (c : InterventionCosts.t) :
  member "precisionSpray" (costsObject c) = Returned Undefined.
Proof. reflexivity. Qed.

(** X29. [calculateFusionEnhancedROI] returns the base impact when
    there are no fusion results, missing or an empty list.  For every
    list with a result it throws, whatever the statistics: it reads
    [interventionCosts.precisionSpray.totalCost], and the costs have the
    property [precision] and none called [precisionSpray]; without
    infection the costs are [null], and without statistics
    [infectedCount] is read of [null]. *)
Theorem fusion_enhanced_roi_throws
    (gridStats : option (gmap string number)) (sensorData : option Sensor.t)
    (fusionResults : option (list Fusion.t)) (isoNow : string) :
  calculateFusionEnhancedROI fraction stringToNumber gridStats sensorData
                             fusionResults isoNow
  = match fusionResults with
    | None | Some [] =>
        Returned (impactObject (calculateEconomicImpact fraction gridStats isoNow))
    | Some (_ :: _) => Thrown
    end.
Proof.
  unfold calculateFusionEnhancedROI; cbv zeta.
  destruct fusionResults as [[|result results]|]; try reflexivity.
  destruct gridStats as [stats|]; [ | reflexivity ].
  generalize (calculateEconomicImpact fraction (Some stats) isoNow) as baseImpact.
  intros baseImpact. cbn [mbind outcome_bind].
  destruct (Impact.interventionCosts baseImpact) as [costs|]; reflexivity.
Qed.

End FusionEnhancedFacts.

(** ** Infected zones *)

Section KeyFacts.
Import FieldGrid InfectedZones.

Lemma cellKey_inj (r c r' c' : Z) :
  (0 <= r)%Z -> (0 <= c)%Z -> (0 <= r')%Z -> (0 <= c')%Z ->
  cellKey r c = cellKey r' c' -> r = r' /\ c = c'.
Proof.
  intros Hr Hc Hr' Hc'. unfold cellKey.
  rewrite !dec_nonneg by assumption. intros Heq.
  assert (Hsplit : forall n m : Z,
             (0 <= n)%Z ->
             takeDigits (numeral n ++ "_" ++ numeral m)
             = (numeral n, "_" ++ numeral m)).
  { intros n m Hn. apply takeDigits_app; [ now apply numeral_allDigits | ].
    reflexivity. }
  pose proof (Hsplit r c Hr) as H1. pose proof (Hsplit r' c' Hr') as H2.
  rewrite Heq, H2 in H1. injection H1 as Hrow Hcol.
  split.
  - rewrite <- (numeral_value r), <- (numeral_value r') by assumption.
    now rewrite Hrow.
  - rewrite !append_nil_l in Hcol.
    rewrite <- (numeral_value c), <- (numeral_value c') by assumption.
    now rewrite Hcol.
Qed.

Lemma placeKey_inj (p q : nat * nat) : placeKey p = placeKey q -> p = q.
Proof.
  destruct p as [r c], q as [r' c']. unfold placeKey. cbn [fst snd].
  intros H. apply cellKey_inj in H as [Hr Hc]; try lia.
  f_equal; lia.
Qed.

End KeyFacts.

Section ListFacts.
Import FieldGrid InfectedZones.

Lemma filter_length_le_pointwise {A : Type} (f g : A -> bool) (l : list A) :
  (forall x, In x l -> f x = true -> g x = true) ->
  (length (List.filter f l) <= length (List.filter g l))%nat.
Proof.
  induction l as [|a l IH]; intros H; simpl; [ lia | ].
  assert (IH' : (length (List.filter f l) <= length (List.filter g l))%nat).
  { apply IH. intros x Hx. apply H. now right. }
  destruct (f a) eqn:Hf.
  - rewrite (H a) by (auto; now left). simpl. lia.
  - destruct (g a); simpl; lia.
Qed.

Lemma filter_length_lt_pointwise {A : Type} (f g : A -> bool) (l : list A) (a : A) :
  (forall x, In x l -> f x = true -> g x = true) ->
  In a l -> f a = false -> g a = true ->
  (length (List.filter f l) < length (List.filter g l))%nat.
Proof.
  induction l as [|b l IH]; intros H Hin Hf Hg; [ destruct Hin | ].
  simpl. destruct Hin as [-> | Hin].
  - rewrite Hf, Hg. simpl.
    pose proof (filter_length_le_pointwise f g l) as Hle.
    assert ((length (List.filter f l) <= length (List.filter g l))%nat).
    { apply Hle. intros x Hx. apply H. now right. }
    lia.
  - assert (IH' : (length (List.filter f l) < length (List.filter g l))%nat).
    { apply IH; auto. intros x Hx. apply H. now right. }
    destruct (f b) eqn:Hfb.
    + rewrite (H b) by (auto; now left). simpl. lia.
    + destruct (g b); simpl; lia.
Qed.

Lemma in_places (rows cols : nat) (p : nat * nat) :
  In p (places rows cols) <-> (fst p < rows)%nat /\ (snd p < cols)%nat.
Proof.
  unfold places. rewrite in_flat_map. split.
  - intros (row & Hrow & Hp). apply in_map_iff in Hp as (col & <- & Hcol).
    apply in_seq in Hrow, Hcol. simpl. lia.
  - intros [Hr Hc]. exists (fst p). split; [ apply in_seq; lia | ].
    apply in_map_iff. exists (snd p). split; [ now destruct p | apply in_seq; lia ].
Qed.

Lemma places_NoDup (rows cols : nat) : List.NoDup (places rows cols).
Proof.
  unfold places.
  assert (Hrow : forall row : nat, List.NoDup (map (pair row) (seq 0 cols))).
  { intros row. generalize (seq_NoDup cols 0). generalize (seq 0 cols) as l.
    induction l as [|c l IH]; intros Hnd; simpl; constructor;
      inversion Hnd as [|? ? Hnotin Hrest]; subst; [ | now apply IH ].
    intros Hin. apply in_map_iff in Hin as (c' & Heq & Hc').
    injection Heq as ->. contradiction. }
  generalize (seq_NoDup rows 0). generalize (seq 0 rows) as l.
  induction l as [|r l IH]; intros Hnd; simpl; [ constructor | ].
  inversion Hnd as [|? ? Hnotin Hrest]; subst.
  apply NoDup_ListNoDup, NoDup_app.
  split; [ apply NoDup_ListNoDup, Hrow | ].
  split; [ | apply NoDup_ListNoDup, IH, Hrest ].
  intros p Hp Hp'. apply list_elem_of_In in Hp, Hp'.
  apply in_map_iff in Hp as (c & <- & _).
  apply in_flat_map in Hp' as (r' & Hr' & Hp').
  apply in_map_iff in Hp' as (c' & Heq & _). injection Heq as -> _.
  contradiction.
Qed.

End ListFacts.

Section UnseenFacts.
Import FieldGrid InfectedZones.

Variables rows cols : nat.

Lemma unseen_mono (V V' : gset string) :
  (forall k, k ∈ V -> k ∈ V') -> (unseen rows cols V' <= unseen rows cols V)%nat.
Proof.
  intros Hsub. unfold unseen. apply filter_length_le_pointwise.
  intros p _. rewrite !negb_true_iff, !bool_decide_eq_false. auto.
Qed.

Lemma unseen_insert (V V' : gset string) (p : nat * nat) :
  In p (places rows cols) ->
  placeKey p ∉ V ->
  (forall k, k ∈ V -> k ∈ V') ->
  placeKey p ∈ V' ->
  (unseen rows cols V' < unseen rows cols V)%nat.
Proof.
  intros Hp Hout Hsub Hin. unfold unseen.
  apply (filter_length_lt_pointwise _ _ _ p).
  - intros q _. rewrite !negb_true_iff, !bool_decide_eq_false. auto.
  - exact Hp.
  - apply negb_false_iff, bool_decide_eq_true. exact Hin.
  - apply negb_true_iff, bool_decide_eq_false. exact Hout.
Qed.

End UnseenFacts.

Section ChainFacts.
Import FieldGrid InfectedZones.

Lemma chainedFrom_app (l1 l2 : list (nat * nat)) :
  forall e, chainedFrom e (l1 ++ l2)
            <-> chainedFrom e l1 /\ chainedFrom (e ++ l1) l2.
Proof.
  induction l1 as [|p l1 IH]; intros e; simpl.
  - rewrite app_nil_r. tauto.
  - rewrite IH, <- app_assoc. simpl. tauto.
Qed.

Lemma adjacent_sym (p q : nat * nat) : adjacent p q -> adjacent q p.
Proof. unfold adjacent. intuition auto. Qed.

End ChainFacts.

Section ZoneSearch.
Import FieldGrid InfectedZones.

Variable grid : Grid.
Variables rows cols : nat.
Hypothesis Hrows : length grid = rows.
Hypothesis Hcols : forall gridRow, In gridRow grid -> length gridRow = cols.

Local Abbreviation everywhere := (places rows cols).
Local Abbreviation search :=
  (fun fuel => dfs fuel grid (Z.of_nat rows) (Z.of_nat cols)).

Lemma placeCell_some (p : nat * nat) :
  In p everywhere -> exists cell, placeCell grid p = Some cell.
Proof.
  intros Hp. apply in_places in Hp as [Hr Hc].
  unfold placeCell, cellAt. rewrite !Nat2Z.id.
  destruct (lookup_lt_is_Some_2 grid (fst p)) as [gridRow Hrow]; [ lia | ].
  rewrite Hrow. cbn [mbind option_bind].
  assert (Hlen : length gridRow = cols).
  { apply Hcols. apply list_elem_of_In. eapply list_elem_of_lookup_2. exact Hrow. }
  destruct (lookup_lt_is_Some_2 gridRow (snd p)) as [cell Hcell]; [ lia | ].
  eauto.
Qed.

Lemma bounds_cases (row col : Z) :
  ((row <? 0)%Z || (Z.of_nat rows <=? row)%Z || (col <? 0)%Z
   || (Z.of_nat cols <=? col)%Z = true
   /\ forall p, In p everywhere ->
                ~ (Z.of_nat (fst p) = row /\ Z.of_nat (snd p) = col))
  \/ ((row <? 0)%Z || (Z.of_nat rows <=? row)%Z || (col <? 0)%Z
      || (Z.of_nat cols <=? col)%Z = false
      /\ exists p, In p everywhere
                   /\ Z.of_nat (fst p) = row /\ Z.of_nat (snd p) = col).
Proof.
  destruct ((row <? 0)%Z || (Z.of_nat rows <=? row)%Z || (col <? 0)%Z
            || (Z.of_nat cols <=? col)%Z) eqn:Htest.
  - left. split; [ reflexivity | ]. intros p Hp [Hr Hc].
    apply in_places in Hp. rewrite !orb_true_iff in Htest. lia.
  - right. split; [ reflexivity | ].
    rewrite !orb_false_iff in Htest.
    exists (Z.to_nat row, Z.to_nat col). cbn [fst snd].
    rewrite in_places. cbn [fst snd]. lia.
Qed.

Lemma dfs_S (fuel : nat) (row col : Z) (V : gset string) (zone : list GridCell) :
  search (S fuel) row col V zone
  = if (row <? 0)%Z || (Z.of_nat rows <=? row)%Z || (col <? 0)%Z
       || (Z.of_nat cols <=? col)%Z
    then Returned (V, zone)
    else if bool_decide (cellKey row col ∈ V) then Returned (V, zone)
    else
      match cellAt grid row col with
      | None => Thrown
      | Some cell =>
          if negb (infected cell) then Returned (V, zone)
          else
            search fuel (row - 1)%Z col ({[cellKey row col]} ∪ V)
                   (zone ++ [cell])%list
            ≫= fun '(V1, zone1) =>
            search fuel (row + 1)%Z col V1 zone1
            ≫= fun '(V2, zone2) =>
            search fuel row (col - 1)%Z V2 zone2
            ≫= fun '(V3, zone3) =>
            search fuel row (col + 1)%Z V3 zone3
      end.
Proof. reflexivity. Qed.

Lemma nothing_added (row col : Z) (V : gset string) :
  (forall p, In p everywhere -> Z.of_nat (fst p) = row -> Z.of_nat (snd p) = col ->
             infectedAt grid p = true -> placeKey p ∈ V) ->
  searchAdds grid rows cols row col V V [].
Proof.
  intros Hroot. unfold searchAdds. simpl.
  split; [ tauto | ]. split; [ constructor | ].
  split; [ tauto | ]. split; [ exact Hroot | ]. split; [ tauto | now left ].
Qed.

Lemma same_place (p q : nat * nat) :
  Z.of_nat (fst p) = Z.of_nat (fst q) -> Z.of_nat (snd p) = Z.of_nat (snd q) ->
  p = q.
Proof. destruct p, q. cbn [fst snd]. intros. f_equal; lia. Qed.

Lemma chained_neighbour (e : list (nat * nat)) (p : nat * nat)
    (row col : Z) (V V' : gset string) (added : list ((nat * nat) * GridCell)) :
  searchAdds grid rows cols row col V V' added ->
  In p e ->
  (forall q, Z.of_nat (fst q) = row -> Z.of_nat (snd q) = col -> adjacent p q) ->
  chainedFrom e (map fst added).
Proof.
  intros (_ & _ & _ & _ & _ & Hchain) Hp Hadj.
  destruct Hchain as [-> | (a & rest & -> & Hr & Hc & Hrest)]; [ exact I | ].
  cbn [map chainedFrom]. split; [ | apply Hrest ].
  exists p. split; [ exact Hp | now apply Hadj ].
Qed.

Lemma dfs_returns :
  forall (fuel : nat) (row col : Z) (V : gset string) (zone : list GridCell),
    (unseen rows cols V < fuel)%nat ->
    exists (added : list ((nat * nat) * GridCell)) (V' : gset string),
      search fuel row col V zone = Returned (V', (zone ++ map snd added)%list)
      /\ searchAdds grid rows cols row col V V' added.
Proof.
  induction fuel as [|fuel IH]; intros row col V zone Hfuel; [ lia | ].
  rewrite dfs_S.
  assert (Hnone : forall Vx,
             (forall p, In p everywhere ->
                        Z.of_nat (fst p) = row -> Z.of_nat (snd p) = col ->
                        infectedAt grid p = true -> placeKey p ∈ V) ->
             Vx = V ->
             exists added V',
               Returned (Vx, zone) = Returned (V', (zone ++ map snd added)%list)
               /\ searchAdds grid rows cols row col V V' added).
  { intros Vx Hroot ->. exists [], V. simpl. rewrite app_nil_r.
    split; [ reflexivity | now apply nothing_added ]. }
  destruct (bounds_cases row col) as [[-> Hout] | [-> (p & Hp & Hr & Hc)]].
  { apply Hnone; [ | reflexivity ]. intros q Hq Hqr Hqc _.
    now destruct (Hout q Hq). }
  assert (Hkey : cellKey row col = placeKey p).
  { unfold placeKey. now rewrite Hr, Hc. }
  assert (Hsame : forall q, Z.of_nat (fst q) = row -> Z.of_nat (snd q) = col -> q = p).
  { intros q Hqr Hqc. apply same_place; congruence. }
  rewrite Hkey.
  destruct (bool_decide (placeKey p ∈ V)) eqn:Hseen.
  { apply bool_decide_eq_true in Hseen.
    apply Hnone; [ | reflexivity ]. intros q _ Hqr Hqc _.
    now rewrite (Hsame q Hqr Hqc). }
  apply bool_decide_eq_false in Hseen.
  destruct (placeCell_some p Hp) as (cell & Hcell).
  assert (Hat : cellAt grid row col = Some cell).
  { rewrite <- Hr, <- Hc. exact Hcell. }
  rewrite Hat.
  destruct (infected cell) eqn:Hinf; cbn [negb].
  2: { apply Hnone; [ | reflexivity ]. intros q _ Hqr Hqc Hq.
       rewrite (Hsame q Hqr Hqc) in Hq. unfold infectedAt in Hq.
       rewrite Hcell in Hq. congruence. }
  set (V1 := {[placeKey p]} ∪ V).
  assert (HV1 : forall k, k ∈ V1 <-> k = placeKey p \/ k ∈ V).
  { intros k. unfold V1. set_solver. }
  assert (Hless : (unseen rows cols V1 < unseen rows cols V)%nat).
  { apply (unseen_insert rows cols V V1 p Hp Hseen).
    - intros k Hk. apply HV1. now right.
    - apply HV1. now left. }
  destruct (IH (row - 1)%Z col V1 (zone ++ [cell])%list) as (a1 & V2 & -> & H1);
    [ lia | ].
  cbn [mbind outcome_bind].
  pose proof H1 as (Hm1 & Hn1 & He1 & Hr1 & Hc1 & _).
  assert (Hle2 : (unseen rows cols V2 <= unseen rows cols V1)%nat).
  { apply unseen_mono. intros k Hk. apply Hm1. now left. }
  destruct (IH (row + 1)%Z col V2 ((zone ++ [cell]) ++ map snd a1)%list)
    as (a2 & V3 & -> & H2); [ lia | ].
  cbn [mbind outcome_bind].
  pose proof H2 as (Hm2 & Hn2 & He2 & Hr2 & Hc2 & _).
  assert (Hle3 : (unseen rows cols V3 <= unseen rows cols V2)%nat).
  { apply unseen_mono. intros k Hk. apply Hm2. now left. }
  destruct (IH row (col - 1)%Z V3
               (((zone ++ [cell]) ++ map snd a1) ++ map snd a2)%list)
    as (a3 & V4 & -> & H3); [ lia | ].
  cbn [mbind outcome_bind].
  pose proof H3 as (Hm3 & Hn3 & He3 & Hr3 & Hc3 & _).
  assert (Hle4 : (unseen rows cols V4 <= unseen rows cols V3)%nat).
  { apply unseen_mono. intros k Hk. apply Hm3. now left. }
  destruct (IH row (col + 1)%Z V4
               ((((zone ++ [cell]) ++ map snd a1) ++ map snd a2) ++ map snd a3)%list)
    as (a4 & V5 & -> & H4); [ lia | ].
  pose proof H4 as (Hm4 & Hn4 & He4 & Hr4 & Hc4 & _).
  exists ((p, cell) :: a1 ++ a2 ++ a3 ++ a4)%list, V5.
  split.
  { f_equal. f_equal. cbn [map]. rewrite !map_app, <- !app_assoc. reflexivity. }
  (* membership in the final record *)
  assert (Hmem : forall k,
             k ∈ V5 <-> k ∈ V
                        \/ In k (map (fun a => placeKey (fst a))
                                     ((p, cell) :: a1 ++ a2 ++ a3 ++ a4)%list)).
  { intros k. rewrite Hm4, Hm3, Hm2, Hm1, HV1.
    cbn [map In fst]. rewrite !map_app, !in_app_iff. intuition auto. }
  assert (Hsub12 : forall k, k ∈ V1 -> k ∈ V2) by (intros k Hk; apply Hm1; auto).
  assert (Hsub23 : forall k, k ∈ V2 -> k ∈ V3) by (intros k Hk; apply Hm2; auto).
  assert (Hsub34 : forall k, k ∈ V3 -> k ∈ V4) by (intros k Hk; apply Hm3; auto).
  assert (Hsub45 : forall k, k ∈ V4 -> k ∈ V5) by (intros k Hk; apply Hm4; auto).
  assert (Hsub01 : forall k, k ∈ V -> k ∈ V1) by (intros k Hk; apply HV1; auto).
  assert (Hkeys : forall (l : list ((nat * nat) * GridCell)) a,
             In a l -> In (placeKey (fst a)) (map (fun a => placeKey (fst a)) l)).
  { intros l a Ha. apply in_map_iff. eauto. }
  unfold searchAdds.
  split; [ exact Hmem | ].
  split.
  { (* no place twice *)
    assert (Happ : forall (l k : list ((nat * nat) * GridCell)),
               List.NoDup (map fst l) -> List.NoDup (map fst k) ->
               (forall a b, In a l -> In b k -> fst a <> fst b) ->
               List.NoDup (map fst (l ++ k))).
    { intros l k Hl Hk Hlk. rewrite map_app. apply NoDup_ListNoDup.
      apply NoDup_app. split; [ now apply NoDup_ListNoDup | ].
      split; [ | now apply NoDup_ListNoDup ].
      intros y Hy1 Hy2. apply list_elem_of_In in Hy1, Hy2.
      apply in_map_iff in Hy1 as (a & <- & Ha).
      apply in_map_iff in Hy2 as (b & Hb' & Hb).
      exact (Hlk a b Ha Hb (eq_sym Hb')). }
    assert (Hfresh : forall (Vi : gset string) (l k : list ((nat * nat) * GridCell)),
               (forall a, In a l -> placeKey (fst a) ∈ Vi) ->
               (forall b, In b k -> placeKey (fst b) ∉ Vi) ->
               forall a b, In a l -> In b k -> fst a <> fst b).
    { intros Vi l k Hl Hk a b Ha Hb Heq. apply (Hk b Hb). rewrite <- Heq. auto. }
    change ((p, cell) :: a1 ++ a2 ++ a3 ++ a4)%list
      with ([(p, cell)] ++ a1 ++ a2 ++ a3 ++ a4)%list.
    apply Happ; [ repeat constructor; intros [] | | ].
    - apply Happ; [ exact Hn1 | | ].
      + apply Happ; [ exact Hn2 | | ].
        * apply Happ; [ exact Hn3 | exact Hn4 | ].
          apply (Hfresh V4).
          -- intros a Ha. apply Hm3. right. now apply Hkeys.
          -- intros b Hb. now apply (He4 b).
        * apply (Hfresh V3).
          -- intros a Ha. apply Hm2. right. now apply Hkeys.
          -- intros b Hb. apply in_app_or in Hb as [Hb | Hb].
             ++ now apply (He3 b).
             ++ intros Hin. apply (proj2 (proj2 (proj2 (He4 b Hb)))). auto.
      + apply (Hfresh V2).
        * intros a Ha. apply Hm1. right. now apply Hkeys.
        * intros b Hb. apply in_app_or in Hb as [Hb | Hb]; [ now apply (He2 b) | ].
          apply in_app_or in Hb as [Hb | Hb].
          -- intros Hin. apply (proj2 (proj2 (proj2 (He3 b Hb)))). auto.
          -- intros Hin. apply (proj2 (proj2 (proj2 (He4 b Hb)))). auto.
    - apply (Hfresh V1).
      + intros a [<- | []]. apply HV1. now left.
      + intros b Hb. apply in_app_or in Hb as [Hb | Hb]; [ now apply (He1 b) | ].
        apply in_app_or in Hb as [Hb | Hb].
        { intros Hin. apply (proj2 (proj2 (proj2 (He2 b Hb)))). auto. }
        apply in_app_or in Hb as [Hb | Hb].
        * intros Hin. apply (proj2 (proj2 (proj2 (He3 b Hb)))). auto.
        * intros Hin. apply (proj2 (proj2 (proj2 (He4 b Hb)))). auto. }
  split.
  { (* the places added are new infected places *)
    intros a [<- | Ha]; [ cbn [fst snd]; auto | ].
    assert (Hall : forall (Vi : gset string) (l : list ((nat * nat) * GridCell)),
               (forall k, k ∈ V -> k ∈ Vi) ->
               (forall b, In b l ->
                          In (fst b) everywhere /\ placeCell grid (fst b) = Some (snd b)
                          /\ infected (snd b) = true /\ placeKey (fst b) ∉ Vi) ->
               In a l ->
               In (fst a) everywhere /\ placeCell grid (fst a) = Some (snd a)
               /\ infected (snd a) = true /\ placeKey (fst a) ∉ V).
    { intros Vi l Hsub Hl Hin. destruct (Hl a Hin) as (? & ? & ? & Hnot).
      repeat split; auto. }
    apply in_app_or in Ha as [Ha | Ha]; [ apply (Hall V1 a1); auto | ].
    apply in_app_or in Ha as [Ha | Ha]; [ apply (Hall V2 a2); auto | ].
    apply in_app_or in Ha as [Ha | Ha]; [ apply (Hall V3 a3); auto | ].
    apply (Hall V4 a4); auto. }
  split.
  { intros q _ Hqr Hqc _. rewrite (Hsame q Hqr Hqc).
    apply Hmem. right. now left. }
  split.
  { (* the infected neighbours of the places added are recorded *)
    intros a q [<- | Ha] Hadj Hq Hqinf.
    - cbn [fst] in Hadj. unfold adjacent in Hadj.
      destruct Hadj as [[Hrow [Hcol | Hcol]] | [Hcol [Hrow | Hrow]]].
      + apply Hsub45. apply (Hr3 q Hq); [ lia | lia | exact Hqinf ].
      + apply (Hr4 q Hq); [ lia | lia | exact Hqinf ].
      + apply Hsub45, Hsub34, Hsub23. apply (Hr1 q Hq); [ lia | lia | exact Hqinf ].
      + apply Hsub45, Hsub34. apply (Hr2 q Hq); [ lia | lia | exact Hqinf ].
    - apply in_app_or in Ha as [Ha | Ha].
      { apply Hsub45, Hsub34, Hsub23. now apply (Hc1 a q). }
      apply in_app_or in Ha as [Ha | Ha].
      { apply Hsub45, Hsub34. now apply (Hc2 a q). }
      apply in_app_or in Ha as [Ha | Ha].
      { apply Hsub45. now apply (Hc3 a q). }
      now apply (Hc4 a q). }
  right. exists (p, cell), (a1 ++ a2 ++ a3 ++ a4)%list.
  split; [ reflexivity | ]. split; [ exact Hr | ]. split; [ exact Hc | ].
  intros e. cbn [fst]. rewrite !map_app.
  assert (Hnext : forall q (d : Z),
             (Z.of_nat (fst q) = (row + d)%Z /\ Z.of_nat (snd q) = col
              \/ Z.of_nat (fst q) = row /\ Z.of_nat (snd q) = (col + d)%Z) ->
             (d = 1 \/ d = -1)%Z -> adjacent p q).
  { intros q d Hq Hd. unfold adjacent. lia. }
  rewrite chainedFrom_app. split.
  { apply (chained_neighbour _ p _ _ _ _ _ H1).
    - rewrite !in_app_iff; cbn [In]; intuition auto.
    - intros q Hqr Hqc. apply (Hnext q (-1)%Z); lia. }
  rewrite chainedFrom_app. split.
  { apply (chained_neighbour _ p _ _ _ _ _ H2).
    - rewrite !in_app_iff; cbn [In]; intuition auto.
    - intros q Hqr Hqc. apply (Hnext q 1%Z); lia. }
  rewrite chainedFrom_app. split.
  { apply (chained_neighbour _ p _ _ _ _ _ H3).
    - rewrite !in_app_iff; cbn [In]; intuition auto.
    - intros q Hqr Hqc. apply (Hnext q (-1)%Z); lia. }
  apply (chained_neighbour _ p _ _ _ _ _ H4).
  - rewrite !in_app_iff; cbn [In]; intuition auto.
  - intros q Hqr Hqc. apply (Hnext q 1%Z); lia.
Qed.

Lemma unseen_le (V : gset string) : (unseen rows cols V <= rows * cols)%nat.
Proof.
  unfold unseen.
  etransitivity; [ apply List.filter_length_le | ].
  unfold places. rewrite (length_flat_map_const _ cols).
  - now rewrite length_seq.
  - intros row. now rewrite length_map, length_seq.
Qed.

Lemma startZone_step (fuel : nat) (done : list (nat * nat)) (V : gset string)
    (placed : list (list ((nat * nat) * GridCell))) (p : nat * nat) :
  (rows * cols < fuel)%nat ->
  zonesFound grid rows cols done V placed ->
  In p everywhere ->
  exists V' placed',
    startZone fuel grid (Z.of_nat rows) (Z.of_nat cols)
              (Returned (V, map (map snd) placed))
              (Z.of_nat (fst p)) (Z.of_nat (snd p))
    = Returned (V', map (map snd) placed')
    /\ zonesFound grid rows cols (done ++ [p]) V' placed'.
Proof.
  intros Hfuel (Hmem & Hnd & Hcells & Hdone & Hzones) Hp.
  unfold startZone. cbn [mbind outcome_bind].
  destruct (placeCell_some p Hp) as (cell & Hcell).
  change (cellAt grid (Z.of_nat (fst p)) (Z.of_nat (snd p)))
    with (placeCell grid p).
  change (cellKey (Z.of_nat (fst p)) (Z.of_nat (snd p))) with (placeKey p).
  rewrite Hcell.
  assert (Hinfected : infectedAt grid p = infected cell).
  { unfold infectedAt. now rewrite Hcell. }
  destruct (infected cell && negb (bool_decide (placeKey p ∈ V))) eqn:Htest.
  2: { exists V, placed. split; [ reflexivity | ].
       split; [ exact Hmem | ]. split; [ exact Hnd | ]. split; [ exact Hcells | ].
       split; [ | exact Hzones ].
       intros q Hq Hqinf. apply in_app_or in Hq as [Hq | [<- | []]]; [ auto | ].
       rewrite Hinfected in Hqinf. rewrite Hqinf in Htest. cbn [andb] in Htest.
       apply negb_false_iff, bool_decide_eq_true in Htest. exact Htest. }
  apply andb_true_iff in Htest as [Hinf Hnew].
  apply negb_true_iff, bool_decide_eq_false in Hnew.
  destruct (dfs_returns fuel (Z.of_nat (fst p)) (Z.of_nat (snd p)) V [])
    as (added & V' & Hrun & Hadds).
  { pose proof (unseen_le V). lia. }
  rewrite Hrun. cbn [mbind outcome_bind app].
  pose proof Hadds as (Hm & Hn & He & Hr & Hc & Hchain).
  assert (Hin' : placeKey p ∈ V').
  { apply (Hr p Hp); [ reflexivity | reflexivity | now rewrite Hinfected ]. }
  assert (Hne : added <> []).
  { intros ->. apply Hm in Hin' as [Hin' | []]. contradiction. }
  exists V', (placed ++ [added])%list.
  split.
  { cbn [mret outcome_ret]. f_equal. f_equal.
    rewrite map_app. cbn [map].
    destruct added as [|a rest]; [ contradiction | reflexivity ]. }
  assert (Hconcat : concat (placed ++ [added]) = (concat placed ++ added)%list).
  { rewrite concat_app. cbn [concat]. now rewrite app_nil_r. }
  unfold zonesFound. rewrite Hconcat.
  split.
  { intros k. rewrite Hm, Hmem, map_app, in_app_iff. tauto. }
  split.
  { rewrite map_app. apply NoDup_ListNoDup, NoDup_app.
    split; [ now apply NoDup_ListNoDup | ]. split; [ | now apply NoDup_ListNoDup ].
    intros x Hx Hx'. apply list_elem_of_In in Hx, Hx'.
    apply in_map_iff in Hx as (a & <- & Ha).
    apply in_map_iff in Hx' as (b & Heq & Hb).
    destruct (He b Hb) as (_ & _ & _ & Hnot). apply Hnot. rewrite Heq.
    apply Hmem. apply in_map_iff. eauto. }
  split.
  { intros a Ha. apply in_app_or in Ha as [Ha | Ha]; [ now apply Hcells | ].
    destruct (He a Ha) as (? & ? & ? & _). auto. }
  split.
  { intros q Hq Hqinf. apply in_app_or in Hq as [Hq | [<- | []]].
    - apply Hm. left. now apply Hdone.
    - exact Hin'. }
  apply List.Forall_app. split; [ exact Hzones | ].
  constructor; [ | constructor ].
  split; [ exact Hne | ]. split.
  { destruct Hchain as [-> | (a & rest & -> & _ & _ & Hrest)]; [ exact I | ].
    cbn [map chained]. apply (Hrest []). }
  intros a q Ha Hadj Hq Hqinf.
  pose proof (Hc a q Ha Hadj Hq Hqinf) as Hseen.
  apply Hm in Hseen as [Hold | Hnewq].
  - exfalso.
    apply Hmem in Hold. apply in_map_iff in Hold as (b & Hkey & Hb).
    apply placeKey_inj in Hkey.
    (* [q] lies in an earlier zone, which holds its infected neighbours *)
    apply in_concat in Hb as (zone & Hzone & Hbz).
    pose proof (proj1 (List.Forall_forall _ _) Hzones zone Hzone)
      as (_ & _ & Hclosed).
    destruct (He a Ha) as (Hain & Hacell & Hainf & Hanew).
    assert (Hback : In (fst a) (map fst zone)).
    { apply (Hclosed b (fst a) Hbz); [ rewrite Hkey; now apply adjacent_sym | exact Hain | ].
      unfold infectedAt. now rewrite Hacell. }
    apply Hanew. apply Hmem.
    apply in_map_iff in Hback as (c & Hc' & Hcz).
    apply in_map_iff. exists c. split; [ now rewrite Hc' | ].
    apply in_concat. eauto.
  - apply in_map_iff in Hnewq as (b & Hkey & Hb).
    apply placeKey_inj in Hkey. rewrite <- Hkey. now apply in_map.
Qed.

Lemma startZone_all (fuel : nat) (todo : list (nat * nat)) :
  (rows * cols < fuel)%nat ->
  forall (done : list (nat * nat)) (V : gset string)
         (placed : list (list ((nat * nat) * GridCell))),
    zonesFound grid rows cols done V placed ->
    (forall p, In p todo -> In p everywhere) ->
    exists V' placed',
      fold_left (fun state p =>
                   startZone fuel grid (Z.of_nat rows) (Z.of_nat cols) state
                             (Z.of_nat (fst p)) (Z.of_nat (snd p)))
                todo (Returned (V, map (map snd) placed))
      = Returned (V', map (map snd) placed')
      /\ zonesFound grid rows cols (done ++ todo) V' placed'.
Proof.
  intros Hfuel.
  induction todo as [|p todo IH]; intros done V placed Hfound Hin.
  - exists V, placed. rewrite app_nil_r. split; [ reflexivity | exact Hfound ].
  - destruct (startZone_step fuel done V placed p Hfuel Hfound)
      as (V1 & placed1 & Hstep & Hfound1); [ apply Hin; now left | ].
    destruct (IH (done ++ [p])%list V1 placed1 Hfound1)
      as (V' & placed' & Hrest & Hfound').
    { intros q Hq. apply Hin. now right. }
    exists V', placed'. cbn [fold_left]. rewrite Hstep, Hrest.
    split; [ reflexivity | ]. now rewrite <- app_assoc in Hfound'.
Qed.

End ZoneSearch.

Section ZoneResult.
Import FieldGrid InfectedZones.

Lemma fold_places {S : Type} (f : S -> nat -> nat -> S) (rows cols : nat) (s : S) :
  fold_left (fun state row =>
               fold_left (fun state col => f state row col) (seq 0 cols) state)
            (seq 0 rows) s
  = fold_left (fun state p => f state (fst p) (snd p)) (places rows cols) s.
Proof.
  unfold places. revert s. generalize (seq 0 rows) as l.
  induction l as [|row l IH]; intros s; [ reflexivity | ].
  cbn [fold_left flat_map]. rewrite fold_left_app, IH. f_equal.
  generalize (seq 0 cols) as k. clear. intros k. revert s.
  induction k as [|col k IHk]; intros s; [ reflexivity | ].
  cbn [fold_left map fst snd]. apply IHk.
Qed.

Lemma rectangular_rows (first : list GridCell) (grid : Grid) :
  rectangular (first :: grid) = true ->
  forall gridRow, In gridRow (first :: grid) -> length gridRow = length first.
Proof.
  unfold rectangular. rewrite forallb_forall. intros H gridRow Hin.
  apply Nat.eqb_eq. now apply H.
Qed.

Lemma row_cells (gridRow : list GridCell) :
  map (fun col => gridRow !! col) (seq 0 (length gridRow)) = map Some gridRow.
Proof.
  induction gridRow as [|cell gridRow IH]; [ reflexivity | ].
  cbn [length seq map]. f_equal. rewrite <- seq_shift, map_map. exact IH.
Qed.

Lemma grid_cells (grid : Grid) (cols : nat) :
  (forall gridRow, In gridRow grid -> length gridRow = cols) ->
  map (placeCell grid) (places (length grid) cols) = map Some (concat grid).
Proof.
  intros Hcols. unfold places, placeCell, cellAt.
  induction grid as [|gridRow grid IH]; [ reflexivity | ].
  cbn [length seq flat_map concat]. rewrite !map_app. f_equal.
  - rewrite map_map. cbn [fst snd]. rewrite <- (Hcols gridRow) by now left.
    rewrite <- row_cells. apply map_ext. intros col. now rewrite Nat2Z.id.
  - rewrite <- IH by (intros r Hr; apply Hcols; now right).
    rewrite <- seq_shift. rewrite !flat_map_concat_map, !map_map, !concat_map.
    f_equal. rewrite !map_map. apply map_ext. intros row.
    rewrite !map_map. apply map_ext. intros col. cbn [fst snd].
    rewrite !Nat2Z.id. reflexivity.
Qed.

Lemma infected_cells (grid : Grid) (cells : list GridCell) (l : list (nat * nat)) :
  map (placeCell grid) l = map Some cells ->
  omap (placeCell grid) (List.filter (infectedAt grid) l)
  = List.filter infected cells.
Proof.
  revert cells. induction l as [|p l IH]; intros [|cell cells] H; try discriminate;
    [ reflexivity | ].
  cbn [map] in H. injection H as Hp Hrest.
  cbn [List.filter]. unfold infectedAt at 1. rewrite Hp.
  destruct (infected cell); [ | now apply IH ].
  cbn [omap list_omap]. rewrite Hp. f_equal. now apply IH.
Qed.

Lemma placed_cells (grid : Grid) (l : list ((nat * nat) * GridCell)) :
  (forall a, In a l -> placeCell grid (fst a) = Some (snd a)) ->
  omap (placeCell grid) (map fst l) = map snd l.
Proof.
  induction l as [|a l IH]; intros H; [ reflexivity | ].
  cbn [map omap list_omap]. rewrite (H a) by now left.
  f_equal. apply IH. intros b Hb. apply H. now right.
Qed.

(** On a rectangular grid with a row, the search returns for every
    fuel above the number of cells, and what it returns is described by
    [zonesFound] over all places. *)
Lemma identifyInfectedZones_found (first : list GridCell) (grid : Grid) (fuel : nat) :
  rectangular (first :: grid) = true ->
  (length (flattenGrid (first :: grid)) < fuel)%nat ->
  exists V placed,
    identifyInfectedZones fuel (first :: grid) = Returned (map (map snd) placed)
    /\ zonesFound (first :: grid) (length (first :: grid)) (length first)
                  (places (length (first :: grid)) (length first)) V placed.
Proof.
  intros Hrect Hfuel.
  pose proof (rectangular_rows first grid Hrect) as Hcols.
  assert (Hcount : length (flattenGrid (first :: grid))
                   = (length (first :: grid) * length first)%nat).
  { unfold flattenGrid.
    rewrite <- (length_map Some), <- (grid_cells (first :: grid) (length first) Hcols).
    rewrite length_map. unfold places.
    rewrite (length_flat_map_const _ (length first)).
    - now rewrite length_seq.
    - intros row. now rewrite length_map, length_seq. }
  destruct (startZone_all (first :: grid) (length (first :: grid)) (length first)
              eq_refl Hcols fuel
              (places (length (first :: grid)) (length first)))
    with (done := @nil (nat * nat)) (V := (∅ : gset string))
         (placed := @nil (list ((nat * nat) * GridCell)))
    as (V & placed & Hrun & Hfound); [ lia | | auto | ].
  { unfold zonesFound. cbn [concat map].
    split; [ intros k; cbn [In]; set_solver | ].
    split; [ constructor | ]. split; [ intros a [] | ].
    split; [ intros p [] | constructor ]. }
  exists V, placed. split; [ | exact Hfound ].
  unfold identifyInfectedZones.
  rewrite (fold_places
             (fun state row col =>
                startZone fuel (first :: grid) (Z.of_nat (length (first :: grid)))
                          (Z.of_nat (length first)) state
                          (Z.of_nat row) (Z.of_nat col))).
  cbn [map] in Hrun. rewrite Hrun. reflexivity.
Qed.

Lemma found_places (grid : Grid) (rows cols : nat) (V : gset string)
    (placed : list (list ((nat * nat) * GridCell))) (p : nat * nat) :
  zonesFound grid rows cols (places rows cols) V placed ->
  In p (map fst (concat placed))
  <-> In p (places rows cols) /\ infectedAt grid p = true.
Proof.
  intros (Hmem & _ & Hcells & Hdone & _). split.
  - intros Hp. apply in_map_iff in Hp as (a & <- & Ha).
    destruct (Hcells a Ha) as (Hin & Hcell & Hinf).
    split; [ exact Hin | ]. unfold infectedAt. now rewrite Hcell.
  - intros [Hp Hinf]. pose proof (Hdone p Hp Hinf) as Hseen.
    apply Hmem in Hseen. apply in_map_iff in Hseen as (a & Hkey & Ha).
    apply placeKey_inj in Hkey. rewrite <- Hkey. now apply in_map.
Qed.

Lemma found_cells (first : list GridCell) (grid : Grid) (V : gset string)
    (placed : list (list ((nat * nat) * GridCell))) :
  rectangular (first :: grid) = true ->
  zonesFound (first :: grid) (length (first :: grid)) (length first)
             (places (length (first :: grid)) (length first)) V placed ->
  Permutation (concat (map (map snd) placed)) (getInfectedCells (first :: grid)).
Proof.
  intros Hrect Hfound.
  pose proof (rectangular_rows first grid Hrect) as Hcols.
  pose proof Hfound as (_ & Hnd & Hcells & _).
  rewrite <- concat_map.
  rewrite <- (placed_cells (first :: grid)) by (intros a Ha; now apply Hcells).
  unfold getInfectedCells, flattenGrid.
  rewrite <- (infected_cells (first :: grid) _
                (places (length (first :: grid)) (length first)))
    by now apply grid_cells.
  apply omap_Permutation.
  apply Stdlib.Sorting.Permutation.NoDup_Permutation;
    [ exact Hnd | apply List.NoDup_filter, places_NoDup | ].
  intros p. rewrite (found_places _ _ _ _ _ p Hfound), filter_In. reflexivity.
Qed.

(** X25. On a rectangular grid with a row, and with fuel above the
    number of cells, [identifyInfectedZones] returns: the zones hold the
    infected cells of the grid, each once, no zone is empty, and
    [getZoneStatistics] counts the infected cells of the grid. *)
Theorem zones_partition_infected_cells (grid : Grid) (fuel : nat) :
  grid <> [] ->
  rectangular grid = true ->
  (length (flattenGrid grid) < fuel)%nat ->
  exists zones,
    identifyInfectedZones fuel grid = Returned zones
    /\ Permutation (concat zones) (getInfectedCells grid)
    /\ List.Forall (fun zone => zone <> []) zones
    /\ totalInfectedCells (getZoneStatistics zones)
       = ofNat (length (getInfectedCells grid)).
Proof.
  intros Hgrid Hrect Hfuel. destruct grid as [|first grid]; [ contradiction | ].
  destruct (identifyInfectedZones_found first grid fuel Hrect Hfuel)
    as (V & placed & Hrun & Hfound).
  pose proof (found_cells first grid V placed Hrect Hfound) as Hperm.
  exists (map (map snd) placed). split; [ exact Hrun | ].
  split; [ exact Hperm | ]. split.
  - destruct Hfound as (_ & _ & _ & _ & Hzones).
    apply List.Forall_forall. intros zone Hzone.
    apply in_map_iff in Hzone as (z & <- & Hz).
    destruct (proj1 (List.Forall_forall _ _) Hzones z Hz) as (Hne & _).
    destruct z; [ contradiction | discriminate ].
  - cbn [totalInfectedCells getZoneStatistics]. unfold sumZoneLengths.
    change (ofZ 0) with (ofNat 0). rewrite sumZoneLengths_from.
    now rewrite (Permutation_length Hperm).
Qed.

(** X26. The zones are the connected components of the infected
    places, neighbours being next to each other in a row or a column:
    the cells of the zones sit at pairwise different places, which are
    the infected places of the grid; within a zone every place after the
    first has a neighbour before it; and a zone holds every infected
    neighbour of its places. *)
Theorem zones_are_connected_components (grid : Grid) (fuel : nat) :
  grid <> [] ->
  rectangular grid = true ->
  (length (flattenGrid grid) < fuel)%nat ->
  let everywhere := places (length grid) (length (List.hd [] grid)) in
  exists placed : list (list ((nat * nat) * GridCell)),
    identifyInfectedZones fuel grid = Returned (map (map snd) placed)
    /\ (forall a, In a (concat placed) -> placeCell grid (fst a) = Some (snd a))
    /\ List.NoDup (map fst (concat placed))
    /\ (forall p, In p (map fst (concat placed))
                  <-> In p everywhere /\ infectedAt grid p = true)
    /\ List.Forall
         (fun zone =>
            chained (map fst zone)
            /\ forall a q, In a zone -> adjacent (fst a) q ->
                           In q everywhere -> infectedAt grid q = true ->
                           In q (map fst zone))
         placed.
Proof.
  intros Hne Hrect Hfuel. destruct grid as [|first grid]; [ contradiction | ].
  cbv zeta. cbn [List.hd].
  destruct (identifyInfectedZones_found first grid fuel Hrect Hfuel)
    as (V & placed & Hrun & Hfound).
  exists placed. split; [ exact Hrun | ].
  pose proof Hfound as (_ & Hnd & Hcells & _ & Hzones).
  split; [ intros a Ha; now apply Hcells | ].
  split; [ exact Hnd | ].
  split; [ intros p; now apply (found_places _ _ _ V) | ].
  eapply List.Forall_impl; [ | exact Hzones ].
  intros zone (_ & Hchain & Hclosed). now split.
Qed.

End ZoneResult.

Section ZoneExamples.
Import FieldGrid InfectedZones Fixtures.

Lemma zones_partition_infected_cells_witness :
  exists zones,
    identifyInfectedZones 101 cornerGrid = Returned zones
    /\ Permutation (concat zones) (getInfectedCells cornerGrid)
    /\ List.Forall (fun zone => zone <> []) zones
    /\ totalInfectedCells (getZoneStatistics zones)
       = ofNat (length (getInfectedCells cornerGrid)).
Proof.
  apply zones_partition_infected_cells.
  - intros H. apply (f_equal (@length _)) in H. vm_compute in H. discriminate.
  - vm_compute. reflexivity.
  - vm_compute. lia.
Defined.

Lemma zones_are_connected_components_witness :
  exists placed : list (list ((nat * nat) * GridCell)),
    identifyInfectedZones 101 cornerGrid = Returned (map (map snd) placed)
    /\ List.NoDup (map fst (concat placed))
    /\ List.Forall (fun zone => chained (map fst zone)) placed.
Proof.
  destruct (zones_are_connected_components cornerGrid 101)
    as (placed & Hrun & _ & Hnd & _ & Hzones).
  - intros H. apply (f_equal (@length _)) in H. vm_compute in H. discriminate.
  - vm_compute. reflexivity.
  - vm_compute. lia.
  - exists placed. split; [ exact Hrun | ]. split; [ exact Hnd | ].
    eapply List.Forall_impl; [ | exact Hzones ]. intros zone Hzone. apply Hzone.
Defined.
End ZoneExamples.
